(** * Innovation screener: prompt construction and response extraction

    A shallow embedding of [server/evaluator.js] (the prompt template,
    [getHuggingFaceToken], [evaluateInnovation]) and of the
    [POST /api/evaluate] handler of [server/index.js], together with the
    parts of the JavaScript platform they call: strings of UTF-16 code
    units, [String.prototype.replace] with a string pattern,
    [String.prototype.match] with the two regular expressions of the
    extractor, [String.prototype.trim], [JSON.parse] and [JSON.stringify].
    The client is embedded as far as it decides what is sent and what is
    shown: [handleSubmit] of the form, [handleEvaluate] and [handleReset]
    of [App], and the error state of [EvaluationResults]; between the
    two sits the JSON middleware of express. *)

From Stdlib Require Import List NArith ZArith Bool Lia String Ascii.
Import ListNotations.

Set Implicit Arguments.

(** ** JavaScript strings *)

Module JS.

(** A JavaScript string is a sequence of UTF-16 code units. *)
Abbreviation char16 := N (only parsing).
Abbreviation jsstring := (list N) (only parsing).

Definition code (a : ascii) : char16 := N_of_ascii a.

(** The code units of an ASCII literal. *)
Fixpoint str (s : string) : jsstring :=
  match s with
  | EmptyString => []
  | String a r => code a :: str r
  end.

Fixpoint eqs (a b : jsstring) : bool :=
  match a, b with
  | [], [] => true
  | x :: a', y :: b' => N.eqb x y && eqs a' b'
  | _, _ => false
  end.

(** [starts_with p s]: [s.startsWith(p)]. *)
Fixpoint starts_with (p s : jsstring) : bool :=
  match p, s with
  | [], _ => true
  | x :: p', y :: s' => N.eqb x y && starts_with p' s'
  | _ :: _, [] => false
  end.

(** [includes p s]: [s.includes(p)], an occurrence of [p] somewhere in [s]. *)
Fixpoint includes (p s : jsstring) : bool :=
  starts_with p s ||
  match s with
  | [] => false
  | _ :: s' => includes p s'
  end.

(** WhiteSpace and LineTerminator code units: the class [\s] of regular
    expressions, and what [String.prototype.trim] strips. *)
Definition isSpace (c : char16) : bool :=
  ((9 <=? c) && (c <=? 13) || (c =? 32) || (c =? 160) || (c =? 5760)
   || (8192 <=? c) && (c <=? 8202) || (c =? 8232) || (c =? 8233)
   || (c =? 8239) || (c =? 8287) || (c =? 12288) || (c =? 65279))%N.

(** The input after its leading run of the class [p]. *)
Fixpoint trimStart_by (p : char16 -> bool) (s : jsstring) : jsstring :=
  match s with
  | c :: s' => if p c then trimStart_by p s' else s
  | [] => []
  end.

Definition trimStart (s : jsstring) : jsstring := trimStart_by isSpace s.

Definition trim (s : jsstring) : jsstring :=
  rev (trimStart (rev (trimStart s))).


(** *** [String.prototype.replace] with a string pattern *)

(** The text before and after the first occurrence of [p] in [s]. *)
Fixpoint split_at_first (p s : jsstring) : option (jsstring * jsstring) :=
  if starts_with p s then Some ([], skipn (List.length p) s)
  else
    match s with
    | [] => None
    | c :: s' =>
        match split_at_first p s' with
        | Some (b, a) => Some (c :: b, a)
        | None => None
        end
    end.

(** [GetSubstitution] for a match without capture groups: in the
    replacement text a dollar sign followed by a dollar sign stands for one
    dollar sign, followed by an ampersand for the matched text, by a
    backtick for the text before the match and by an apostrophe for the
    text after it; any other dollar sign stands for itself. *)
Fixpoint GetSubstitution (matched before after template : jsstring)
    : jsstring :=
  match template with
  | [] => []
  | c :: t =>
      if (c =? 36)%N then
        match t with
        | [] => [36%N]
        | d :: t' =>
            if (d =? 36)%N then
              36%N :: GetSubstitution matched before after t'
            else if (d =? 38)%N then
              matched ++ GetSubstitution matched before after t'
            else if (d =? 96)%N then
              before ++ GetSubstitution matched before after t'
            else if (d =? 39)%N then
              after ++ GetSubstitution matched before after t'
            else 36%N :: GetSubstitution matched before after t
        end
      else c :: GetSubstitution matched before after t
  end.

(** [s.replace(p, r)] for strings [p] and [r]: the first occurrence of [p]
    gives way to the expansion of [r]; without an occurrence [s] is
    returned. *)
Definition replace (s p r : jsstring) : jsstring :=
  match split_at_first p s with
  | Some (b, a) => b ++ GetSubstitution p b a r ++ a
  | None => s
  end.

(** *** Decimal numerals *)

Fixpoint to_digits_aux (fuel : nat) (n : N) (acc : list N) : list N :=
  match fuel with
  | O => acc
  | S f =>
      if (n <? 10)%N then n :: acc
      else to_digits_aux f (n / 10)%N ((n mod 10)%N :: acc)
  end.

(** The decimal digits of [n], most significant first. *)
Definition to_digits (n : N) : list N :=
  to_digits_aux (S (N.to_nat (N.log2 n))) n [].

Definition digit_char (d : N) : char16 := (48 + d)%N.

(** [String(n)] for a non-negative integer below 10^21. *)
Definition decimal (n : N) : jsstring := map digit_char (to_digits n).

End JS.
Import JS.

(** ** Regular expressions

    The backtracking matcher of ECMAScript (a matcher takes a state and a
    continuation), for the constructs the two patterns of the extractor
    use: literal code units, character classes, sequencing, the greedy
    quantifiers [?] and [*], and one capturing group, which in both
    patterns stands outside every quantifier. *)

Module RegExp.

Inductive regex :=
| Eps
| Chr (c : char16)
| Cls (p : char16 -> bool)
| Seq (a b : regex)
| Opt (a : regex)
| Star (a : regex)
| Group (a : regex).

(** What is left of the input, and the text captured by group 1. *)
Record mstate := MState { rest : jsstring; cap : option jsstring }.

Definition cont := mstate -> option mstate.

Definition shorter (y x : mstate) : bool :=
  (List.length (rest y) <? List.length (rest x))%nat.

Fixpoint m (r : regex) (x : mstate) (k : cont) {struct r} : option mstate :=
  match r with
  | Eps => k x
  | Chr c =>
      match rest x with
      | ch :: tl => if N.eqb ch c then k (MState tl (cap x)) else None
      | [] => None
      end
  | Cls p =>
      match rest x with
      | ch :: tl => if p ch then k (MState tl (cap x)) else None
      | [] => None
      end
  | Seq a b => m a x (fun y => m b y k)
  | Opt a =>
      match m a x (fun y => if shorter y x then k y else None) with
      | Some z => Some z
      | None => k x
      end
  | Star a =>
      (fix loop (n : nat) (x : mstate) {struct n} : option mstate :=
         match n with
         | O => k x
         | S n' =>
             match m a x (fun y => if shorter y x then loop n' y else None) with
             | Some z => Some z
             | None => k x
             end
         end) (List.length (rest x)) x
  | Group a =>
      m a x (fun y =>
        k (MState (rest y)
             (Some (firstn (List.length (rest x) - List.length (rest y)) (rest x)))))
  end.

Fixpoint lit (s : jsstring) : regex :=
  match s with
  | [] => Eps
  | c :: s' => Seq (Chr c) (lit s')
  end.

(** [exec r s]: the first match of [r] in [s], trying the start positions
    from the left; the matched text and the text of group 1. This is what
    [s.match(r)] returns for a pattern without the [g] flag. *)
Fixpoint exec (r : regex) (s : jsstring) : option (jsstring * option jsstring) :=
  match m r (MState s None) Some with
  | Some y => Some (firstn (List.length s - List.length (rest y)) s, cap y)
  | None =>
      match s with
      | [] => None
      | _ :: tl => exec r tl
      end
  end.

Definition any (c : char16) : bool := true.

(** What the greedy star of a character class amounts to: the continuation
    is tried after the longest run of the class first, then after each
    shorter one. *)
Fixpoint greedy (p : char16 -> bool) (k : cont) (c : option jsstring)
    (s : jsstring) : option mstate :=
  match s with
  | ch :: tl =>
      if p ch then
        match greedy p k c tl with
        | Some z => Some z
        | None => k (MState s c)
        end
      else k (MState s c)
  | [] => k (MState [] c)
  end.

(** The input after the last occurrence of [ch]. *)
Fixpoint after_last (ch : char16) (s : jsstring) : option jsstring :=
  match s with
  | [] => None
  | x :: tl =>
      match after_last ch tl with
      | Some r => Some r
      | None => if N.eqb x ch then Some tl else None
      end
  end.


End RegExp.
Import RegExp.

(** ** Errors and completions *)

Module Completion.

Inductive error_kind := Error | TypeError | SyntaxError | RangeError.

(** An error object: its constructor and its [message]. *)
Record js_error := MkError { kind : error_kind; message : jsstring }.

(** The outcome of evaluating an expression or of awaiting a promise:
    a value, or a thrown error (a rejection). *)
Inductive completion (A : Type) :=
| Normal (a : A)
| Throw (e : js_error).

Arguments Normal {A} a.
Arguments Throw {A} e.

End Completion.
Import Completion.

(** ** JSON values, [JSON.parse] and [JSON.stringify] *)

Module JSON.

(** A Number value that comes from a JSON number literal is the double
    nearest to the decimal the literal denotes. The embedding keeps that
    decimal, exactly and in normal form: a sign, a mantissa that does not
    end in 0 and a power of ten. The rounding to a double is a function of
    it that is not applied here; on the other side, [Number::toString] is
    defined from the shortest decimal whose Number value is the double,
    which is the decimal kept. Literals that read [-0] keep their sign. *)
Record number := Num { neg : bool; mant : N; exp10 : Z }.

(** The values [JSON.parse] builds. An object lists its own properties in
    the order [Object.keys] enumerates them. *)
#[local] Unset Elimination Schemes.
Inductive json :=
| JNull
| JBool (b : bool)
| JNumber (n : number)
| JString (s : jsstring)
| JArray (l : list json)
| JObject (o : list (jsstring * json)).
#[local] Set Elimination Schemes.

(** Induction over values, through the lists of arrays and objects. *)
Section json_induction.

Variable P : json -> Prop.
Hypothesis Hnull : P JNull.
Hypothesis Hbool : forall b, P (JBool b).
Hypothesis Hnumber : forall n, P (JNumber n).
Hypothesis Hstring : forall s, P (JString s).
Hypothesis Harray : forall l, Forall P l -> P (JArray l).
Hypothesis Hobject : forall o, Forall (fun kv => P (snd kv)) o -> P (JObject o).

Fixpoint json_induction (v : json) : P v :=
  match v with
  | JNull => Hnull
  | JBool b => Hbool b
  | JNumber n => Hnumber n
  | JString s => Hstring s
  | JArray l =>
      Harray
        ((fix all (l : list json) : Forall P l :=
            match l with
            | [] => Forall_nil P
            | x :: l' => Forall_cons x (json_induction x) (all l')
            end) l)
  | JObject o =>
      Hobject
        ((fix all (o : list (jsstring * json))
            : Forall (fun kv => P (snd kv)) o :=
            match o with
            | [] => Forall_nil _
            | kv :: o' =>
                Forall_cons (P := fun kv => P (snd kv)) kv
                  (json_induction (snd kv)) (all o')
            end) o)
  end.

End json_induction.

(** *** Property creation ([CreateDataProperty] on an ordinary object) *)

Definition isDigit (c : char16) : bool := ((48 <=? c) && (c <=? 57))%N.

Definition digits_val (ds : list N) : N :=
  fold_left (fun a d => (10 * a + d)%N) ds 0%N.

(** An array index is the canonical decimal numeral of an integer below
    2^32 - 1; such keys are enumerated first, in ascending order. *)
Definition array_index (k : jsstring) : option N :=
  match k with
  | [] => None
  | d :: t =>
      if forallb isDigit k
         && (negb (d =? 48)%N || match t with [] => true | _ => false end)
      then
        let v := digits_val (map (fun c => (c - 48)%N) k) in
        if (v <=? 4294967294)%N then Some v else None
      else None
  end.

Fixpoint has_key (k : jsstring) (o : list (jsstring * json)) : bool :=
  match o with
  | [] => false
  | (k', _) :: o' => eqs k k' || has_key k o'
  end.

Fixpoint update (k : jsstring) (v : json) (o : list (jsstring * json)) :=
  match o with
  | [] => []
  | (k', v') :: o' =>
      if eqs k k' then (k', v) :: o' else (k', v') :: update k v o'
  end.

Fixpoint insert_index (i : N) (k : jsstring) (v : json)
    (o : list (jsstring * json)) :=
  match o with
  | [] => [(k, v)]
  | (k', v') :: o' =>
      match array_index k' with
      | Some j =>
          if (j <? i)%N then (k', v') :: insert_index i k v o'
          else (k, v) :: o
      | None => (k, v) :: o
      end
  end.

(** A key already present keeps its place and takes the new value; a new
    key goes after the others, or to its place among the array indices. *)
Definition define (k : jsstring) (v : json) (o : list (jsstring * json)) :=
  if has_key k o then update k v o
  else
    match array_index k with
    | Some i => insert_index i k v o
    | None => o ++ [(k, v)]
    end.

(** *** Lexical grammar *)

Definition isJSONSpace (c : char16) : bool :=
  ((c =? 9) || (c =? 10) || (c =? 13) || (c =? 32))%N.

Fixpoint skip_ws (s : jsstring) : jsstring :=
  match s with
  | c :: s' => if isJSONSpace c then skip_ws s' else s
  | [] => []
  end.

Definition hexval (c : char16) : option N :=
  if ((48 <=? c) && (c <=? 57))%N then Some (c - 48)%N
  else if ((65 <=? c) && (c <=? 70))%N then Some (c - 55)%N
  else if ((97 <=? c) && (c <=? 102))%N then Some (c - 87)%N
  else None.

(** The code unit a single-character escape stands for. *)
Definition unescape (e : char16) : option char16 :=
  if (e =? 34)%N then Some 34%N          (* quotation mark *)
  else if (e =? 92)%N then Some 92%N     (* reverse solidus *)
  else if (e =? 47)%N then Some 47%N     (* solidus *)
  else if (e =? 98)%N then Some 8%N      (* b: backspace *)
  else if (e =? 102)%N then Some 12%N    (* f: form feed *)
  else if (e =? 110)%N then Some 10%N    (* n: line feed *)
  else if (e =? 114)%N then Some 13%N    (* r: carriage return *)
  else if (e =? 116)%N then Some 9%N     (* t: tab *)
  else None.

Definition cons_fst (c : char16) (r : option (jsstring * jsstring)) :=
  match r with
  | Some (t, s) => Some (c :: t, s)
  | None => None
  end.

(** The characters of a string literal whose opening quote has been read,
    and the input after its closing quote. *)
Fixpoint lex_string (s : jsstring) : option (jsstring * jsstring) :=
  match s with
  | [] => None
  | c :: s' =>
      if (c =? 34)%N then Some ([], s')
      else if (c =? 92)%N then
        match s' with
        | [] => None
        | e :: s2 =>
            if (e =? 117)%N then
              match s2 with
              | h1 :: h2 :: h3 :: h4 :: s3 =>
                  match hexval h1, hexval h2, hexval h3, hexval h4 with
                  | Some a, Some b, Some c', Some d =>
                      cons_fst (4096 * a + 256 * b + 16 * c' + d)%N
                        (lex_string s3)
                  | _, _, _, _ => None
                  end
              | _ => None
              end
            else
              match unescape e with
              | Some ch => cons_fst ch (lex_string s2)
              | None => None
              end
        end
      else if (c <? 32)%N then None
      else cons_fst c (lex_string s')
  end.

(** The leading decimal digits of the input, as digit values. *)
Fixpoint span_digits (s : jsstring) : list N * jsstring :=
  match s with
  | c :: s' =>
      if isDigit c then
        let (ds, r) := span_digits s' in ((c - 48)%N :: ds, r)
      else ([], s)
  | [] => ([], [])
  end.

Fixpoint drop_zeros (ds : list N) : list N :=
  match ds with
  | d :: ds' => if (d =? 0)%N then drop_zeros ds' else ds
  | [] => []
  end.

(** The number with significand digits [ds] and decimal exponent [e]. *)
Definition mk_number (sign : bool) (ds : list N) (e : Z) : number :=
  let sig := rev (drop_zeros (rev ds)) in
  let mnt := digits_val sig in
  if (mnt =? 0)%N then Num sign 0 0
  else Num sign mnt (e + Z.of_nat (List.length ds - List.length sig)).

(** JSONNumber: an optional minus sign; 0, or a non-zero digit and more
    digits; optionally a point and one digit or more; optionally e or E,
    an optional sign and one digit or more. *)
Definition lex_sign (s : jsstring) : bool * jsstring :=
  match s with
  | c :: t => if (c =? 45)%N then (true, t) else (false, s)
  | [] => (false, s)
  end.

Definition lex_int (s : jsstring) : option (list N * jsstring) :=
  match s with
  | d :: t =>
      if (d =? 48)%N then Some ([0%N], t)
      else if isDigit d then
        let (ds, r) := span_digits t in Some ((d - 48)%N :: ds, r)
      else None
  | [] => None
  end.

Definition lex_frac (s : jsstring) : option (list N * jsstring) :=
  match s with
  | c :: t =>
      if (c =? 46)%N then
        match span_digits t with
        | ([], _) => None
        | (fs, r) => Some (fs, r)
        end
      else Some ([], s)
  | [] => Some ([], s)
  end.

Definition lex_exp (s : jsstring) : option (Z * jsstring) :=
  match s with
  | c :: t =>
      if ((c =? 101) || (c =? 69))%N then
        let (esign, u) :=
          match t with
          | x :: u' =>
              if (x =? 43)%N then (false, u')
              else if (x =? 45)%N then (true, u')
              else (false, t)
          | [] => (false, t)
          end in
        match span_digits u with
        | ([], _) => None
        | (es, r) =>
            let e := Z.of_N (digits_val es) in
            Some (if esign then (- e)%Z else e, r)
        end
      else Some (0%Z, s)
  | [] => Some (0%Z, s)
  end.

Definition lex_unsigned (sign : bool) (s1 : jsstring)
    : option (number * jsstring) :=
  match lex_int s1 with
  | None => None
  | Some (ids, s2) =>
      match lex_frac s2 with
      | None => None
      | Some (fds, s3) =>
          match lex_exp s3 with
          | None => None
          | Some (e, s4) =>
              Some (mk_number sign (ids ++ fds)
                      (e - Z.of_nat (List.length fds)), s4)
          end
      end
  end.

Definition lex_number (s : jsstring) : option (number * jsstring) :=
  let (sign, s1) := lex_sign s in lex_unsigned sign s1.

(** *** Syntactic grammar *)

Inductive presult :=
| Parsed (v : json) (r : jsstring)
| SyntaxErr
| OutOfFuel.

(** [parse_value] reads a JSON value that starts at the head of the input;
    [parse_elements] and [parse_members] read what follows the [[] or [{]
    of a non-empty array or object, or a comma inside it. *)
Fixpoint parse_value (fuel : nat) (s : jsstring) : presult :=
  match fuel with
  | O => OutOfFuel
  | S f =>
      match s with
      | [] => SyntaxErr
      | c :: s' =>
          if (c =? 123)%N then
            match skip_ws s' with
            | c' :: r =>
                if (c' =? 125)%N then Parsed (JObject []) r
                else parse_members f [] s'
            | [] => parse_members f [] s'
            end
          else if (c =? 91)%N then
            match skip_ws s' with
            | c' :: r =>
                if (c' =? 93)%N then Parsed (JArray []) r
                else parse_elements f [] s'
            | [] => parse_elements f [] s'
            end
          else if (c =? 34)%N then
            match lex_string s' with
            | Some (t, r) => Parsed (JString t) r
            | None => SyntaxErr
            end
          else if starts_with (str "true") s then
            Parsed (JBool true) (skipn 4 s)
          else if starts_with (str "false") s then
            Parsed (JBool false) (skipn 5 s)
          else if starts_with (str "null") s then
            Parsed JNull (skipn 4 s)
          else
            match lex_number s with
            | Some (n, r) => Parsed (JNumber n) r
            | None => SyntaxErr
            end
      end
  end
with parse_elements (fuel : nat) (acc : list json) (s : jsstring) : presult :=
  match fuel with
  | O => OutOfFuel
  | S f =>
      match parse_value f (skip_ws s) with
      | Parsed v r =>
          match skip_ws r with
          | c :: r' =>
              if (c =? 44)%N then parse_elements f (acc ++ [v]) r'
              else if (c =? 93)%N then Parsed (JArray (acc ++ [v])) r'
              else SyntaxErr
          | [] => SyntaxErr
          end
      | SyntaxErr => SyntaxErr
      | OutOfFuel => OutOfFuel
      end
  end
with parse_members (fuel : nat) (acc : list (jsstring * json)) (s : jsstring)
    : presult :=
  match fuel with
  | O => OutOfFuel
  | S f =>
      match skip_ws s with
      | c :: s1 =>
          if (c =? 34)%N then
            match lex_string s1 with
            | Some (key, s2) =>
                match skip_ws s2 with
                | c2 :: s3 =>
                    if (c2 =? 58)%N then
                      match parse_value f (skip_ws s3) with
                      | Parsed v r =>
                          match skip_ws r with
                          | c3 :: r' =>
                              if (c3 =? 44)%N then
                                parse_members f (define key v acc) r'
                              else if (c3 =? 125)%N then
                                Parsed (JObject (define key v acc)) r'
                              else SyntaxErr
                          | [] => SyntaxErr
                          end
                      | SyntaxErr => SyntaxErr
                      | OutOfFuel => OutOfFuel
                      end
                    else SyntaxErr
                | [] => SyntaxErr
                end
            | None => SyntaxErr
            end
          else SyntaxErr
      | [] => SyntaxErr
      end
  end.

(** The fuel that is enough for an input: no call is left without it
    ([parse_value_fuel] below). *)
Definition fuel_for (s : jsstring) : nat := 2 * List.length s + 1.

(** The message of the SyntaxError is the engine's own wording; the
    embedding fixes one. *)
Definition syntax_error : js_error :=
  MkError SyntaxError (str "Unexpected token in JSON").

(** [JSON.parse(text)]: a JSON value between optional white space, and
    nothing else. The parser does not run out of fuel
    ([parse_value_fuel]), so the last case does not arise. *)
Definition JSON_parse (text : jsstring) : completion json :=
  match parse_value (fuel_for text) (skip_ws text) with
  | Parsed v r =>
      match skip_ws r with
      | [] => Normal v
      | _ :: _ => Throw syntax_error
      end
  | SyntaxErr => Throw syntax_error
  | OutOfFuel => Throw syntax_error
  end.

(** *** [JSON.stringify] *)

Definition hexdigit (n : N) : char16 :=
  if (n <? 10)%N then (48 + n)%N else (87 + n)%N.

(** [UnicodeEscape]: a reverse solidus, u and four lower-case hex digits. *)
Definition UnicodeEscape (c : char16) : jsstring :=
  [92%N; 117%N; hexdigit (c / 4096); hexdigit ((c / 256) mod 16);
   hexdigit ((c / 16) mod 16); hexdigit (c mod 16)].

Definition isLeadingSurrogate (c : char16) : bool :=
  ((55296 <=? c) && (c <=? 56319))%N.

Definition isTrailingSurrogate (c : char16) : bool :=
  ((56320 <=? c) && (c <=? 57343))%N.

(** The body of [QuoteJSONString]: the two-character escapes, a Unicode
    escape for the other control characters and for a surrogate that has
    no partner, and every other code point as it is. *)
Fixpoint quote_chars (s : jsstring) : jsstring :=
  match s with
  | [] => []
  | c :: s' =>
      if (c =? 8)%N then 92%N :: 98%N :: quote_chars s'
      else if (c =? 9)%N then 92%N :: 116%N :: quote_chars s'
      else if (c =? 10)%N then 92%N :: 110%N :: quote_chars s'
      else if (c =? 12)%N then 92%N :: 102%N :: quote_chars s'
      else if (c =? 13)%N then 92%N :: 114%N :: quote_chars s'
      else if (c =? 34)%N then 92%N :: 34%N :: quote_chars s'
      else if (c =? 92)%N then 92%N :: 92%N :: quote_chars s'
      else if (c <? 32)%N then UnicodeEscape c ++ quote_chars s'
      else if isLeadingSurrogate c then
        match s' with
        | d :: s2 =>
            if isTrailingSurrogate d then c :: d :: quote_chars s2
            else UnicodeEscape c ++ quote_chars s'
        | [] => UnicodeEscape c
        end
      else if isTrailingSurrogate c then UnicodeEscape c ++ quote_chars s'
      else c :: quote_chars s'
  end.

Definition QuoteJSONString (s : jsstring) : jsstring :=
  34%N :: quote_chars s ++ [34%N].

Definition zeros (n : nat) : jsstring := repeat 48%N n.

(** [Number::toString] in radix 10 on the decimal [s * 10^(n-k)], where
    [s] has the [k] digits [ds]: plain notation for [-6 < n <= 21],
    exponential notation outside. *)
Definition Number_toString (x : number) : jsstring :=
  if (mant x =? 0)%N then str "0"
  else
    let ds := map digit_char (to_digits (mant x)) in
    let k := Z.of_nat (List.length ds) in
    let n := (k + exp10 x)%Z in
    (if neg x then [45%N] else []) ++
    (if ((k <=? n) && (n <=? 21))%Z then ds ++ zeros (Z.to_nat (n - k))
     else if ((0 <? n) && (n <=? 21))%Z then
       firstn (Z.to_nat n) ds ++ [46%N] ++ skipn (Z.to_nat n) ds
     else if ((-6 <? n) && (n <=? 0))%Z then
       [48%N; 46%N] ++ zeros (Z.to_nat (- n)) ++ ds
     else
       let e := (n - 1)%Z in
       let es := (if (e <? 0)%Z then [45%N] else [43%N])
                 ++ decimal (Z.to_N (Z.abs e)) in
       match ds with
       | [d] => [d; 101%N] ++ es
       | d :: ds' => [d; 46%N] ++ ds' ++ [101%N] ++ es
       | [] => []
       end).

(** [JSON.stringify(v)] without replacer and without indentation. *)
Fixpoint JSON_stringify (v : json) : jsstring :=
  match v with
  | JNull => str "null"
  | JBool true => str "true"
  | JBool false => str "false"
  | JNumber x => Number_toString x
  | JString s => QuoteJSONString s
  | JArray l =>
      91%N ::
      (fix elements (l : list json) : jsstring :=
         match l with
         | [] => []
         | x :: l' =>
             JSON_stringify x ++
             match l' with
             | [] => []
             | _ :: _ => 44%N :: elements l'
             end
         end) l ++ [93%N]
  | JObject o =>
      123%N ::
      (fix members (o : list (jsstring * json)) : jsstring :=
         match o with
         | [] => []
         | (k, x) :: o' =>
             QuoteJSONString k ++ 58%N :: JSON_stringify x ++
             match o' with
             | [] => []
             | _ :: _ => 44%N :: members o'
             end
         end) o ++ [125%N]
  end.

(** *** Reading properties *)

(** How deep the arrays and objects of a value are nested: what the
    recursion of [JSON.stringify] has to go through. *)
Fixpoint depth (v : json) : nat :=
  match v with
  | JArray l => S (fold_right (fun x d => Nat.max (depth x) d) 0%nat l)
  | JObject o =>
      S (fold_right (fun kv d => Nat.max (depth (snd kv)) d) 0%nat o)
  | _ => 0%nat
  end.

(** [JSON.stringify] recurses on the value, and a value nested deeper than
    the call stack has room for makes it throw a RangeError; the message
    is the engine's wording. *)
Definition stack_error : js_error :=
  MkError RangeError (str "Maximum call stack size exceeded").

Fixpoint lookup (k : jsstring) (o : list (jsstring * json)) : option json :=
  match o with
  | [] => None
  | (k', v) :: o' => if eqs k k' then Some v else lookup k o'
  end.

(** [v[k]] for a value that is neither null nor undefined; [None] is
    undefined. Own properties of objects and the indexed elements of arrays
    and strings are found; what the prototypes carry ([length], methods)
    is not among the keys the code reads. *)
Definition get_prop (v : json) (k : jsstring) : option json :=
  match v with
  | JObject o => lookup k o
  | JArray l =>
      match array_index k with
      | Some i => nth_error l (N.to_nat i)
      | None => None
      end
  | JString s =>
      match array_index k with
      | Some i =>
          match nth_error s (N.to_nat i) with
          | Some c => Some (JString [c])
          | None => None
          end
      | None => None
      end
  | _ => None
  end.

Definition nullish (v : option json) : bool :=
  match v with
  | None | Some JNull => true
  | _ => false
  end.

(** The message of the TypeError is the engine's own wording. *)
Definition property_error (k : jsstring) : js_error :=
  MkError TypeError (str "Cannot read properties of null (reading '"
                       ++ k ++ str "')").

(** [v.k]: reading a property of null or undefined throws. *)
Definition get (v : option json) (k : jsstring) : completion (option json) :=
  match v with
  | None | Some JNull => Throw (property_error k)
  | Some x => Normal (get_prop x k)
  end.

(** [v?.k]: undefined when [v] is null or undefined. *)
Definition opt_get (v : option json) (k : jsstring) : option json :=
  match v with
  | None | Some JNull => None
  | Some x => get_prop x k
  end.

(** The Number value of a decimal is the double nearest to it. It is zero
    when the decimal is zero, and when it is so small that it rounds to
    zero: when its magnitude is at most 2^-1075, half of the smallest
    positive double (at exactly the half the tie goes to the even
    neighbour, which is zero). *)
Definition rounds_to_zero (x : number) : bool :=
  (mant x =? 0)%N
  || ((exp10 x <? 0)%Z
      && (mant x * 2 ^ 1075 <=? 10 ^ Z.to_N (- exp10 x))%N).

(** [ToBoolean]: undefined, null, false, the zeros and the empty string
    are falsy. (NaN, falsy as well, is not among the values of JSON.) *)
Definition truthy (v : option json) : bool :=
  match v with
  | None | Some JNull | Some (JBool false) => false
  | Some (JNumber x) => negb (rounds_to_zero x)
  | Some (JString s) => match s with [] => false | _ => true end
  | Some _ => true
  end.


End JSON.
Import JSON.

(** ** The evaluator ([server/evaluator.js]) *)

Module Evaluator.

(** *** The world outside

    [process.env], and the provider behind [fetch]. *)

Record environment := Env {
  HUGGINGFACE_API_KEY : option jsstring;
  HUGGINGFACE_MODEL : option jsstring;
  HUGGINGFACE_API_BASE : option jsstring
}.

(** A response whose head has arrived: the status line, and what reading
    the body to its end gives, the text or the stream's error. *)
Record response := Response { status : N; body : completion jsstring }.

Definition ok (r : response) : bool :=
  ((200 <=? status r) && (status r <=? 299))%N.

(** The arguments of one [fetch] call. *)
Record request := Request {
  url : jsstring;
  method : jsstring;
  authorization : jsstring;
  content_type : jsstring;
  payload : jsstring
}.

(** The provider answers a request, knowing the requests it has seen, with
    a response or with a network failure; the world records what was sent,
    and what was written to the console. The engine that runs the program
    belongs to the world as well: [stack_room] is the nesting, beyond
    [shallow], that its call stack has room for when a value is
    serialized. *)
Record world := World {
  provider : list request -> request -> completion response;
  sent : list request;
  console : list jsstring;
  stack_room : nat
}.

(** Every engine serializes the few levels of the values the program
    builds itself: the request body, the replies of the route, an
    evaluation result. *)
Definition shallow : nat := 8.

Definition max_depth (w : world) : nat := (shallow + stack_room w)%nat.

(** Computations that may throw and that act on the world. *)
Definition M (A : Type) := world -> completion A * world.

Definition ret {A} (a : A) : M A := fun w => (Normal a, w).

Definition throw {A} (e : js_error) : M A := fun w => (Throw e, w).

Definition bind {A B} (c : M A) (f : A -> M B) : M B :=
  fun w =>
    match c w with
    | (Normal a, w') => f a w'
    | (Throw e, w') => (Throw e, w')
    end.

Definition lift {A} (c : completion A) : M A := fun w => (c, w).

(** [try { c } catch (error) { h error }]. *)
Definition try_catch {A} (c : M A) (h : js_error -> M A) : M A :=
  fun w =>
    match c w with
    | (Normal a, w') => (Normal a, w')
    | (Throw e, w') => h e w'
    end.

Notation "x <- c ;; k" := (bind c (fun x => k))
  (at level 61, c at next level, right associativity).
Notation "c ;;; k" := (bind c (fun _ => k))
  (at level 61, right associativity).

(** [await fetch(...)]. *)
Definition fetch (rq : request) : M response :=
  fun w =>
    (provider w (sent w) rq,
     World (provider w) (sent w ++ [rq]) (console w) (stack_room w)).

(** [console.log] and [console.error]: one line written. *)
Definition console_log (line : jsstring) : M unit :=
  fun w =>
    (Normal tt,
     World (provider w) (sent w) (console w ++ [line]) (stack_room w)).

(** [await response.text()]. *)
Definition text (r : response) : M jsstring := lift (body r).

(** [await response.json()]. *)
Definition json_of (r : response) : M json :=
  t <- lift (body r) ;; lift (JSON_parse t).

(** [a || b] on the variables of [process.env]: unset and empty both give
    way to the default. *)
Definition or_default (a : option jsstring) (b : jsstring) : jsstring :=
  match a with
  | Some (c :: s) => c :: s
  | _ => b
  end.

(** *** [getHuggingFaceToken] *)

Definition getHuggingFaceToken (env : environment) : M jsstring :=
  match HUGGINGFACE_API_KEY env with
  | Some (c :: s) => ret (c :: s)
  | _ =>
      console_log
        (str "ERROR: HUGGINGFACE_API_KEY is not set in environment variables") ;;;
      throw (MkError Error (str
        "Hugging Face API key is required. Please set HUGGINGFACE_API_KEY in your .env file."))
  end.

(** *** The prompt *)

Definition quotes (s : jsstring) : jsstring :=
  map (fun c => if (c =? 126)%N then 34%N else c) s.

(** The template literal [EVALUATION_PROMPT]; in the text below a tilde,
    which the template does not use, stands for each of its quotation
    marks. *)
Definition EVALUATION_PROMPT : jsstring := quotes (str
"You are an innovation evaluation expert at BMW. Analyze the following innovation concept CRITICALLY and provide a comprehensive evaluation with ACCURATE SCORES based on the actual quality of the concept.

IMPORTANT SCORING GUIDELINES:
- Scores must reflect the ACTUAL quality of THIS specific concept, not template values
- Poor concepts (unrealistic, vague, no market need) should score 1-4
- Mediocre concepts should score 5-6
- Good concepts should score 7-8
- Excellent concepts should score 9-10
- DO NOT use example scores - calculate real scores for THIS concept
- Be CRITICAL - most ideas have significant flaws

INNOVATION CONCEPT:
{ideaDescription}

Evaluate this concept across the following dimensions:

1. **Competitors & Similar Projects**: Identify existing competitors, similar solutions, or comparable products. How does this differ?

2. **BMW Strategy Alignment**: Evaluate alignment with BMW's strategy, brand positioning, and corporate values (premium quality, innovation, sustainability, mobility solutions).

3. **Desirability** (Score 1-10):
   - Market need and customer demand
   - Target customer segments and their actual needs
   - Market trends and timing
   - User experience and value proposition clarity
   - CRITICALLY assess: Is there real demand? Is the value clear?
   - Low scores (1-4) for: Unclear value, no market need, vague target customers
   - High scores (8-10) for: Clear need, strong demand, well-defined customers

4. **Feasibility** (Score 1-10):
   - Technical complexity and whether the technology exists/is proven
   - Resource requirements (R&D, manufacturing, expertise)
   - Regulatory and compliance challenges
   - Realistic time to market
   - CRITICALLY assess: Is this technically possible? Are resources realistic?
   - Low scores (1-4) for: Impossible tech, unrealistic resources, no clear path
   - High scores (8-10) for: Proven tech, clear resources, feasible timeline

5. **Viability** (Score 1-10):
   - Market size and realistic revenue potential
   - Cost structure and profitability potential
   - Competitive positioning and differentiation
   - Business model sustainability
   - CRITICALLY assess: Can this make money? Is the business model sound?
   - Low scores (1-4) for: No clear revenue, poor business model, unrealistic costs
   - High scores (8-10) for: Clear revenue path, sound model, realistic costs

6. **Overall Evaluation**:
   - Calculate overallScore as the average of desirability, feasibility, and viability scores
   - Identify specific strengths (be honest - weak concepts may have few)
   - Identify critical weaknesses and risks (be thorough)
   - Recommendation: ~Strong~ (8-10 avg), ~Moderate~ (5-7 avg), or ~Weak~ (1-4 avg)

7. **Improvement Recommendations**: Provide specific, actionable recommendations.

CRITICAL INSTRUCTIONS:
- Analyze THIS specific concept, not a generic template
- Use DIFFERENT scores than 7, 8, or 7.3 unless that's truly appropriate
- Bad ideas MUST get low scores (1-4)
- Good ideas get higher scores (7-10)
- Overall score MUST match the average of the three dimension scores
- Be HONEST and CRITICAL in your assessment

Return ONLY valid JSON in this exact structure (use ACTUAL scores for THIS concept):
{
  ~competitors~: {
    ~existingSolutions~: ~Your analysis of competitors and similar projects~,
    ~differentiation~: ~How this concept differs~
  },
  ~bmwAlignment~: {
    ~strategyFit~: ~Your assessment of BMW strategy alignment~,
    ~brandFit~: ~Your assessment of brand fit~,
    ~corporateValues~: ~Your assessment of values alignment~
  },
  ~desirability~: {
    ~score~: <YOUR_ACTUAL_SCORE_1_TO_10>,
    ~justification~: ~Detailed justification based on THIS concept~,
    ~marketNeed~: ~Your assessment of market need~,
    ~customerAppeal~: ~Your assessment of customer appeal~
  },
  ~feasibility~: {
    ~score~: <YOUR_ACTUAL_SCORE_1_TO_10>,
    ~justification~: ~Detailed justification based on THIS concept~,
    ~technicalComplexity~: ~Your assessment~,
    ~resourceRequirements~: ~Your assessment~,
    ~regulatoryChallenges~: ~Your assessment~
  },
  ~viability~: {
    ~score~: <YOUR_ACTUAL_SCORE_1_TO_10>,
    ~justification~: ~Detailed justification based on THIS concept~,
    ~marketPotential~: ~Your assessment~,
    ~costStructure~: ~Your assessment~,
    ~competitivePositioning~: ~Your assessment~
  },
  ~overallEvaluation~: {
    ~overallScore~: <CALCULATED_AVERAGE_OF_THREE_SCORES>,
    ~strengths~: [~Actual strengths of THIS concept~],
    ~weaknesses~: [~Actual weaknesses of THIS concept~],
    ~risks~: [~Actual risks of THIS concept~],
    ~recommendation~: ~Strong~ or ~Moderate~ or ~Weak~
  },
  ~improvements~: [
    ~Specific recommendation 1~,
    ~Specific recommendation 2~,
    ~Specific recommendation 3~
  ]
}").

Definition placeholder : jsstring := str "{ideaDescription}".

Definition system_content : jsstring := str
"You are a critical innovation evaluation expert at BMW. You MUST provide honest, accurate scores based on the actual quality of each concept. Do NOT use template or example scores. Poor concepts must receive low scores (1-4), good concepts get higher scores (7-10). Always calculate the overall score as the average of desirability, feasibility, and viability scores. Be thorough and critical in your assessment. Return ONLY valid JSON.".

Definition default_model : jsstring := str "meta-llama/Llama-3.1-8B-Instruct".

Definition default_base : jsstring := str "https://router.huggingface.co".

Definition message_of (role content : jsstring) : json :=
  JObject [(str "role", JString role); (str "content", JString content)].

(** The prompt builder: the two chat messages for a description. *)
Definition user_content (ideaDescription : jsstring) : jsstring :=
  replace EVALUATION_PROMPT placeholder ideaDescription.

Definition messages (ideaDescription : jsstring) : json :=
  JArray [message_of (str "system") system_content;
          message_of (str "user") (user_content ideaDescription)].

Definition chat_request (hfToken model baseUrl : jsstring) (msgs : json)
    : request :=
  Request (baseUrl ++ str "/v1/chat/completions") (str "POST")
    (str "Bearer " ++ hfToken) (str "application/json")
    (JSON_stringify (JObject
       [(str "model", JString model);
        (str "messages", msgs);
        (str "temperature", JNumber (Num false 8 (-1)));
        (str "max_tokens", JNumber (Num false 25 2));
        (str "stream", JBool false)])).

(** *** The response extractor *)

(** The pattern that finds a fenced block: three backticks, optionally
    [json], white space, group 1 from a left brace over anything to a right
    brace, white space, three backticks. *)
Definition fence : jsstring := [96%N; 96%N; 96%N].

Definition object_re : regex :=
  Seq (Chr 123%N) (Seq (Star (Cls any)) (Chr 125%N)).

Definition closing_re : regex := Seq (Star (Cls isSpace)) (lit fence).

Definition block_re : regex := Seq (Group object_re) closing_re.

Definition fenced_re : regex :=
  Seq (lit fence)
    (Seq (Opt (lit (str "json")))
       (Seq (Star (Cls isSpace)) block_re)).

(** The text handed to [JSON.parse] for a completion text [content]. A
    group that took no part in a match would read as undefined, which
    [JSON.parse] turns into the string of that name. *)
Definition jsonContent (content : jsstring) : jsstring :=
  match exec fenced_re content with
  | Some (_, Some captured) => captured
  | Some (_, None) => str "undefined"
  | None =>
      match exec object_re content with
      | Some (objMatch, _) => objMatch
      | None => content
      end
  end.

(** The extractor: the JSON object found in a completion text, parsed. *)
Definition extract (content : jsstring) : completion json :=
  JSON_parse (jsonContent content).

(** [data.choices?.[0]?.message?.content || '']. *)
Definition content_of (data : json) : completion json :=
  match get (Some data) (str "choices") with
  | Throw e => Throw e
  | Normal choices =>
      let c :=
        opt_get (opt_get (opt_get choices (str "0")) (str "message"))
          (str "content") in
      match c with
      | Some v => if truthy c then Normal v else Normal (JString [])
      | None => Normal (JString [])
      end
  end.

(** Calling [match] on what is not a string throws; the wording of the
    message is the engine's. *)
Definition match_error : js_error :=
  MkError TypeError (str "content.match is not a function").

(** *** [evaluateInnovation] *)

(** The error object of the catch clause. *)
Definition failure (error : js_error) : json :=
  JObject [(str "error", JString (str "Failed to generate evaluation"));
           (str "message", JString (message error));
           (str "fallback", JBool true)].

Definition router_error (r : response) (errorText : jsstring) : js_error :=
  MkError Error
    (str "Hugging Face Router error " ++ decimal (status r) ++ str ": "
       ++ errorText).

(** The body of the try block. *)
Definition evaluate_body (env : environment) (ideaDescription : jsstring)
    : M json :=
  hfToken <- getHuggingFaceToken env ;;
  let model := or_default (HUGGINGFACE_MODEL env) default_model in
  let baseUrl := or_default (HUGGINGFACE_API_BASE env) default_base in
  console_log (str "Evaluating with Hugging Face model: " ++ model) ;;;
  response <- fetch (chat_request hfToken model baseUrl
                       (messages ideaDescription)) ;;
  if negb (ok response) then
    errorText <- text response ;;
    throw (router_error response errorText)
  else
    data <- json_of response ;;
    content <- lift (content_of data) ;;
    match content with
    | JString s =>
        let extracted := jsonContent s in
        console_log (str "Successfully evaluated with model: " ++ model) ;;;
        lift (JSON_parse extracted)
    | _ => throw match_error
    end.

Definition evaluateInnovation (env : environment) (ideaDescription : jsstring)
    : M json :=
  try_catch (evaluate_body env ideaDescription)
    (fun error =>
       console_log (str "Hugging Face API error: " ++ message error) ;;;
       ret (failure error)).

End Evaluator.
Import Evaluator.

(** ** The route [POST /api/evaluate] ([server/index.js]) *)

Module Server.

(** What the handler sends: a status and a JSON body. *)
Record reply := Reply { status_code : N; reply_body : json }.

Definition trim_error : js_error :=
  MkError TypeError (str "ideaDescription.trim is not a function").

(** [const { ideaDescription } = req.body] and the validation that
    follows: [None] when the description is missing or blank, the
    description when it is a string with something in it; trimming what is
    not a string throws. *)
Definition validate (reqBody : json) : completion (option jsstring) :=
  match get (Some reqBody) (str "ideaDescription") with
  | Throw e => Throw e
  | Normal ideaDescription =>
      if negb (truthy ideaDescription) then Normal None
      else
        match ideaDescription with
        | Some (JString s) =>
            match trim s with
            | [] => Normal None
            | _ :: _ => Normal (Some s)
            end
        | _ => Throw trim_error
        end
  end.

(** [res.status(code).json(body)]: the body is serialized with
    [JSON.stringify] on the spot, which throws when the value is nested
    deeper than the stack has room for; otherwise the reply is sent. *)
Definition res_json (code : N) (body : json) : M reply :=
  fun w =>
    if (depth body <=? max_depth w)%nat then (Normal (Reply code body), w)
    else (Throw stack_error, w).

Definition handle_evaluate (env : environment) (reqBody : json) : M reply :=
  try_catch
    (checked <- lift (validate reqBody) ;;
     match checked with
     | None =>
         res_json 400 (JObject
           [(str "error", JString (str "Idea description is required"))])
     | Some ideaDescription =>
         evaluation <- evaluateInnovation env ideaDescription ;;
         res_json 200 evaluation
     end)
    (fun error =>
       console_log (str "Evaluation error: " ++ message error) ;;;
       res_json 500 (JObject
         [(str "error", JString (str "Failed to evaluate innovation concept"));
          (str "details", JString (message error))])).

End Server.
Import Server.

(** ** The specification's vocabulary *)

Module Spec.

(** The input from the first occurrence of [ch] on. *)
Definition from_first (ch : char16) (s : jsstring) : jsstring :=
  trimStart_by (fun c => negb (N.eqb c ch)) s.

(** The input up to its last occurrence of [ch]. *)
Definition upto_last (ch : char16) (s : jsstring) : jsstring :=
  rev (from_first ch (rev s)).

(** The span from the first left brace to the last right brace. *)
Definition first_to_last_brace (content : jsstring) : jsstring :=
  upto_last 125%N (from_first 123%N content).

(** The extraction order in the specification's words: the capture of the
    fenced-block pattern; otherwise, for a text that contains a left brace,
    the span from the first left brace to the last right brace; otherwise
    the text. *)
Definition stated_jsonContent (content : jsstring) : jsstring :=
  match exec fenced_re content with
  | Some (_, Some captured) => captured
  | Some (_, None) => str "undefined"
  | None =>
      if existsb (N.eqb 123%N) content then first_to_last_brace content
      else content
  end.


(** The EvaluationFailure shape: [error] and [message] strings and
    [fallback: true]. *)
Definition is_failure (v : json) : Prop :=
  exists e msg,
    v = JObject [(str "error", JString e); (str "message", JString msg);
                 (str "fallback", JBool true)].

(** [r] is what is left of [s] after a prefix, after a non-empty one. *)
Definition suffix (r s : jsstring) : Prop := exists c, s = c ++ r.

Definition proper_suffix (r s : jsstring) : Prop :=
  exists c, c <> [] /\ s = c ++ r.

(** A provider that gives the same answer to every request, in a world
    where nothing has been sent yet, on an engine with room for a
    thousand levels. *)
Definition mock_world (answer : completion response) : world :=
  World (fun _ _ => answer) [] [] 1000.

(** The body of a chat completion whose first choice has the message
    content [content]. *)
Definition completion_body (content : jsstring) : jsstring :=
  JSON_stringify
    (JObject [(str "choices",
               JArray [JObject [(str "message",
                                 JObject [(str "role", JString (str "assistant"));
                                          (str "content", JString content)])]])]).

(** What [evaluateInnovation] resolves to. *)
Definition result (c : M json) (w : world) : completion json := fst (c w).

(** The requests that have been sent once [c] has run. *)
Definition requests (c : M json) (w : world) : list request := sent (snd (c w)).

(** The value at the end of [data.choices?.[0]?.message?.content]. *)
Definition completion_content (data : json) : option json :=
  opt_get (opt_get (opt_get (get_prop data (str "choices")) (str "0"))
             (str "message")) (str "content").

(** The request [evaluateInnovation] sends for a description. *)
Definition request_for (env : environment) (token idea : jsstring) : request :=
  chat_request token (or_default (HUGGINGFACE_MODEL env) default_model)
    (or_default (HUGGINGFACE_API_BASE env) default_base) (messages idea).

(** The error of [getHuggingFaceToken]. *)
Definition key_error : js_error :=
  MkError Error (str
    "Hugging Face API key is required. Please set HUGGINGFACE_API_KEY in your .env file.").

(** A request body whose [ideaDescription] is the string [s]. *)
Definition body_with (s : jsstring) : json :=
  JObject [(str "ideaDescription", JString s)].

(** The value a successful response leads to. *)
Definition outcome_of_body (b : completion jsstring) : json :=
  match b with
  | Throw e => failure e
  | Normal t =>
      match JSON_parse t with
      | Throw e => failure e
      | Normal data =>
          match content_of data with
          | Throw e => failure e
          | Normal (JString content) =>
              match extract content with
              | Normal v => v
              | Throw e => failure e
              end
          | Normal _ => failure match_error
          end
      end
  end.

(** *** Evaluation results *)

Record Competitors := {
  existingSolutions : jsstring;
  differentiation : jsstring
}.

Record BmwAlignment := {
  strategyFit : jsstring;
  brandFit : jsstring;
  corporateValues : jsstring
}.

Record Desirability := {
  d_score : number;
  d_justification : jsstring;
  marketNeed : jsstring;
  customerAppeal : jsstring
}.

Record Feasibility := {
  f_score : number;
  f_justification : jsstring;
  technicalComplexity : jsstring;
  resourceRequirements : jsstring;
  regulatoryChallenges : jsstring
}.

Record Viability := {
  v_score : number;
  v_justification : jsstring;
  marketPotential : jsstring;
  costStructure : jsstring;
  competitivePositioning : jsstring
}.

Inductive Recommendation := Strong | Moderate | Weak.

Record OverallEvaluation := {
  overallScore : number;
  strengths : list jsstring;
  weaknesses : list jsstring;
  risks : list jsstring;
  recommendation : Recommendation
}.

Record EvaluationResult := {
  competitors : Competitors;
  bmwAlignment : BmwAlignment;
  desirability : Desirability;
  feasibility : Feasibility;
  viability : Viability;
  overallEvaluation : OverallEvaluation;
  improvements : list jsstring
}.

Definition strings (l : list jsstring) : json := JArray (map JString l).

Definition recommendation_text (r : Recommendation) : jsstring :=
  match r with
  | Strong => str "Strong"
  | Moderate => str "Moderate"
  | Weak => str "Weak"
  end.

(** The object an evaluation result is, field for field. *)
Definition to_json (r : EvaluationResult) : json :=
  JObject
    [(str "competitors", JObject
        [(str "existingSolutions", JString (existingSolutions (competitors r)));
         (str "differentiation", JString (differentiation (competitors r)))]);
     (str "bmwAlignment", JObject
        [(str "strategyFit", JString (strategyFit (bmwAlignment r)));
         (str "brandFit", JString (brandFit (bmwAlignment r)));
         (str "corporateValues", JString (corporateValues (bmwAlignment r)))]);
     (str "desirability", JObject
        [(str "score", JNumber (d_score (desirability r)));
         (str "justification", JString (d_justification (desirability r)));
         (str "marketNeed", JString (marketNeed (desirability r)));
         (str "customerAppeal", JString (customerAppeal (desirability r)))]);
     (str "feasibility", JObject
        [(str "score", JNumber (f_score (feasibility r)));
         (str "justification", JString (f_justification (feasibility r)));
         (str "technicalComplexity", JString (technicalComplexity (feasibility r)));
         (str "resourceRequirements", JString (resourceRequirements (feasibility r)));
         (str "regulatoryChallenges", JString (regulatoryChallenges (feasibility r)))]);
     (str "viability", JObject
        [(str "score", JNumber (v_score (viability r)));
         (str "justification", JString (v_justification (viability r)));
         (str "marketPotential", JString (marketPotential (viability r)));
         (str "costStructure", JString (costStructure (viability r)));
         (str "competitivePositioning", JString (competitivePositioning (viability r)))]);
     (str "overallEvaluation", JObject
        [(str "overallScore", JNumber (overallScore (overallEvaluation r)));
         (str "strengths", strings (strengths (overallEvaluation r)));
         (str "weaknesses", strings (weaknesses (overallEvaluation r)));
         (str "risks", strings (risks (overallEvaluation r)));
         (str "recommendation",
          JString (recommendation_text (recommendation (overallEvaluation r))))]);
     (str "improvements", strings (improvements r))].

(** A Number value in its one normal form: zero, or a mantissa that does
    not end in 0. (Minus zero, which [JSON.stringify] writes as 0, NaN and
    the infinities are no scores.) *)
Definition wf_number (x : number) : bool :=
  if (mant x =? 0)%N then negb (neg x) && (exp10 x =? 0)%Z
  else negb (mant x mod 10 =? 0)%N.

(** A score is a number from 1 to 10. *)
Definition is_score (x : number) : bool :=
  negb (neg x) && negb (mant x =? 0)%N
  && (((Z.of_nat (List.length (to_digits (mant x))) + exp10 x =? 1)%Z)
      || ((mant x =? 1)%N && (exp10 x =? 1)%Z)).

Definition valid_result (r : EvaluationResult) : Prop :=
  wf_number (d_score (desirability r)) = true
  /\ is_score (d_score (desirability r)) = true
  /\ wf_number (f_score (feasibility r)) = true
  /\ is_score (f_score (feasibility r)) = true
  /\ wf_number (v_score (viability r)) = true
  /\ is_score (v_score (viability r)) = true
  /\ wf_number (overallScore (overallEvaluation r)) = true.

Fixpoint distinct (ks : list jsstring) : bool :=
  match ks with
  | [] => true
  | k :: ks' => negb (existsb (eqs k) ks') && distinct ks'
  end.

Definition plain_key (k : jsstring) : bool :=
  match array_index k with
  | None => true
  | Some _ => false
  end.

(** The values [JSON.stringify] writes so that [JSON.parse] reads them
    back: numbers in normal form, and objects whose keys are distinct and
    enumerated in the order they were created in (no array indices). *)
Fixpoint wf_json (v : json) : bool :=
  match v with
  | JNumber x => wf_number x
  | JArray l => forallb wf_json l
  | JObject o =>
      forallb (fun kv => wf_json (snd kv)) o
      && forallb plain_key (map fst o) && distinct (map fst o)
  | _ => true
  end.

(** What may follow a value in a JSON text: nothing, a comma, or a
    closing bracket or brace. *)
Definition delimited (rest : jsstring) : bool :=
  match rest with
  | [] => true
  | c :: _ => ((c =? 44) || (c =? 93) || (c =? 125))%N
  end.

(** What may follow a run of digits. *)
Definition nondigit (rest : jsstring) : Prop :=
  match rest with
  | c :: _ => isDigit c = false
  | [] => True
  end.

(** The text between the brackets of an array, and between the braces of
    an object, as [JSON_stringify] writes it. *)
Fixpoint elements_text (l : list json) : jsstring :=
  match l with
  | [] => []
  | x :: l' =>
      JSON_stringify x ++
      match l' with
      | [] => []
      | _ :: _ => 44%N :: elements_text l'
      end
  end.

Fixpoint members_text (o : list (jsstring * json)) : jsstring :=
  match o with
  | [] => []
  | (k, x) :: o' =>
      QuoteJSONString k ++ 58%N :: JSON_stringify x ++
      match o' with
      | [] => []
      | _ :: _ => 44%N :: members_text o'
      end
  end.

(** [JSON.parse] reads the text [JSON.stringify] wrote for [v] back as [v],
    whatever delimiter follows, once the fuel is [f0] or more. *)
Definition reads_back (v : json) : Prop :=
  wf_json v = true ->
  exists f0, forall f rest,
    (f0 <= f)%nat -> delimited rest = true ->
    parse_value f (JSON_stringify v ++ rest) = Parsed v rest.

(** The first code unit of a value's text: no white space and no closing
    bracket or brace. *)
Definition starts_value (text : jsstring) : Prop :=
  exists c t, text = c :: t /\ isJSONSpace c = false
              /\ c <> 93%N /\ c <> 125%N.

(** The evaluation of end-to-end scenario 1. *)
Definition sample_result : EvaluationResult :=
  {| competitors :=
       {| existingSolutions :=
            quotes (str "Umbrella sharing kiosks exist (e.g. ~Rentbrella~).");
          differentiation := str "Subscription instead of pay-per-use" |};
     bmwAlignment :=
       {| strategyFit := str "Weak link to mobility";
          brandFit := str "Not premium";
          corporateValues := str "Sustainability: fewer discarded umbrellas" |};
     desirability :=
       {| d_score := Num false 7 0;
          d_justification := str "Clear need on rainy days";
          marketNeed := str "Seasonal";
          customerAppeal := str "Commuters / tourists" |};
     feasibility :=
       {| f_score := Num false 8 0;
          f_justification := str "Proven technology";
          technicalComplexity := str "Low";
          resourceRequirements := str "Kiosk network";
          regulatoryChallenges := str "None" |};
     viability :=
       {| v_score := Num false 7 0;
          v_justification := str "Thin margins";
          marketPotential := str "Niche";
          costStructure := str "Loss and theft";
          competitivePositioning := str "First movers exist" |};
     overallEvaluation :=
       {| overallScore := Num false 7333333333333333 (-15);
          strengths := [str "Simple"; str "Cheap"];
          weaknesses := [str "Seasonal"];
          risks := [];
          recommendation := Moderate |};
     improvements :=
       [str "Bundle with car sharing"; str "Pilot in one city"] |}.

(** The text of a result between fences: the fence, the tag, white
    space, the serialized object, white space, the fence. *)
Definition fenced (tag ws1 text ws2 : jsstring) : jsstring :=
  fence ++ tag ++ ws1 ++ text ++ ws2 ++ fence.

End Spec.
Import Spec.

(** ** The client ([client/src/App.jsx], [EvaluationForm], [EvaluationResults]) *)

Module Client.

(** [handleSubmit] of the form: [onSubmit] is called, with the trimmed
    text, when the trimmed text is not empty; [None] when it is not
    called. *)
Definition handleSubmit (ideaDescription : jsstring) : option jsstring :=
  match trim ideaDescription with
  | [] => None
  | c :: t => Some (c :: t)
  end.

(** The state of [App]: [evaluation] (null at first, written [JNull]),
    [loading] and [error] (null or a message). *)
Record app_state := AppState {
  evaluation : json;
  loading : bool;
  error : option jsstring
}.

Definition initial : app_state := AppState JNull false None.

Definition setEvaluation (v : json) (st : app_state) : app_state :=
  AppState v (loading st) (error st).

Definition setLoading (b : bool) (st : app_state) : app_state :=
  AppState (evaluation st) b (error st).

Definition setError (e : option jsstring) (st : app_state) : app_state :=
  AppState (evaluation st) (loading st) e.

(** The body of the request: [JSON.stringify({ ideaDescription })]. *)
Definition request_body (ideaDescription : jsstring) : jsstring :=
  JSON_stringify (JObject [(str "ideaDescription", JString ideaDescription)]).

Definition http_error (r : response) : js_error :=
  MkError Error (str "HTTP error! status: " ++ decimal (status r)).

(** The try block of [handleEvaluate]: the data of a response that is ok,
    or the error thrown. [server] is what [fetch] resolves to for a request
    body: a response, or a rejection when the server cannot be reached. *)
Definition fetch_evaluation (server : jsstring -> completion response)
    (ideaDescription : jsstring) : completion json :=
  match server (request_body ideaDescription) with
  | Throw e => Throw e
  | Normal r =>
      if negb (ok r) then Throw (http_error r)
      else
        match body r with
        | Throw e => Throw e
        | Normal t => JSON_parse t
        end
  end.

(** [err.message || 'Failed to evaluate innovation concept']. *)
Definition error_message (err : js_error) : jsstring :=
  match message err with
  | [] => str "Failed to evaluate innovation concept"
  | c :: t => c :: t
  end.

(** [handleEvaluate]: the state once the promise has settled. *)
Definition handleEvaluate (server : jsstring -> completion response)
    (ideaDescription : jsstring) (st : app_state) : app_state :=
  let st1 := setEvaluation JNull (setError None (setLoading true st)) in
  let st2 :=
    match fetch_evaluation server ideaDescription with
    | Normal data => setEvaluation data st1
    | Throw err => setError (Some (error_message err)) st1
    end in
  setLoading false st2.

Definition handleReset (st : app_state) : app_state :=
  setError None (setEvaluation JNull st).

(** What [App] shows: the form, with [loading] and [error], while there is
    no evaluation; the results otherwise. *)
Inductive screen :=
| Form (loading : bool) (error : option jsstring)
| Results (evaluation : json).

Definition App (st : app_state) : screen :=
  if truthy (Some (evaluation st)) then Results (evaluation st)
  else Form (loading st) (error st).

(** The first branch of [EvaluationResults]: with a truthy [error] the
    component shows the error state, whose paragraph holds
    [evaluation.message || evaluation.error]; [None] when it goes on to the
    score cards. The argument is not null: [App] shows the component for a
    truthy evaluation only. *)
Definition error_state (evaluation : json) : option json :=
  match get_prop evaluation (str "error") with
  | Some err =>
      if truthy (Some err) then
        match get_prop evaluation (str "message") with
        | Some msg => if truthy (Some msg) then Some msg else Some err
        | None => Some err
        end
      else None
  | None => None
  end.

End Client.
Import Client.

(** ** The wire between the client and the route *)

Module Wire.

(** The bytes of a text on the wire: the length of its UTF-8 encoding. A
    surrogate pair is one code point of four bytes; a surrogate on its own
    is sent as U+FFFD, three bytes. *)
Fixpoint utf8_length (s : jsstring) : N :=
  match s with
  | [] => 0
  | c :: t =>
      if (c <? 128)%N then 1 + utf8_length t
      else if (c <? 2048)%N then 2 + utf8_length t
      else if isLeadingSurrogate c then
        match t with
        | d :: t' =>
            if isTrailingSurrogate d then 4 + utf8_length t'
            else 3 + utf8_length t
        | [] => 3
        end
      else 3 + utf8_length t
  end%N.

(** The limit of [express.json()] with its default options: 100kb. *)
Definition json_limit : N := 102400.

(** [app.use(express.json())] on a request whose content type is JSON:
    [req.body] for the route, or the status of the error the middleware
    raises. With the default options a body over the limit is refused with
    413; an empty body reads as the empty object; in strict mode only an
    object or an array is accepted, and what is not JSON is refused
    with 400. *)
Definition express_json (requestBody : jsstring) : N + json :=
  if (utf8_length requestBody <=? json_limit)%N then
    match requestBody with
    | [] => inr (JObject [])
    | _ :: _ =>
        match JSON_parse requestBody with
        | Normal (JObject o) => inr (JObject o)
        | Normal (JArray l) => inr (JArray l)
        | _ => inl 400%N
        end
    end
  else inl 413%N.

(** [res.status(code).json(body)]: the response the client receives. *)
Definition response_of (rep : reply) : response :=
  Response (status_code rep) (Normal (JSON_stringify (reply_body rep))).

(** The server as the client's [fetch] sees it. An error of the middleware
    goes to the default error handler of express, which answers with the
    error's status and a page, [error_page], that depends on the mode the
    server runs in. Otherwise the route answers; that the route throws
    does not happen. *)
Definition server (error_page : N -> jsstring) (env : environment)
    (w : world) (requestBody : jsstring) : completion response :=
  match express_json requestBody with
  | inl st => Normal (Response st (Normal (error_page st)))
  | inr reqBody =>
      match fst (handle_evaluate env reqBody w) with
      | Normal rep => Normal (response_of rep)
      | Throw e => Throw e
      end
  end.

End Wire.
Import Wire.

(** ** More vocabulary *)

Module Spec2.

(** The token [getHuggingFaceToken] returns, when it returns one. *)
Definition api_key (env : environment) : option jsstring :=
  match HUGGINGFACE_API_KEY env with
  | Some (c :: s) => Some (c :: s)
  | _ => None
  end.

(** The object given to [JSON.stringify] for the request body. *)
Definition payload_object (model : jsstring) (msgs : json) : json :=
  JObject
    [(str "model", JString model);
     (str "messages", msgs);
     (str "temperature", JNumber (Num false 8 (-1)));
     (str "max_tokens", JNumber (Num false 25 2));
     (str "stream", JBool false)].

(** A text that starts and ends with something that is no white space,
    or is empty. *)
Definition edge (x : jsstring) : Prop :=
  match x with
  | c :: _ => isSpace c = false
  | [] => True
  end.

Definition is_string (v : json) : bool :=
  match v with
  | JString _ => true
  | _ => false
  end.

(** The body of the 500 reply of the route. *)
Definition reply_500 (e : js_error) : reply :=
  Reply 500 (JObject
    [(str "error", JString (str "Failed to evaluate innovation concept"));
     (str "details", JString (message e))]).

Definition reply_400 : reply :=
  Reply 400 (JObject
    [(str "error", JString (str "Idea description is required"))]).



End Spec2.
Import Spec2.

(** ** Unfolding the monad *)

Ltac run :=
  cbv beta iota zeta delta
    [result requests evaluateInnovation try_catch evaluate_body bind
     getHuggingFaceToken fetch console_log json_of text lift ret throw
     request_for] in *.

Ltac run_handler :=
  cbv beta iota zeta delta
    [handle_evaluate try_catch bind lift ret throw console_log].
Unset Implicit Arguments.

(** * Properties

    ** Strings *)

Lemma eqs_spec a b : eqs a b = true <-> a = b.
Proof.
  revert b; induction a as [|x a IH]; intros [|y b]; simpl; split;
    try congruence; try reflexivity.
  - rewrite andb_true_iff, N.eqb_eq, IH. intros [-> ->]; reflexivity.
  - intros H; injection H as -> ->. rewrite N.eqb_refl.
    apply IH; reflexivity.
Qed.

Lemma eqs_refl a : eqs a a = true.
Proof. apply eqs_spec; reflexivity. Qed.

Lemma starts_with_spec p s :
  starts_with p s = true <-> exists r, s = p ++ r.
Proof.
  revert s; induction p as [|x p IH]; intros s; simpl.
  - split; [intros _; exists s; reflexivity | reflexivity].
  - destruct s as [|y s].
    + split; [discriminate | intros [r H]; discriminate].
    + rewrite andb_true_iff, N.eqb_eq, IH. split.
      * intros [-> [r ->]]. exists r; reflexivity.
      * intros [r H]. injection H as -> ->. split; [reflexivity | eauto].
Qed.

Lemma includes_spec p s :
  includes p s = true <-> exists a b, s = a ++ p ++ b.
Proof.
  induction s as [|y s IH].
  - simpl. rewrite orb_false_r, starts_with_spec. split.
    + intros [r H]. exists [], r. exact H.
    + intros [a [b H]]. destruct a; simpl in H.
      * exists b; exact H.
      * discriminate.
  - cbn [includes]. rewrite orb_true_iff, starts_with_spec, IH. split.
    + intros [[r H] | [a [b H]]].
      * exists [], r. exact H.
      * exists (y :: a), b. simpl. rewrite H. reflexivity.
    + intros [a [b H]]. destruct a as [|x a]; simpl in H.
      * left. exists b. exact H.
      * right. injection H as _ H. exists a, b. exact H.
Qed.

Lemma includes_false p s :
  includes p s = false -> forall a b, s <> a ++ p ++ b.
Proof.
  intros H a b E.
  assert (includes p s = true) by (apply includes_spec; eauto).
  congruence.
Qed.


(** ** The matcher on the constructs of the two patterns *)

Lemma m_star_cls p x k :
  m (Star (Cls p)) x k = greedy p k (cap x) (rest x).
Proof.
  destruct x as [s c]. cbn [m rest cap].
  generalize (Nat.le_refl (List.length s)).
  generalize (List.length s) at 2 3. intros n. revert n.
  induction s as [|ch tl IH]; intros n Hn.
  - destruct n; reflexivity.
  - destruct n as [|n]; [simpl in Hn; lia|].
    cbn [rest cap greedy]. destruct (p ch); [|reflexivity].
    unfold shorter at 1. cbn [rest List.length].
    replace (List.length tl <? S (List.length tl))%nat with true
      by (symmetry; apply Nat.ltb_lt; lia).
    rewrite IH by (simpl in Hn; lia). reflexivity.
Qed.

Lemma m_lit p x k :
  m (lit p) x k =
  if starts_with p (rest x)
  then k (MState (skipn (List.length p) (rest x)) (cap x))
  else None.
Proof.
  revert x; induction p as [|c p IH]; intros [s cp]; cbn [lit m rest cap].
  - reflexivity.
  - destruct s as [|ch tl]; [reflexivity|]. cbn [starts_with].
    rewrite N.eqb_sym.
    destruct (N.eqb c ch); [|reflexivity].
    rewrite IH. reflexivity.
Qed.

Lemma m_seq a b x k : m (Seq a b) x k = m a x (fun y => m b y k).
Proof. reflexivity. Qed.

Lemma m_chr c s cp k :
  m (Chr c) (MState s cp) k =
  match s with
  | ch :: tl => if N.eqb ch c then k (MState tl cp) else None
  | [] => None
  end.
Proof. reflexivity. Qed.

Lemma m_opt a x k :
  m (Opt a) x k =
  match m a x (fun y => if shorter y x then k y else None) with
  | Some z => Some z
  | None => k x
  end.
Proof. reflexivity. Qed.

Lemma m_group a x k :
  m (Group a) x k =
  m a x (fun y =>
    k (MState (rest y)
         (Some (firstn (List.length (rest x) - List.length (rest y))
                  (rest x))))).
Proof. reflexivity. Qed.

Lemma greedy_skip p k c s :
  (forall ch tl, p ch = true -> k (MState (ch :: tl) c) = None) ->
  greedy p k c s = k (MState (trimStart_by p s) c).
Proof.
  intros Hk. induction s as [|ch tl IH]; cbn [greedy trimStart_by].
  - reflexivity.
  - destruct (p ch) eqn:E; [|reflexivity].
    rewrite IH. destruct (k (MState (trimStart_by p tl) c)) eqn:K.
    + reflexivity.
    + apply Hk, E.
Qed.

(** The star of the class of all code units commits to the shortest
    suffix on which the continuation succeeds. *)
Lemma greedy_any_hit k c a b z :
  k (MState b c) = Some z ->
  (forall x b1 b2, b = x :: b1 ++ b2 -> k (MState b2 c) = None) ->
  greedy any k c (a ++ b) = Some z.
Proof.
  intros Hb Hlater.
  assert (Hg : greedy any k c b = Some z).
  { destruct b as [|x b']; cbn [greedy any]; [exact Hb|].
    assert (G : forall b1 b2, b' = b1 ++ b2 -> greedy any k c b2 = None).
    { intros b1 b2. revert b1. induction b2 as [|y b2 IH]; intros b1 E.
      - cbn [greedy]. apply (Hlater x b1 []). rewrite E. reflexivity.
      - cbn [greedy any]. rewrite (IH (b1 ++ [y])).
        + apply (Hlater x b1 (y :: b2)). rewrite E. reflexivity.
        + rewrite E, <- app_assoc. reflexivity. }
    rewrite (G [] b' eq_refl). exact Hb. }
  induction a as [|x a IH]; [exact Hg|].
  cbn [app greedy any]. rewrite IH. reflexivity.
Qed.

Lemma greedy_sound p k c s z :
  greedy p k c s = Some z ->
  exists w s', s = w ++ s' /\ forallb p w = true /\ k (MState s' c) = Some z.
Proof.
  induction s as [|ch tl IH]; cbn [greedy]; intros H.
  - exists [], []. auto.
  - destruct (p ch) eqn:E.
    + destruct (greedy p k c tl) eqn:G.
      * destruct (IH H) as (w & s' & -> & Hw & Hk).
        exists (ch :: w), s'. cbn [forallb]. rewrite E, Hw. auto.
      * exists [], (ch :: tl). auto.
    + exists [], (ch :: tl). auto.
Qed.

Lemma after_last_none ch s : ~ In ch s -> after_last ch s = None.
Proof.
  induction s as [|x tl IH]; cbn [after_last In]; intros H; [reflexivity|].
  rewrite IH by tauto.
  destruct (N.eqb_spec x ch); [tauto | reflexivity].
Qed.

Lemma after_last_app ch a b :
  ~ In ch b -> after_last ch (a ++ ch :: b) = Some b.
Proof.
  intros H. induction a as [|x a IH]; cbn [app after_last].
  - rewrite (after_last_none _ _ H), N.eqb_refl. reflexivity.
  - rewrite IH. reflexivity.
Qed.

Lemma after_last_some ch s r :
  after_last ch s = Some r -> exists a, s = a ++ ch :: r /\ ~ In ch r.
Proof.
  revert r; induction s as [|x tl IH]; cbn [after_last]; intros r H.
  - discriminate.
  - destruct (after_last ch tl) as [r'|] eqn:E.
    + injection H as <-. destruct (IH _ eq_refl) as (a & -> & Hn).
      exists (x :: a). auto.
    + destruct (N.eqb_spec x ch) as [->|]; [|discriminate].
      injection H as <-. exists []. split; [reflexivity|].
      intros Hin. clear IH.
      induction tl as [|y tl IHt]; [exact Hin|].
      cbn [after_last] in E. destruct (after_last ch tl); [discriminate|].
      destruct (N.eqb_spec y ch); [discriminate|].
      destruct Hin as [->|Hin]; [congruence | auto].
Qed.

Lemma greedy_any_last ch c s :
  greedy any (fun y => m (Chr ch) y Some) c s =
  match after_last ch s with
  | Some r => Some (MState r c)
  | None => None
  end.
Proof.
  induction s as [|x tl IH]; cbn [greedy any after_last].
  - reflexivity.
  - rewrite IH. destruct (after_last ch tl); [reflexivity|].
    cbn [m rest cap]. destruct (N.eqb x ch); reflexivity.
Qed.

Lemma firstn_prefix (a b : jsstring) :
  firstn (List.length (a ++ b) - List.length b) (a ++ b) = a.
Proof.
  rewrite length_app.
  replace (List.length a + List.length b - List.length b)%nat
    with (List.length a + 0)%nat by lia.
  rewrite firstn_app_2. cbn [firstn]. apply app_nil_r.
Qed.

(** *** The brace-to-brace pattern *)

Lemma m_object_re s c :
  m object_re (MState s c) Some =
  match s with
  | x :: tl =>
      if N.eqb x 123%N then
        match after_last 125%N tl with
        | Some r => Some (MState r c)
        | None => None
        end
      else None
  | [] => None
  end.
Proof.
  unfold object_re. rewrite m_seq, m_chr. destruct s as [|x tl]; [reflexivity|].
  destruct (N.eqb x 123%N); [|reflexivity].
  rewrite m_seq, m_star_cls. cbn [rest cap]. apply greedy_any_last.
Qed.

Lemma exec_object_hit pre mid post :
  ~ In 123%N pre -> ~ In 125%N post ->
  exec object_re (pre ++ 123%N :: mid ++ 125%N :: post)
  = Some (123%N :: mid ++ [125%N], None).
Proof.
  intros Hpre Hpost. induction pre as [|x pre IH].
  - cbn [app exec]. rewrite m_object_re, N.eqb_refl.
    rewrite (after_last_app _ mid _ Hpost). cbn [rest cap].
    f_equal. f_equal.
    change (123%N :: mid ++ 125%N :: post)
      with ((123%N :: mid) ++ 125%N :: post).
    replace ((123%N :: mid) ++ 125%N :: post)
      with (((123%N :: mid) ++ [125%N]) ++ post)
      by (rewrite <- app_assoc; reflexivity).
    apply firstn_prefix.
  - cbn [app exec]. rewrite m_object_re.
    destruct (N.eqb_spec x 123%N) as [->|_].
    + exfalso. apply Hpre. left; reflexivity.
    + apply IH. intros Hin. apply Hpre. right; exact Hin.
Qed.

Lemma exec_object_miss s :
  (forall pre mid post, s <> pre ++ 123%N :: mid ++ 125%N :: post) ->
  exec object_re s = None.
Proof.
  induction s as [|x tl IH]; intros H.
  - cbn [exec]. rewrite m_object_re. reflexivity.
  - cbn [exec]. rewrite m_object_re.
    destruct (N.eqb_spec x 123%N) as [->|_].
    + destruct (after_last 125%N tl) as [r|] eqn:E.
      * destruct (after_last_some _ _ _ E) as (a & -> & _).
        exfalso. apply (H [] a r). reflexivity.
      * apply IH. intros pre mid post ->.
        apply (H (123%N :: pre) mid post). reflexivity.
    + apply IH. intros pre mid post ->.
      apply (H (x :: pre) mid post). reflexivity.
Qed.

(** *** The fenced-block pattern *)

Lemma trimStart_by_split p s :
  exists w, s = w ++ trimStart_by p s /\ forallb p w = true.
Proof.
  induction s as [|c s IH]; cbn [trimStart_by].
  - exists []. auto.
  - destruct (p c) eqn:E.
    + destruct IH as (w & Hs & Hw). exists (c :: w).
      cbn [app forallb]. rewrite E, Hw. split; [f_equal; exact Hs | reflexivity].
    + exists []. auto.
Qed.

Lemma trimStart_by_app p w s :
  forallb p w = true ->
  match s with c :: _ => p c = false | [] => True end ->
  trimStart_by p (w ++ s) = s.
Proof.
  intros Hw Hs. induction w as [|c w IH]; cbn [app].
  - destruct s as [|c s]; cbn [trimStart_by]; [reflexivity|].
    rewrite Hs. reflexivity.
  - cbn [forallb] in Hw. apply andb_true_iff in Hw as [Hc Hw].
    cbn [trimStart_by]. rewrite Hc. apply IH, Hw.
Qed.

Lemma m_closing_re s c :
  m closing_re (MState s c) Some =
  if starts_with fence (trimStart s)
  then Some (MState (skipn 3 (trimStart s)) c)
  else None.
Proof.
  unfold closing_re. rewrite m_seq, m_star_cls. cbn [rest cap].
  rewrite greedy_skip.
  - rewrite m_lit. reflexivity.
  - intros ch tl Hch. rewrite m_lit. cbn [rest fence starts_with].
    destruct (N.eqb_spec 96 ch) as [<-|_]; [discriminate Hch | reflexivity].
Qed.

Lemma m_block_re_space ch tl c : isSpace ch = true ->
  m block_re (MState (ch :: tl) c) Some = None.
Proof.
  intros Hch. unfold block_re, object_re. rewrite m_seq, m_group, m_seq, m_chr.
  destruct (N.eqb_spec ch 123) as [->|_]; [discriminate Hch | reflexivity].
Qed.

(** A suffix of white space, a fence and fence-free text does not read as
    a right brace, white space and a fence. *)
Lemma no_later_close ws2 post b1 tl :
  forallb isSpace ws2 = true -> includes fence post = false ->
  b1 ++ 125%N :: tl = ws2 ++ fence ++ post ->
  starts_with fence (trimStart tl) = false.
Proof.
  intros Hws Hpost E.
  destruct (starts_with fence (trimStart tl)) eqn:S; [exfalso|reflexivity].
  apply starts_with_spec in S as [r Hr].
  destruct (trimStart_by_split isSpace tl) as (w & Htl & _).
  fold (trimStart tl) in Htl. rewrite Hr in Htl.
  apply app_eq_app in E as [l [[E1 E2] | [E1 E2]]].
  - (* the brace lies in the fence or after it *)
    destruct l as [|a [|b [|d l]]]; cbn in E2; try discriminate E2.
    injection E2 as _ _ _ E2.
    apply (includes_false _ _ Hpost (l ++ 125%N :: w) r).
    rewrite E2, Htl, <- app_assoc. reflexivity.
  - (* the brace lies in the white space *)
    destruct l as [|x l]; cbn in E2; [discriminate E2|].
    injection E2 as <- _. rewrite E1, forallb_app in Hws.
    apply andb_true_iff in Hws as [_ Hws]. discriminate Hws.
Qed.

Lemma trimStart_fence ws post :
  forallb isSpace ws = true -> trimStart (ws ++ fence ++ post) = fence ++ post.
Proof.
  intros H. unfold trimStart. apply trimStart_by_app; [exact H | reflexivity].
Qed.

(** On a complete block the group captures the braces and what is between
    them, whatever that is. *)
Lemma m_block_re_hit mid ws2 post c :
  forallb isSpace ws2 = true -> includes fence post = false ->
  m block_re (MState (123%N :: mid ++ 125%N :: ws2 ++ fence ++ post) c) Some
  = Some (MState post (Some (123%N :: mid ++ [125%N]))).
Proof.
  intros Hws Hpost. unfold block_re, object_re.
  rewrite m_seq, m_group, m_seq, m_chr, N.eqb_refl, m_seq, m_star_cls.
  cbn [rest cap]. apply greedy_any_hit.
  - rewrite m_chr, N.eqb_refl. cbn [rest].
    rewrite m_closing_re, (trimStart_fence _ _ Hws). cbn [starts_with fence app].
    rewrite !N.eqb_refl. cbn [andb skipn].
    do 3 f_equal.
    replace (123%N :: mid ++ 125%N :: ws2 ++ 96%N :: 96%N :: 96%N :: post)
      with ((123%N :: mid ++ [125%N]) ++ ws2 ++ fence ++ post)
      by (cbn [app]; rewrite <- app_assoc; reflexivity).
    apply firstn_prefix.
  - intros x b1 b2 E. injection E as _ E.
    destruct b2 as [|ch tl]; [reflexivity|].
    rewrite m_chr. destruct (N.eqb_spec ch 125) as [->|_]; [|reflexivity].
    cbn [rest]. rewrite m_closing_re.
    rewrite (no_later_close ws2 post b1 tl Hws Hpost); [reflexivity|].
    symmetry; exact E.
Qed.

Lemma m_spaced_block_hit ws1 mid ws2 post c :
  forallb isSpace ws1 = true ->
  forallb isSpace ws2 = true -> includes fence post = false ->
  m (Seq (Star (Cls isSpace)) block_re)
    (MState (ws1 ++ 123%N :: mid ++ 125%N :: ws2 ++ fence ++ post) c) Some
  = Some (MState post (Some (123%N :: mid ++ [125%N]))).
Proof.
  intros Hws1 Hws2 Hpost. rewrite m_seq, m_star_cls. cbn [rest cap].
  rewrite greedy_skip.
  - rewrite trimStart_by_app; [|exact Hws1|reflexivity].
    apply m_block_re_hit; assumption.
  - intros ch tl Hch. apply m_block_re_space, Hch.
Qed.

Lemma starts_with_json_space ws1 tl :
  forallb isSpace ws1 = true ->
  starts_with (str "json") (ws1 ++ 123%N :: tl) = false.
Proof.
  intros H. destruct ws1 as [|ch ws1]; [reflexivity|].
  cbn [forallb] in H. apply andb_true_iff in H as [H _].
  cbn [app str starts_with code].
  destruct (N.eqb_spec (code "j"%char) ch) as [<-|_];
    [vm_compute in H; discriminate H | reflexivity].
Qed.

Lemma m_fenced_hit tag ws1 mid ws2 post :
  tag = [] \/ tag = str "json" ->
  forallb isSpace ws1 = true ->
  forallb isSpace ws2 = true -> includes fence post = false ->
  m fenced_re
    (MState (fence ++ tag ++ ws1 ++ 123%N :: mid ++ 125%N :: ws2
               ++ fence ++ post) None) Some
  = Some (MState post (Some (123%N :: mid ++ [125%N]))).
Proof.
  intros Htag Hws1 Hws2 Hpost. unfold fenced_re.
  rewrite m_seq, m_lit. cbn [rest cap fence app starts_with List.length skipn].
  rewrite !N.eqb_refl. cbn [andb]. rewrite m_seq, m_opt, m_lit. cbn [rest cap].
  destruct Htag as [-> | ->].
  - cbn [app]. rewrite (starts_with_json_space _ _ Hws1).
    apply m_spaced_block_hit; assumption.
  - cbn [str app starts_with code]. rewrite !N.eqb_refl. cbn [andb].
    cbn [List.length skipn]. unfold shorter. cbn [rest List.length].
    match goal with
    | |- context [(?a <? ?b)%nat] =>
        replace (a <? b)%nat with true by (symmetry; apply Nat.ltb_lt; lia)
    end.
    fold fence. rewrite (m_spaced_block_hit _ _ _ _ _ Hws1 Hws2 Hpost).
    reflexivity.
Qed.

(** No match starts inside fence-free text that precedes a fence: a start
    on its last backticks runs into the fence itself. *)
Lemma starts_with_cons x p y s :
  starts_with (x :: p) (y :: s) = true -> y = x /\ starts_with p s = true.
Proof.
  cbn [starts_with]. intros H. apply andb_true_iff in H as [H1 H2].
  apply N.eqb_eq in H1. auto.
Qed.

Lemma m_fenced_after_backtick tl :
  m (Seq (Opt (lit (str "json"))) (Seq (Star (Cls isSpace)) block_re))
    (MState (96%N :: tl) None) Some = None.
Proof.
  rewrite m_seq, m_opt, m_lit. cbn [rest cap str code starts_with].
  change (N_of_ascii "j" =? 96)%N with false. cbn [andb].
  rewrite m_seq, m_star_cls. reflexivity.
Qed.

Lemma m_fenced_miss p1 p2 tl :
  includes fence (p1 ++ p2) = false -> p2 <> [] ->
  m fenced_re (MState (p2 ++ fence ++ tl) None) Some = None.
Proof.
  intros Hinc Hne. unfold fenced_re. rewrite m_seq, m_lit. cbn [rest cap].
  destruct (starts_with fence (p2 ++ fence ++ tl)) eqn:S; [|reflexivity].
  destruct p2 as [|a [|b [|d p2]]]; [congruence| | |].
  - apply starts_with_cons in S as [-> _].
    apply m_fenced_after_backtick.
  - apply starts_with_cons in S as [-> S].
    apply starts_with_cons in S as [-> _].
    apply m_fenced_after_backtick.
  - exfalso.
    apply starts_with_cons in S as [-> S].
    apply starts_with_cons in S as [-> S].
    apply starts_with_cons in S as [-> _].
    apply (includes_false _ _ Hinc p1 p2). reflexivity.
Qed.

Lemma exec_fenced_skip pre tl :
  includes fence pre = false ->
  exec fenced_re (pre ++ fence ++ tl) = exec fenced_re (fence ++ tl).
Proof.
  intros Hinc.
  assert (G : forall p1 p2, pre = p1 ++ p2 ->
            exec fenced_re (p2 ++ fence ++ tl) = exec fenced_re (fence ++ tl)).
  { intros p1 p2; revert p1. induction p2 as [|x p2 IH]; intros p1 E.
    - reflexivity.
    - change ((x :: p2) ++ fence ++ tl) with (x :: (p2 ++ fence ++ tl)).
      cbn [exec].
      change (x :: (p2 ++ fence ++ tl)) with ((x :: p2) ++ fence ++ tl).
      rewrite (m_fenced_miss p1 (x :: p2) tl);
        [|rewrite <- E; exact Hinc|discriminate].
      apply (IH (p1 ++ [x])). rewrite <- app_assoc. exact E. }
  apply (G [] pre eq_refl).
Qed.

(** A block between fences, in text that has no other fence, is found and
    its object text captured. *)
Lemma exec_fenced_block pre tag ws1 mid ws2 post :
  includes fence pre = false -> includes fence post = false ->
  tag = [] \/ tag = str "json" ->
  forallb isSpace ws1 = true -> forallb isSpace ws2 = true ->
  exists whole,
    exec fenced_re
      (pre ++ fence ++ tag ++ ws1 ++ 123%N :: mid ++ 125%N :: ws2
           ++ fence ++ post)
    = Some (whole, Some (123%N :: mid ++ [125%N])).
Proof.
  intros Hpre Hpost Htag Hws1 Hws2.
  rewrite (exec_fenced_skip _ _ Hpre).
  eexists. cbn [fence app exec].
  change (96%N :: 96%N :: 96%N :: tag ++ ws1 ++ 123%N :: mid ++ 125%N :: ws2
            ++ 96%N :: 96%N :: 96%N :: post)
    with (fence ++ tag ++ ws1 ++ 123%N :: mid ++ 125%N :: ws2
            ++ fence ++ post).
  rewrite (m_fenced_hit _ _ _ _ _ Htag Hws1 Hws2 Hpost). cbn [cap].
  reflexivity.
Qed.

(** Conversely, whatever the pattern matches is such a block. *)
Lemma m_block_re_sound s c z :
  m block_re (MState s c) Some = Some z ->
  exists mid ws2 post,
    s = 123%N :: mid ++ 125%N :: ws2 ++ fence ++ post
    /\ forallb isSpace ws2 = true
    /\ z = MState post (Some (123%N :: mid ++ [125%N])).
Proof.
  unfold block_re, object_re. rewrite m_seq, m_group, m_seq, m_chr.
  destruct s as [|x s3]; [discriminate|].
  destruct (N.eqb_spec x 123) as [->|_]; [|discriminate].
  rewrite m_seq, m_star_cls. cbn [rest cap]. intros H.
  apply greedy_sound in H as (mid & s4 & -> & _ & H).
  rewrite m_chr in H. destruct s4 as [|y s5]; [discriminate|].
  destruct (N.eqb_spec y 125) as [->|_]; [|discriminate].
  cbn [rest] in H. rewrite m_closing_re in H.
  destruct (starts_with fence (trimStart s5)) eqn:S; [|discriminate].
  apply starts_with_spec in S as [post Hpost].
  destruct (trimStart_by_split isSpace s5) as (ws2 & Hs5 & Hws2).
  fold (trimStart s5) in Hs5. rewrite Hpost in Hs5, H.
  assert (F : firstn (List.length (123%N :: mid ++ 125%N :: s5)
                        - List.length s5) (123%N :: mid ++ 125%N :: s5)
              = 123%N :: mid ++ [125%N]).
  { replace (123%N :: mid ++ 125%N :: s5)
      with ((123%N :: mid ++ [125%N]) ++ s5)
      by (cbn [app]; rewrite <- app_assoc; reflexivity).
    apply firstn_prefix. }
  rewrite F in H.
  exists mid, ws2, post. split; [rewrite Hs5 at 1; reflexivity|].
  split; [exact Hws2|]. injection H as <-. reflexivity.
Qed.

Lemma m_spaced_block_sound s c z :
  m (Seq (Star (Cls isSpace)) block_re) (MState s c) Some = Some z ->
  exists ws1 mid ws2 post,
    s = ws1 ++ 123%N :: mid ++ 125%N :: ws2 ++ fence ++ post
    /\ forallb isSpace ws1 = true /\ forallb isSpace ws2 = true
    /\ z = MState post (Some (123%N :: mid ++ [125%N])).
Proof.
  rewrite m_seq, m_star_cls. cbn [rest cap]. intros H.
  apply greedy_sound in H as (ws1 & s2 & -> & Hws1 & H).
  apply m_block_re_sound in H as (mid & ws2 & post & -> & Hws2 & ->).
  exists ws1, mid, ws2, post. auto.
Qed.

Lemma m_fenced_sound s z :
  m fenced_re (MState s None) Some = Some z ->
  exists tag ws1 mid ws2 post,
    s = fence ++ tag ++ ws1 ++ 123%N :: mid ++ 125%N :: ws2 ++ fence ++ post
    /\ (tag = [] \/ tag = str "json")
    /\ forallb isSpace ws1 = true /\ forallb isSpace ws2 = true
    /\ z = MState post (Some (123%N :: mid ++ [125%N])).
Proof.
  unfold fenced_re. rewrite m_seq, m_lit. cbn [rest cap].
  destruct (starts_with fence s) eqn:S; [|discriminate].
  apply starts_with_spec in S as [s1 ->].
  replace (skipn (List.length fence) (fence ++ s1)) with s1 by reflexivity.
  rewrite m_seq, m_opt, m_lit. cbn [rest cap].
  destruct (starts_with (str "json") s1) eqn:J.
  - apply starts_with_spec in J as [s1' ->].
    replace (skipn (List.length (str "json")) (str "json" ++ s1'))
      with s1' by reflexivity.
    destruct (shorter _ _); cbn iota.
    + destruct (m (Seq (Star (Cls isSpace)) block_re) (MState s1' None) Some)
        as [z'|] eqn:K.
      * intros H; injection H as <-.
        apply m_spaced_block_sound in K
          as (ws1 & mid & ws2 & post & -> & H1 & H2 & ->).
        exists (str "json"), ws1, mid, ws2, post. auto 6.
      * intros H.
        apply m_spaced_block_sound in H
          as (ws1 & mid & ws2 & post & E & H1 & H2 & ->).
        exists [], ws1, mid, ws2, post. rewrite E. auto 6.
    + intros H.
      apply m_spaced_block_sound in H
        as (ws1 & mid & ws2 & post & E & H1 & H2 & ->).
      exists [], ws1, mid, ws2, post. rewrite E. auto 6.
  - intros H.
    apply m_spaced_block_sound in H
      as (ws1 & mid & ws2 & post & -> & H1 & H2 & ->).
    exists [], ws1, mid, ws2, post. auto 6.
Qed.

Lemma exec_sound r s whole cp :
  exec r s = Some (whole, cp) ->
  exists pre s' y,
    s = pre ++ s' /\ m r (MState s' None) Some = Some y /\ cap y = cp.
Proof.
  induction s as [|x tl IH]; cbn [exec].
  - destruct (m r (MState [] None) Some) as [y|] eqn:E; [|discriminate].
    intros H; injection H as _ <-. exists [], [], y. auto.
  - destruct (m r (MState (x :: tl) None) Some) as [y|] eqn:E.
    + intros H; injection H as _ <-. exists [], (x :: tl), y. auto.
    + intros H. destruct (IH H) as (pre & s' & y & -> & Hm & Hc).
      exists (x :: pre), s', y. auto.
Qed.

(** The fenced-block pattern matches nothing but a fenced block, and its
    group always takes part: it holds the braces and what is between. *)
Lemma exec_fenced_sound content whole cp :
  exec fenced_re content = Some (whole, cp) ->
  exists pre tag ws1 mid ws2 post,
    content = pre ++ fence ++ tag ++ ws1 ++ 123%N :: mid ++ 125%N :: ws2
                  ++ fence ++ post
    /\ (tag = [] \/ tag = str "json")
    /\ forallb isSpace ws1 = true /\ forallb isSpace ws2 = true
    /\ cp = Some (123%N :: mid ++ [125%N]).
Proof.
  intros H. apply exec_sound in H as (pre & s' & y & -> & Hm & <-).
  apply m_fenced_sound in Hm as (tag & ws1 & mid & ws2 & post & -> & Ht
                                  & H1 & H2 & ->).
  exists pre, tag, ws1, mid, ws2, post. auto 6.
Qed.

(** ** The extraction order *)

Lemma jsonContent_fenced content whole cp :
  exec fenced_re content = Some (whole, cp) ->
  exists mid, cp = Some (123%N :: mid ++ [125%N])
              /\ jsonContent content = 123%N :: mid ++ [125%N].
Proof.
  intros H. unfold jsonContent. rewrite H.
  apply exec_fenced_sound in H
    as (pre & tag & ws1 & mid & ws2 & post & _ & _ & _ & _ & ->).
  exists mid. auto.
Qed.

Lemma jsonContent_braces pre mid post :
  exec fenced_re (pre ++ 123%N :: mid ++ 125%N :: post) = None ->
  ~ In 123%N pre -> ~ In 125%N post ->
  jsonContent (pre ++ 123%N :: mid ++ 125%N :: post) = 123%N :: mid ++ [125%N].
Proof.
  intros Hf Hpre Hpost. unfold jsonContent.
  rewrite Hf, (exec_object_hit _ _ _ Hpre Hpost). reflexivity.
Qed.

Lemma jsonContent_plain content :
  exec fenced_re content = None ->
  (forall pre mid post, content <> pre ++ 123%N :: mid ++ 125%N :: post) ->
  jsonContent content = content.
Proof.
  intros Hf H. unfold jsonContent. rewrite Hf, (exec_object_miss _ H).
  reflexivity.
Qed.

(** Text without a left brace has no fenced block either. *)
Lemma exec_fenced_no_brace content :
  ~ In 123%N content -> exec fenced_re content = None.
Proof.
  intros H. destruct (exec fenced_re content) as [[whole cp]|] eqn:E;
    [|reflexivity].
  apply exec_fenced_sound in E
    as (pre & tag & ws1 & mid & ws2 & post & -> & _).
  exfalso. apply H. rewrite !in_app_iff. do 4 right. left. reflexivity.
Qed.

Lemma jsonContent_no_brace content :
  ~ In 123%N content -> jsonContent content = content.
Proof.
  intros H. apply jsonContent_plain.
  - apply exec_fenced_no_brace, H.
  - intros pre mid post ->. apply H. rewrite in_app_iff. right. left.
    reflexivity.
Qed.

(** C1 (as amended). The strategies are tried in order and the first match
    wins: when the fenced-block pattern matches, its capture, a span from a
    left brace to a right brace, is taken; otherwise, when the text has a
    left brace with a right brace somewhere after it, the span from the
    first left brace to the last right brace is taken; otherwise, that is
    without a left brace or without a right brace after the first one, the
    full text is handed on unchanged. *)
Theorem C1_extraction_order content :
  (forall whole cp, exec fenced_re content = Some (whole, cp) ->
     exists mid, cp = Some (123%N :: mid ++ [125%N])
                 /\ jsonContent content = 123%N :: mid ++ [125%N])
  /\ (exec fenced_re content = None ->
      forall pre mid post,
        content = pre ++ 123%N :: mid ++ 125%N :: post ->
        ~ In 123%N pre -> ~ In 125%N post ->
        jsonContent content = 123%N :: mid ++ [125%N])
  /\ (exec fenced_re content = None ->
      (forall pre mid post, content <> pre ++ 123%N :: mid ++ 125%N :: post) ->
      jsonContent content = content).
Proof.
  split; [|split].
  - intros whole cp H. exact (jsonContent_fenced _ _ _ H).
  - intros Hf pre mid post -> Hpre Hpost.
    exact (jsonContent_braces _ _ _ Hf Hpre Hpost).
  - intros Hf H. exact (jsonContent_plain _ Hf H).
Qed.

Lemma from_first_app ch pre t :
  ~ In ch pre -> from_first ch (pre ++ ch :: t) = ch :: t.
Proof.
  intros H. unfold from_first. apply trimStart_by_app.
  - apply forallb_forall. intros x Hx. apply negb_true_iff.
    destruct (N.eqb_spec x ch) as [->|_]; [contradiction | reflexivity].
  - rewrite N.eqb_refl. reflexivity.
Qed.

Lemma upto_last_app ch a post :
  ~ In ch post -> upto_last ch (a ++ ch :: post) = a ++ [ch].
Proof.
  intros H. unfold upto_last. rewrite rev_app_distr. cbn [rev].
  rewrite <- app_assoc. cbn [app]. rewrite from_first_app.
  - cbn [rev]. rewrite rev_involutive. reflexivity.
  - intros Hin. apply H. apply in_rev. exact Hin.
Qed.

(** Where the text has no left brace, or a right brace after its first
    left brace, the code and the stated order take the same text. *)
Lemma stated_jsonContent_agrees content :
  ~ In 123%N content
  \/ (exists pre mid post,
        content = pre ++ 123%N :: mid ++ 125%N :: post
        /\ ~ In 123%N pre /\ ~ In 125%N post) ->
  jsonContent content = stated_jsonContent content.
Proof.
  intros H. unfold stated_jsonContent.
  destruct (exec fenced_re content) as [[whole cp]|] eqn:E.
  - unfold jsonContent. rewrite E. reflexivity.
  - destruct H as [H | (pre & mid & post & -> & Hpre & Hpost)].
    + rewrite (jsonContent_no_brace _ H).
      replace (existsb (N.eqb 123) content) with false; [reflexivity|].
      symmetry. apply not_true_is_false. intros X.
      apply existsb_exists in X as (x & Hx & Ex).
      apply N.eqb_eq in Ex. subst x. exact (H Hx).
    + rewrite (jsonContent_braces _ _ _ E Hpre Hpost).
      replace (existsb (N.eqb 123) (pre ++ 123%N :: mid ++ 125%N :: post))
        with true.
      * unfold first_to_last_brace. rewrite (from_first_app _ _ _ Hpre).
        change (123%N :: mid ++ 125%N :: post)
          with ((123%N :: mid) ++ 125%N :: post).
        rewrite (upto_last_app _ _ _ Hpost). reflexivity.
      * symmetry. apply existsb_exists. exists 123%N. split;
          [|reflexivity]. apply in_or_app. right. left. reflexivity.
Qed.

(** C1, as stated, fails on a completion that was cut off inside its
    object: the text has a left brace and no right brace, the code hands on
    the whole text, and the stated order would take the (empty) span up to
    a last right brace. *)
Lemma C1_counterexample :
  let content := str "Scores: {desirability: 7, feasibility" in
  exec fenced_re content = None
  /\ existsb (N.eqb 123%N) content = true
  /\ jsonContent content = content
  /\ (forall mid, jsonContent content <> 123%N :: mid ++ [125%N])
  /\ stated_jsonContent content = []
  /\ jsonContent content <> stated_jsonContent content.
Proof.
  cbv zeta. split; [vm_compute; reflexivity|]. split; [vm_compute; reflexivity|].
  split; [vm_compute; reflexivity|]. split; [|split].
  - intros mid. vm_compute. discriminate.
  - vm_compute. reflexivity.
  - vm_compute. discriminate.
Qed.

(** The three cases of C1 on concrete texts. *)
Lemma C1_extraction_order_witness :
  jsonContent (str "So: {x} and {y}.") = str "{x} and {y}"
  /\ jsonContent (str "no braces") = str "no braces".
Proof.
  pose proof (C1_extraction_order (str "So: {x} and {y}.")) as (_ & H2 & _).
  pose proof (C1_extraction_order (str "no braces")) as (_ & _ & H3).
  split.
  - apply (H2 eq_refl (str "So: ") (str "x} and {y") (str ".") eq_refl).
    + vm_compute. intuition discriminate.
    + vm_compute. intuition discriminate.
  - apply (H3 eq_refl). intros pre mid post E.
    assert (In 123%N (str "no braces")) as Hin
      by (rewrite E, in_app_iff; right; left; reflexivity).
    vm_compute in Hin. intuition discriminate.
Defined.

(** ** Running [evaluateInnovation] *)

(** With a token, a successful response whose body is JSON and a string as
    the completion content, the call resolves to what the extractor makes
    of that content, or to the failure object for its parse error. *)
Lemma evaluate_content env idea w c s st txt data content :
  HUGGINGFACE_API_KEY env = Some (c :: s) ->
  provider w (sent w) (request_for env (c :: s) idea)
  = Normal (Response st (Normal txt)) ->
  ok (Response st (Normal txt)) = true ->
  JSON_parse txt = Normal data ->
  content_of data = Normal (JString content) ->
  result (evaluateInnovation env idea) w =
  Normal (match extract content with
          | Normal v => v
          | Throw e => failure e
          end).
Proof.
  intros Hkey Hprov Hok Hbody Hcontent.
  unfold request_for in Hprov.
  unfold result, evaluateInnovation, try_catch, evaluate_body, bind,
    getHuggingFaceToken, fetch, console_log, json_of, text, lift, bind, ret,
    throw.
  rewrite Hkey. cbn [provider sent console]. rewrite Hprov, Hok.
  cbn [negb body]. rewrite Hbody, Hcontent. unfold extract.
  destruct (JSON_parse (jsonContent content)); reflexivity.
Qed.

(** C10. There is a completion text with two fenced blocks, each holding a
    valid JSON object, on which the greedy capture runs from the first
    block's left brace to the second block's right brace, over the prose
    between them; parsing that span fails, and [evaluateInnovation]
    resolves to an EvaluationFailure and to neither object. *)
Theorem C10_two_fenced_blocks :
  exists content obj1 prose obj2 v1 v2,
    content = (fence ++ str "json" ++ [10%N] ++ obj1 ++ [10%N] ++ fence)
              ++ prose
              ++ (fence ++ str "json" ++ [10%N] ++ obj2 ++ [10%N] ++ fence)
    /\ includes fence prose = false
    /\ JSON_parse obj1 = Normal (JObject v1)
    /\ JSON_parse obj2 = Normal (JObject v2)
    /\ jsonContent content
       = obj1 ++ [10%N] ++ fence ++ prose ++ fence ++ str "json" ++ [10%N]
           ++ obj2
    /\ extract content = Throw syntax_error
    /\ let w := mock_world
                  (Normal (Response 200 (Normal (completion_body content)))) in
       let r := result (evaluateInnovation
                          (Env (Some (str "hf_token")) None None)
                          (str "An e-bike sharing service")) w in
       r = Normal (failure syntax_error)
       /\ is_failure (failure syntax_error)
       /\ r <> Normal (JObject v1) /\ r <> Normal (JObject v2).
Proof.
  exists (quotes (str "```json
{~score~: 7}
```
or, more strictly:
```json
{~score~: 5}
```")).
  exists (quotes (str "{~score~: 7}")).
  exists (str "
or, more strictly:
").
  exists (quotes (str "{~score~: 5}")).
  exists [(str "score", JNumber (Num false 7 0))].
  exists [(str "score", JNumber (Num false 5 0))].
  split; [reflexivity|]. split; [reflexivity|].
  split; [reflexivity|]. split; [reflexivity|].
  split; [vm_compute; reflexivity|]. split; [vm_compute; reflexivity|].
  cbv zeta. split; [vm_compute; reflexivity|].
  split; [eexists; eexists; reflexivity|].
  split; vm_compute; discriminate.
Qed.

(** ** A single fenced block *)

Lemma jsonContent_fenced_block pre tag ws1 mid ws2 post :
  includes fence pre = false -> includes fence post = false ->
  tag = [] \/ tag = str "json" ->
  forallb isSpace ws1 = true -> forallb isSpace ws2 = true ->
  jsonContent
    (pre ++ fence ++ tag ++ ws1 ++ 123%N :: mid ++ 125%N :: ws2
         ++ fence ++ post)
  = 123%N :: mid ++ [125%N].
Proof.
  intros Hpre Hpost Htag Hws1 Hws2.
  destruct (exec_fenced_block pre tag ws1 mid ws2 post Hpre Hpost Htag
              Hws1 Hws2) as [whole E].
  unfold jsonContent. rewrite E. reflexivity.
Qed.

(** C2. A completion text with one fenced block (the fence, the tag
    [json] or no tag, white space, an object text from its left brace to
    its right brace, white space, the fence) and no fence in the prose
    before and after it: the extractor returns the value [JSON.parse]
    gives for the object text, whatever prose surrounds the block and
    whatever the object holds; nothing is validated, range-checked or
    recomputed. *)
Theorem C2_single_fenced_block pre tag ws1 mid ws2 post v :
  includes fence pre = false -> includes fence post = false ->
  tag = [] \/ tag = str "json" ->
  forallb isSpace ws1 = true -> forallb isSpace ws2 = true ->
  JSON_parse (123%N :: mid ++ [125%N]) = Normal v ->
  extract
    (pre ++ fence ++ tag ++ ws1 ++ 123%N :: mid ++ 125%N :: ws2
         ++ fence ++ post)
  = Normal v.
Proof.
  intros Hpre Hpost Htag Hws1 Hws2 Hv. unfold extract.
  rewrite (jsonContent_fenced_block _ _ _ _ _ _ Hpre Hpost Htag Hws1 Hws2).
  exact Hv.
Qed.

(** C2 on a reply with prose around the block, whose object has a score
    out of range and an overall score that is not the mean. *)
Lemma C2_single_fenced_block_witness :
  extract (quotes (str "Sure! Here is the evaluation {draft}:
```json
{~desirability~: {~score~: 99}, ~overallEvaluation~: {~overallScore~: 0}}
```
Let me know if you need more."))
  = Normal (JObject
      [(str "desirability",
        JObject [(str "score", JNumber (Num false 99 0))]);
       (str "overallEvaluation",
        JObject [(str "overallScore", JNumber (Num false 0 0))])]).
Proof.
  apply (C2_single_fenced_block
           (str "Sure! Here is the evaluation {draft}:
") (str "json") [10%N]
           (quotes (str "~desirability~: {~score~: 99}, ~overallEvaluation~: {~overallScore~: 0}"))
           [10%N] (str "
Let me know if you need more."));
    try reflexivity.
  right; reflexivity.
Defined.

(** ** The JSON parser: what is left of the input *)

Lemma suffix_refl s : suffix s s.
Proof. exists []. reflexivity. Qed.

Lemma suffix_cons x r s : suffix r s -> suffix r (x :: s).
Proof. intros [c ->]. exists (x :: c). reflexivity. Qed.

Lemma suffix_trans a b c : suffix a b -> suffix b c -> suffix a c.
Proof. intros [x ->] [y ->]. exists (y ++ x). apply app_assoc. Qed.

Lemma proper_cons x r s : suffix r s -> proper_suffix r (x :: s).
Proof. intros [c ->]. exists (x :: c). split; [discriminate | reflexivity]. Qed.

Lemma proper_suffix_1 r s : proper_suffix r s -> suffix r s.
Proof. intros (c & _ & ->). exists c. reflexivity. Qed.

Lemma proper_trans_l a b c : proper_suffix a b -> suffix b c -> proper_suffix a c.
Proof.
  intros (x & Hx & ->) [y ->]. exists (y ++ x). split.
  - destruct y; [exact Hx | discriminate].
  - apply app_assoc.
Qed.

Lemma proper_trans_r a b c : suffix a b -> proper_suffix b c -> proper_suffix a c.
Proof.
  intros [x ->] (y & Hy & ->). exists (y ++ x). split.
  - destruct y; [congruence | discriminate].
  - apply app_assoc.
Qed.

Lemma suffix_length r s : suffix r s -> (List.length r <= List.length s)%nat.
Proof. intros [c ->]. rewrite length_app. lia. Qed.

Lemma proper_suffix_length r s :
  proper_suffix r s -> (List.length r < List.length s)%nat.
Proof.
  intros (c & Hc & ->). rewrite length_app.
  destruct c; [congruence | simpl; lia].
Qed.


Lemma skip_ws_suffix s : suffix (skip_ws s) s.
Proof.
  induction s as [|c s IH]; cbn [skip_ws].
  - apply suffix_refl.
  - destruct (isJSONSpace c); [apply suffix_cons, IH | apply suffix_refl].
Qed.

Lemma skipn_suffix n (s : list N) : suffix (skipn n s) s.
Proof.
  exists (firstn n s). symmetry. apply firstn_skipn.
Qed.

Lemma span_digits_suffix s : suffix (snd (span_digits s)) s.
Proof.
  induction s as [|c s IH]; cbn [span_digits].
  - apply suffix_refl.
  - destruct (isDigit c); [|apply suffix_refl].
    destruct (span_digits s) as [ds r]. cbn [snd] in *.
    apply suffix_cons, IH.
Qed.

Lemma lex_string_suffix s t r :
  lex_string s = Some (t, r) -> proper_suffix r s.
Proof.
  assert (G : forall n s, (List.length s <= n)%nat ->
            forall t r, lex_string s = Some (t, r) -> proper_suffix r s).
  { clear. induction n as [|n IH]; intros s Hn t r.
    - destruct s; [discriminate | simpl in Hn; lia].
    - destruct s as [|c s']; [discriminate|]. cbn [lex_string].
      assert (K : forall x s0 t0 r0, suffix s0 s' ->
                cons_fst x (lex_string s0) = Some (t0, r0) ->
                proper_suffix r0 (c :: s')).
      { intros x s0 t0 r0 Hs0 E. unfold cons_fst in E.
        destruct (lex_string s0) as [[t1 r1]|] eqn:L; [|discriminate].
        injection E as _ <-.
        apply proper_cons, (suffix_trans _ s0); [|exact Hs0].
        apply proper_suffix_1, (IH s0 ltac:(apply suffix_length in Hs0;
          simpl in Hn; lia) _ _ L). }
      destruct (c =? 34)%N.
      { intros E; injection E as _ <-. apply proper_cons, suffix_refl. }
      destruct (c =? 92)%N.
      { destruct s' as [|e s2]; [discriminate|].
        destruct (e =? 117)%N.
        - destruct s2 as [|h1 [|h2 [|h3 [|h4 s3]]]]; try discriminate.
          destruct (hexval h1), (hexval h2), (hexval h3), (hexval h4);
            try discriminate.
          apply K. do 5 apply suffix_cons. apply suffix_refl.
        - destruct (unescape e); [|discriminate].
          apply K. apply suffix_cons, suffix_refl. }
      destruct (c <? 32)%N; [discriminate|].
      apply K, suffix_refl. }
  intros H. exact (G (List.length s) s (Nat.le_refl _) t r H).
Qed.

Lemma lex_sign_suffix s : suffix (snd (lex_sign s)) s.
Proof.
  destruct s as [|c t]; cbn [lex_sign]; [apply suffix_refl|].
  destruct (c =? 45)%N; cbn [snd];
    [apply suffix_cons, suffix_refl | apply suffix_refl].
Qed.

Lemma lex_int_suffix s ds r : lex_int s = Some (ds, r) -> proper_suffix r s.
Proof.
  destruct s as [|d t]; cbn [lex_int]; [discriminate|].
  destruct (d =? 48)%N.
  - intros E; injection E as _ <-. apply proper_cons, suffix_refl.
  - destruct (isDigit d); [|discriminate].
    pose proof (span_digits_suffix t) as S.
    destruct (span_digits t) as [ds' r']. cbn [snd] in S.
    intros E; injection E as _ <-. apply proper_cons, S.
Qed.

Lemma lex_frac_suffix s ds r : lex_frac s = Some (ds, r) -> suffix r s.
Proof.
  destruct s as [|c t]; cbn [lex_frac].
  - intros E; injection E as _ <-. apply suffix_refl.
  - destruct (c =? 46)%N.
    + pose proof (span_digits_suffix t) as S.
      destruct (span_digits t) as [[|f fs] r']; [discriminate|].
      cbn [snd] in S. intros E; injection E as _ <-. apply suffix_cons, S.
    + intros E; injection E as _ <-. apply suffix_refl.
Qed.

Lemma lex_exp_suffix s e r : lex_exp s = Some (e, r) -> suffix r s.
Proof.
  destruct s as [|c t]; cbn [lex_exp].
  - intros E; injection E as _ <-. apply suffix_refl.
  - destruct ((c =? 101) || (c =? 69))%N.
    + set (su := match t with
                 | x :: u' =>
                     if (x =? 43)%N then (false, u')
                     else if (x =? 45)%N then (true, u') else (false, t)
                 | [] => (false, t)
                 end).
      assert (Hu : suffix (snd su) t).
      { subst su. destruct t as [|x u']; [apply suffix_refl|].
        destruct (x =? 43)%N; [apply suffix_cons, suffix_refl|].
        destruct (x =? 45)%N; [apply suffix_cons, suffix_refl|].
        apply suffix_refl. }
      destruct su as [esign u]. cbn [snd] in Hu.
      pose proof (span_digits_suffix u) as S.
      destruct (span_digits u) as [[|d ds] r']; [discriminate|].
      cbn [snd] in S. intros E; injection E as _ <-.
      apply suffix_cons, (suffix_trans _ u); assumption.
    + intros E; injection E as _ <-. apply suffix_refl.
Qed.

Lemma lex_number_suffix s x r :
  lex_number s = Some (x, r) -> proper_suffix r s.
Proof.
  unfold lex_number. pose proof (lex_sign_suffix s) as S1.
  destruct (lex_sign s) as [sign s1]. cbn [snd] in S1. unfold lex_unsigned.
  destruct (lex_int s1) as [[ids s2]|] eqn:I; [|discriminate].
  destruct (lex_frac s2) as [[fds s3]|] eqn:F; [|discriminate].
  destruct (lex_exp s3) as [[e s4]|] eqn:X; [|discriminate].
  intros E; injection E as _ <-.
  apply lex_int_suffix in I. apply lex_frac_suffix in F.
  apply lex_exp_suffix in X.
  apply (proper_trans_l _ s1); [|exact S1].
  apply (proper_trans_r _ s2); [|exact I].
  apply (suffix_trans _ s3); assumption.
Qed.

Lemma starts_with_skipn p s :
  starts_with p s = true -> p <> [] ->
  proper_suffix (skipn (List.length p) s) s.
Proof.
  intros H Hp. apply starts_with_spec in H as [r ->].
  exists p. split; [exact Hp|]. f_equal.
  rewrite skipn_app, Nat.sub_diag, skipn_all. reflexivity.
Qed.

(** Every parser consumes input: what it leaves is a proper suffix. *)
Lemma parse_suffix f :
  (forall s v r, parse_value f s = Parsed v r -> proper_suffix r s)
  /\ (forall acc s v r, parse_elements f acc s = Parsed v r -> proper_suffix r s)
  /\ (forall acc s v r, parse_members f acc s = Parsed v r -> proper_suffix r s).
Proof.
  induction f as [|f (IHv & IHe & IHm)];
    [repeat split; intros; discriminate|].
  split; [|split].
  - intros s v r. cbn [parse_value]. destruct s as [|c s']; [discriminate|].
    destruct (c =? 123)%N.
    { assert (M : parse_members f [] s' = Parsed v r ->
                  proper_suffix r (c :: s')).
      { intros H. apply IHm in H. apply proper_cons, proper_suffix_1, H. }
      pose proof (skip_ws_suffix s') as W.
      destruct (skip_ws s') as [|c' r0] eqn:E; [exact M|].
      destruct (c' =? 125)%N; [|exact M].
      intros H; injection H as _ <-.
      apply proper_cons, (suffix_trans _ (c' :: r0)); [|exact W].
      apply suffix_cons, suffix_refl. }
    destruct (c =? 91)%N.
    { assert (M : parse_elements f [] s' = Parsed v r ->
                  proper_suffix r (c :: s')).
      { intros H. apply IHe in H. apply proper_cons, proper_suffix_1, H. }
      pose proof (skip_ws_suffix s') as W.
      destruct (skip_ws s') as [|c' r0] eqn:E; [exact M|].
      destruct (c' =? 93)%N; [|exact M].
      intros H; injection H as _ <-.
      apply proper_cons, (suffix_trans _ (c' :: r0)); [|exact W].
      apply suffix_cons, suffix_refl. }
    destruct (c =? 34)%N.
    { destruct (lex_string s') as [[t r0]|] eqn:L; [|discriminate].
      intros H; injection H as _ <-. apply lex_string_suffix in L.
      apply proper_cons, proper_suffix_1, L. }
    destruct (starts_with (str "true") (c :: s')) eqn:T.
    { intros H; injection H as _ <-.
      apply (starts_with_skipn (str "true")); [exact T | discriminate]. }
    destruct (starts_with (str "false") (c :: s')) eqn:F.
    { intros H; injection H as _ <-.
      apply (starts_with_skipn (str "false")); [exact F | discriminate]. }
    destruct (starts_with (str "null") (c :: s')) eqn:U.
    { intros H; injection H as _ <-.
      apply (starts_with_skipn (str "null")); [exact U | discriminate]. }
    destruct (lex_number (c :: s')) as [[x r0]|] eqn:L; [|discriminate].
    intros H; injection H as _ <-. apply lex_number_suffix in L. exact L.
  - intros acc s v r. cbn [parse_elements].
    destruct (parse_value f (skip_ws s)) as [v0 r0| |] eqn:V; try discriminate.
    apply IHv in V. pose proof (skip_ws_suffix r0) as W.
    destruct (skip_ws r0) as [|c r'] eqn:E; [discriminate|].
    assert (P : proper_suffix r' s).
    { apply (proper_trans_l _ (skip_ws s)); [|apply skip_ws_suffix].
      apply (proper_trans_r _ r0); [|exact V].
      apply (suffix_trans _ (c :: r')); [|exact W].
      apply suffix_cons, suffix_refl. }
    destruct (c =? 44)%N.
    { intros H. apply IHe in H. apply proper_suffix_1 in H.
      apply (proper_trans_r _ r'); assumption. }
    destruct (c =? 93)%N; [|discriminate].
    intros H; injection H as _ <-. exact P.
  - intros acc s v r. cbn [parse_members].
    pose proof (skip_ws_suffix s) as W0.
    destruct (skip_ws s) as [|c s1] eqn:E0; [discriminate|].
    destruct (c =? 34)%N; [|discriminate].
    destruct (lex_string s1) as [[key s2]|] eqn:L; [|discriminate].
    apply lex_string_suffix in L. pose proof (skip_ws_suffix s2) as W2.
    destruct (skip_ws s2) as [|c2 s3] eqn:E2; [discriminate|].
    destruct (c2 =? 58)%N; [|discriminate].
    destruct (parse_value f (skip_ws s3)) as [v0 r0| |] eqn:V; try discriminate.
    apply IHv in V. pose proof (skip_ws_suffix r0) as W.
    destruct (skip_ws r0) as [|c3 r'] eqn:E; [discriminate|].
    assert (P : proper_suffix r' s).
    { apply (proper_trans_l _ (c :: s1)); [|exact W0].
      apply proper_cons. apply (suffix_trans _ s2);
        [|apply proper_suffix_1, L].
      apply (suffix_trans _ (c2 :: s3)); [|exact W2].
      apply suffix_cons. apply (suffix_trans _ (skip_ws s3));
        [|apply skip_ws_suffix].
      apply (suffix_trans _ r0); [|apply proper_suffix_1, V].
      apply (suffix_trans _ (c3 :: r')); [|exact W].
      apply suffix_cons, suffix_refl. }
    destruct (c3 =? 44)%N.
    { intros H. apply IHm in H. apply proper_suffix_1 in H.
      apply (proper_trans_r _ r'); assumption. }
    destruct (c3 =? 125)%N; [|discriminate].
    intros H; injection H as _ <-. exact P.
Qed.

(** ** The JSON parser: the fuel is enough *)

Lemma parse_fuel f :
  (forall s, (2 * List.length s < f)%nat -> parse_value f s <> OutOfFuel)
  /\ (forall acc s, (2 * List.length s + 1 < f)%nat ->
        parse_elements f acc s <> OutOfFuel)
  /\ (forall acc s, (2 * List.length s + 1 < f)%nat ->
        parse_members f acc s <> OutOfFuel).
Proof.
  induction f as [|f (IHv & IHe & IHm)]; [repeat split; intros; lia|].
  split; [|split].
  - intros s Hf. cbn [parse_value]. destruct s as [|c s']; [discriminate|].
    cbn [List.length] in Hf.
    destruct (c =? 123)%N.
    { destruct (skip_ws s') as [|c' r0];
        [|destruct (c' =? 125)%N; [discriminate|]]; apply IHm; lia. }
    destruct (c =? 91)%N.
    { destruct (skip_ws s') as [|c' r0];
        [|destruct (c' =? 93)%N; [discriminate|]]; apply IHe; lia. }
    destruct (c =? 34)%N.
    { destruct (lex_string s') as [[t r0]|]; discriminate. }
    destruct (starts_with (str "true") (c :: s')); [discriminate|].
    destruct (starts_with (str "false") (c :: s')); [discriminate|].
    destruct (starts_with (str "null") (c :: s')); [discriminate|].
    destruct (lex_number (c :: s')) as [[x r0]|]; discriminate.
  - intros acc s Hf. cbn [parse_elements].
    pose proof (suffix_length _ _ (skip_ws_suffix s)) as L0.
    destruct (parse_value f (skip_ws s)) as [v0 r0| |] eqn:V.
    + apply (proj1 (parse_suffix f)) in V. apply proper_suffix_length in V.
      pose proof (suffix_length _ _ (skip_ws_suffix r0)) as L1.
      destruct (skip_ws r0) as [|c r']; [discriminate|].
      cbn [List.length] in L1.
      destruct (c =? 44)%N; [apply IHe; lia|].
      destruct (c =? 93)%N; discriminate.
    + discriminate.
    + exfalso. revert V. apply IHv. lia.
  - intros acc s Hf. cbn [parse_members].
    pose proof (suffix_length _ _ (skip_ws_suffix s)) as L0.
    destruct (skip_ws s) as [|c s1]; [discriminate|].
    cbn [List.length] in L0.
    destruct (c =? 34)%N; [|discriminate].
    destruct (lex_string s1) as [[key s2]|] eqn:L; [|discriminate].
    apply lex_string_suffix, proper_suffix_length in L.
    pose proof (suffix_length _ _ (skip_ws_suffix s2)) as L2.
    destruct (skip_ws s2) as [|c2 s3]; [discriminate|].
    cbn [List.length] in L2.
    destruct (c2 =? 58)%N; [|discriminate].
    pose proof (suffix_length _ _ (skip_ws_suffix s3)) as L3.
    destruct (parse_value f (skip_ws s3)) as [v0 r0| |] eqn:V.
    + apply (proj1 (parse_suffix f)) in V. apply proper_suffix_length in V.
      pose proof (suffix_length _ _ (skip_ws_suffix r0)) as L1.
      destruct (skip_ws r0) as [|c3 r']; [discriminate|].
      cbn [List.length] in L1.
      destruct (c3 =? 44)%N; [apply IHm; lia|].
      destruct (c3 =? 125)%N; discriminate.
    + discriminate.
    + exfalso. revert V. apply IHv. lia.
Qed.

(** [JSON.parse] never stops for lack of fuel: it returns a value or it
    throws for a syntax error in the text. *)
Lemma parse_value_fuel text :
  parse_value (fuel_for text) (skip_ws text) <> OutOfFuel.
Proof.
  apply (proj1 (parse_fuel (fuel_for text))). unfold fuel_for.
  pose proof (suffix_length _ _ (skip_ws_suffix text)). lia.
Qed.


(** ** Text without a left brace *)






(** ** The prompt builder *)

Lemma GetSubstitution_plain matched before after t :
  ~ In 36%N t -> GetSubstitution matched before after t = t.
Proof.
  induction t as [|c t IH]; intros H; cbn [GetSubstitution]; [reflexivity|].
  destruct (N.eqb_spec c 36) as [->|_].
  - exfalso. apply H. left; reflexivity.
  - rewrite IH; [reflexivity|]. intros Hin. apply H. right; exact Hin.
Qed.

(** The template has its placeholder once. *)
Lemma template_parts :
  exists before after,
    split_at_first placeholder EVALUATION_PROMPT = Some (before, after)
    /\ EVALUATION_PROMPT = before ++ placeholder ++ after
    /\ includes placeholder before = false
    /\ includes placeholder after = false.
Proof.
  eexists. eexists. split; [vm_compute; reflexivity|].
  split; [vm_compute; reflexivity|].
  split; vm_compute; reflexivity.
Qed.

(** For a description without a dollar sign the user message is the
    template with the placeholder replaced by the description as it is. *)
Lemma user_content_verbatim idea :
  ~ In 36%N idea ->
  exists before after,
    EVALUATION_PROMPT = before ++ placeholder ++ after
    /\ includes placeholder before = false
    /\ includes placeholder after = false
    /\ user_content idea = before ++ idea ++ after.
Proof.
  intros H. destruct template_parts as (before & after & Hs & Ht & Hb & Ha).
  exists before, after. repeat split; try assumption.
  unfold user_content, replace. rewrite Hs.
  rewrite (GetSubstitution_plain _ _ _ _ H). reflexivity.
Qed.

(** C4 fails on the code, by a slip of the code: [replace] with a string
    as replacement expands the dollar patterns of that string. A description
    with two dollar signs reaches the prompt with one, so it is not in the
    user message as it was given; the description that reads dollar,
    ampersand is replaced by the placeholder itself, so the user message is
    the bare template. *)
Theorem C4_dollar_patterns :
  let idea := str "Sharing e-bikes saves commuters $$ and time" in
  includes idea (user_content idea) = false
  /\ includes (str "Sharing e-bikes saves commuters $ and time")
       (user_content idea) = true
  /\ user_content (str "$&") = EVALUATION_PROMPT
  /\ includes placeholder (user_content (str "$&")) = true
  /\ includes (str "$&") (user_content (str "$&")) = false.
Proof. vm_compute. repeat split; reflexivity. Qed.

(** ** The paths through [evaluateInnovation] *)

Lemma failure_is_failure e : is_failure (failure e).
Proof. exists (str "Failed to generate evaluation"), (message e). reflexivity. Qed.

(** Without a token nothing is sent. *)
Lemma evaluate_no_key env idea w :
  HUGGINGFACE_API_KEY env = None \/ HUGGINGFACE_API_KEY env = Some [] ->
  result (evaluateInnovation env idea) w = Normal (failure key_error)
  /\ requests (evaluateInnovation env idea) w = sent w.
Proof.
  intros [H|H]; run; rewrite H; split; reflexivity.
Qed.

(** A network failure. *)
Lemma evaluate_network env idea w c s e :
  HUGGINGFACE_API_KEY env = Some (c :: s) ->
  provider w (sent w) (request_for env (c :: s) idea) = Throw e ->
  result (evaluateInnovation env idea) w = Normal (failure e)
  /\ requests (evaluateInnovation env idea) w
     = sent w ++ [request_for env (c :: s) idea].
Proof.
  intros Hk Hp. run. rewrite Hk. cbn [provider sent console]. rewrite Hp.
  split; reflexivity.
Qed.

(** A response that is not ok. *)
Lemma evaluate_status env idea w c s r :
  HUGGINGFACE_API_KEY env = Some (c :: s) ->
  provider w (sent w) (request_for env (c :: s) idea) = Normal r ->
  ok r = false ->
  result (evaluateInnovation env idea) w
  = Normal (failure (match body r with
                     | Normal errorText => router_error r errorText
                     | Throw e => e
                     end))
  /\ requests (evaluateInnovation env idea) w
     = sent w ++ [request_for env (c :: s) idea].
Proof.
  intros Hk Hp Hok. run. rewrite Hk. cbn [provider sent console].
  rewrite Hp, Hok. cbn [negb]. destruct (body r); split; reflexivity.
Qed.

Lemma evaluate_ok env idea w c s r :
  HUGGINGFACE_API_KEY env = Some (c :: s) ->
  provider w (sent w) (request_for env (c :: s) idea) = Normal r ->
  ok r = true ->
  result (evaluateInnovation env idea) w = Normal (outcome_of_body (body r))
  /\ requests (evaluateInnovation env idea) w
     = sent w ++ [request_for env (c :: s) idea].
Proof.
  intros Hk Hp Hok. run. rewrite Hk. cbn [provider sent console].
  rewrite Hp, Hok. cbn [negb]. unfold outcome_of_body, extract.
  destruct (body r) as [t|e]; [|split; reflexivity].
  destruct (JSON_parse t) as [data|e]; [|split; reflexivity].
  destruct (content_of data) as [content|e]; [|split; reflexivity].
  destruct content; try (split; reflexivity).
  destruct (JSON_parse (jsonContent s0)); split; reflexivity.
Qed.

Lemma try_block_caught env idea w :
  match evaluate_body env idea w with
  | (Normal v, _) => result (evaluateInnovation env idea) w = Normal v
  | (Throw e, _) => result (evaluateInnovation env idea) w = Normal (failure e)
  end.
Proof.
  unfold result, evaluateInnovation, try_catch.
  destruct (evaluate_body env idea w) as [[v|e] w']; reflexivity.
Qed.

Lemma outcome_of_body_cases b :
  is_failure (outcome_of_body b)
  \/ exists content, extract content = Normal (outcome_of_body b).
Proof.
  unfold outcome_of_body.
  destruct b as [t|e]; [|left; apply failure_is_failure].
  destruct (JSON_parse t) as [data|e]; [|left; apply failure_is_failure].
  destruct (content_of data) as [content|e]; [|left; apply failure_is_failure].
  destruct content; try (left; apply failure_is_failure).
  destruct (extract s) as [v|e] eqn:E; [|left; apply failure_is_failure].
  right. exists s. exact E.
Qed.

(** C6. Whatever the environment, the description and the provider do,
    [evaluateInnovation] resolves and no exception leaves it: an error
    thrown anywhere in the try block (no token, a network failure, a status
    that is not ok, a body that cannot be read or is not JSON, a completion
    that cannot be extracted or parsed) becomes the one failure object,
    with the strings [error] and [message] (the message of the error
    thrown) and [fallback: true]; every other result is a value the
    extractor parsed. *)
Theorem C6_no_exception_escapes env idea w :
  (exists v, result (evaluateInnovation env idea) w = Normal v
             /\ (is_failure v \/ exists content, extract content = Normal v))
  /\ (forall e w', evaluate_body env idea w = (Throw e, w') ->
        result (evaluateInnovation env idea) w
        = Normal (JObject
            [(str "error", JString (str "Failed to generate evaluation"));
             (str "message", JString (message e));
             (str "fallback", JBool true)]))
  /\ (HUGGINGFACE_API_KEY env = None \/ HUGGINGFACE_API_KEY env = Some [] ->
        result (evaluateInnovation env idea) w = Normal (failure key_error))
  /\ (forall c s, HUGGINGFACE_API_KEY env = Some (c :: s) ->
        match provider w (sent w) (request_for env (c :: s) idea) with
        | Throw e =>
            result (evaluateInnovation env idea) w = Normal (failure e)
        | Normal r =>
            if ok r then
              result (evaluateInnovation env idea) w
              = Normal (outcome_of_body (body r))
            else
              result (evaluateInnovation env idea) w
              = Normal (failure (match body r with
                                 | Normal errorText => router_error r errorText
                                 | Throw e => e
                                 end))
        end).
Proof.
  assert (Hkey : HUGGINGFACE_API_KEY env = None
                 \/ HUGGINGFACE_API_KEY env = Some [] ->
                 result (evaluateInnovation env idea) w
                 = Normal (failure key_error)).
  { intros H. apply (evaluate_no_key env idea w H). }
  assert (Hpaths : forall c s, HUGGINGFACE_API_KEY env = Some (c :: s) ->
            match provider w (sent w) (request_for env (c :: s) idea) with
            | Throw e =>
                result (evaluateInnovation env idea) w = Normal (failure e)
            | Normal r =>
                if ok r then
                  result (evaluateInnovation env idea) w
                  = Normal (outcome_of_body (body r))
                else
                  result (evaluateInnovation env idea) w
                  = Normal (failure (match body r with
                                     | Normal errorText =>
                                         router_error r errorText
                                     | Throw e => e
                                     end))
            end).
  { intros c s Hk.
    destruct (provider w (sent w) (request_for env (c :: s) idea))
      as [r|e] eqn:Hp.
    - destruct (ok r) eqn:Hok.
      + apply (evaluate_ok env idea w c s r Hk Hp Hok).
      + apply (evaluate_status env idea w c s r Hk Hp Hok).
    - apply (evaluate_network env idea w c s e Hk Hp). }
  split; [|split; [|split; assumption]].
  - destruct (HUGGINGFACE_API_KEY env) as [[|c s]|] eqn:Hk.
    + eexists. split; [apply Hkey; auto | left; apply failure_is_failure].
    + specialize (Hpaths c s eq_refl).
      destruct (provider w (sent w) (request_for env (c :: s) idea)) as [r|e].
      * destruct (ok r).
        -- eexists. split; [exact Hpaths | apply outcome_of_body_cases].
        -- eexists. split; [exact Hpaths | left; apply failure_is_failure].
      * eexists. split; [exact Hpaths | left; apply failure_is_failure].
    + eexists. split; [apply Hkey; auto | left; apply failure_is_failure].
  - intros e w' H. pose proof (try_block_caught env idea w) as T.
    rewrite H in T. exact T.
Qed.

(** C6 on an environment without a token and on a provider that cannot
    be reached. *)
Lemma C6_no_exception_escapes_witness :
  result (evaluateInnovation (Env None None None) (str "An idea"))
    (mock_world (Throw (MkError TypeError (str "fetch failed"))))
  = Normal (failure key_error)
  /\ result (evaluateInnovation (Env (Some (str "hf_token")) None None)
               (str "An idea"))
       (mock_world (Throw (MkError TypeError (str "fetch failed"))))
     = Normal (failure (MkError TypeError (str "fetch failed"))).
Proof.
  split.
  - destruct (C6_no_exception_escapes (Env None None None) (str "An idea")
                (mock_world (Throw (MkError TypeError (str "fetch failed")))))
      as (_ & _ & H & _).
    apply H. left; reflexivity.
  - destruct (C6_no_exception_escapes (Env (Some (str "hf_token")) None None)
                (str "An idea")
                (mock_world (Throw (MkError TypeError (str "fetch failed")))))
      as (_ & _ & _ & H).
    exact (H _ _ eq_refl).
Defined.

(** ** A status that is not ok *)

Lemma includes_middle a p b : includes p (a ++ p ++ b) = true.
Proof. apply includes_spec. exists a, b. reflexivity. Qed.

(** C7 (as amended). When the provider answers with a status outside 200
    to 299, one request has been sent and no second one follows, and the
    call resolves to an EvaluationFailure ([fallback: true]). When the body
    of the response can be read, the message is the router error text,
    which has the decimal status code in it; when reading the body fails,
    the message is that of the read error, whatever it says. *)
Theorem C7_status_not_ok env idea w c s r :
  HUGGINGFACE_API_KEY env = Some (c :: s) ->
  provider w (sent w) (request_for env (c :: s) idea) = Normal r ->
  ok r = false ->
  requests (evaluateInnovation env idea) w
  = sent w ++ [request_for env (c :: s) idea]
  /\ (exists v, result (evaluateInnovation env idea) w = Normal v
                /\ is_failure v
                /\ get_prop v (str "fallback") = Some (JBool true))
  /\ (forall errorText, body r = Normal errorText ->
        result (evaluateInnovation env idea) w
        = Normal (failure (router_error r errorText))
        /\ message (router_error r errorText)
           = str "Hugging Face Router error " ++ decimal (status r)
               ++ str ": " ++ errorText
        /\ includes (decimal (status r)) (message (router_error r errorText))
           = true)
  /\ (forall e, body r = Throw e ->
        result (evaluateInnovation env idea) w = Normal (failure e)
        /\ get_prop (failure e) (str "message") = Some (JString (message e))).
Proof.
  intros Hk Hp Hok.
  destruct (evaluate_status env idea w c s r Hk Hp Hok) as [Hres Hreq].
  split; [exact Hreq|]. split; [|split].
  - eexists. split; [exact Hres|]. split; [apply failure_is_failure|].
    reflexivity.
  - intros errorText Hb. rewrite Hb in Hres.
    split; [exact Hres|]. split; [reflexivity|].
    cbn [router_error message]. apply includes_middle.
  - intros e Hb. rewrite Hb in Hres. split; [exact Hres | reflexivity].
Qed.

(** C7 on end-to-end scenario 2: the provider answers 503. *)
Lemma C7_status_not_ok_witness :
  let env := Env (Some (str "hf_token")) None None in
  let idea := str "A subscription service for renting umbrellas in rainy cities." in
  let w := mock_world
             (Normal (Response 503 (Normal (str "Service Unavailable")))) in
  List.length (requests (evaluateInnovation env idea) w) = 1%nat
  /\ result (evaluateInnovation env idea) w
     = Normal (failure (MkError Error
         (str "Hugging Face Router error 503: Service Unavailable")))
  /\ includes (str "503")
       (str "Hugging Face Router error 503: Service Unavailable") = true.
Proof.
  cbv zeta.
  destruct (C7_status_not_ok (Env (Some (str "hf_token")) None None)
              (str "A subscription service for renting umbrellas in rainy cities.")
              (mock_world
                 (Normal (Response 503 (Normal (str "Service Unavailable")))))
              _ _ _ eq_refl eq_refl eq_refl) as (Hreq & _ & Hmsg & _).
  destruct (Hmsg _ eq_refl) as (Hres & _ & Hinc).
  split; [rewrite Hreq; reflexivity|].
  split; [exact Hres | exact Hinc].
Defined.

(** C7, as stated, fails when the provider answers 503 and the body of the
    response cannot be read: [response.text()] rejects before the router
    error is made, the call resolves to the EvaluationFailure with the read
    error's message, and the status code is not in it. *)
Lemma C7_counterexample :
  let env := Env (Some (str "hf_token")) None None in
  let idea := str "A subscription service for renting umbrellas in rainy cities." in
  let r := Response 503 (Throw (MkError TypeError (str "terminated"))) in
  let w := mock_world (Normal r) in
  ok r = false
  /\ List.length (requests (evaluateInnovation env idea) w) = 1%nat
  /\ result (evaluateInnovation env idea) w
     = Normal (failure (MkError TypeError (str "terminated")))
  /\ get_prop (failure (MkError TypeError (str "terminated"))) (str "fallback")
     = Some (JBool true)
  /\ get_prop (failure (MkError TypeError (str "terminated"))) (str "message")
     = Some (JString (str "terminated"))
  /\ includes (decimal 503) (str "terminated") = false.
Proof.
  cbv zeta. split; [reflexivity|]. split; [vm_compute; reflexivity|].
  split; [vm_compute; reflexivity|]. split; [reflexivity|].
  split; [reflexivity|]. vm_compute. reflexivity.
Qed.

(** ** A successful response without completion content *)

Lemma content_of_missing data :
  data <> JNull -> completion_content data = None ->
  content_of data = Normal (JString []).
Proof.
  intros Hd Hc. unfold content_of, get. unfold completion_content in Hc.
  destruct data; try congruence; rewrite Hc; reflexivity.
Qed.

Lemma extract_empty : extract [] = Throw syntax_error.
Proof. reflexivity. Qed.

(** C9 (as amended). A successful response whose JSON has no [choices],
    no [choices[0]], no [message] in it or no [content] in that. When the
    JSON is any value but the literal [null], the content is taken to be
    the empty string, on which neither pattern matches, [JSON.parse] throws
    its SyntaxError for the empty text, and the call resolves to the
    EvaluationFailure with that error's message; no TypeError for reading a
    property of undefined is raised on the way. When the JSON is [null],
    reading [data.choices] throws the TypeError of a property access, and
    the call resolves to the EvaluationFailure with that error's
    message. *)
Theorem C9_missing_content env idea w c s st txt data :
  HUGGINGFACE_API_KEY env = Some (c :: s) ->
  provider w (sent w) (request_for env (c :: s) idea)
  = Normal (Response st (Normal txt)) ->
  ok (Response st (Normal txt)) = true ->
  JSON_parse txt = Normal data ->
  completion_content data = None ->
  (data <> JNull ->
     content_of data = Normal (JString [])
     /\ jsonContent [] = []
     /\ JSON_parse [] = Throw syntax_error
     /\ kind syntax_error = SyntaxError
     /\ result (evaluateInnovation env idea) w = Normal (failure syntax_error)
     /\ is_failure (failure syntax_error))
  /\ (data = JNull ->
      content_of data = Throw (property_error (str "choices"))
      /\ kind (property_error (str "choices")) = TypeError
      /\ result (evaluateInnovation env idea) w
         = Normal (failure (property_error (str "choices")))
      /\ is_failure (failure (property_error (str "choices")))).
Proof.
  intros Hk Hp Hok Hj Hc. split.
  - intros Hd.
    pose proof (content_of_missing data Hd Hc) as Hcontent.
    split; [exact Hcontent|]. split; [reflexivity|]. split; [reflexivity|].
    split; [reflexivity|]. split; [|apply failure_is_failure].
    rewrite (evaluate_content env idea w c s st txt data [] Hk Hp Hok Hj Hcontent).
    reflexivity.
  - intros ->. split; [reflexivity|]. split; [reflexivity|].
    split; [|apply failure_is_failure].
    destruct (evaluate_ok env idea w c s _ Hk Hp Hok) as [Hr _].
    rewrite Hr. cbn [body outcome_of_body]. rewrite Hj. reflexivity.
Qed.

(** What lacking each link of the chain means for the value read. *)
Lemma completion_content_missing data :
  nullish (get_prop data (str "choices")) = true
  \/ nullish (opt_get (get_prop data (str "choices")) (str "0")) = true
  \/ nullish (opt_get (opt_get (get_prop data (str "choices")) (str "0"))
                (str "message")) = true ->
  completion_content data = None.
Proof.
  unfold completion_content.
  intros [H | [H | H]].
  - destruct (get_prop data (str "choices")) as [[]|]; try discriminate H;
      reflexivity.
  - destruct (opt_get (get_prop data (str "choices")) (str "0")) as [[]|];
      try discriminate H; reflexivity.
  - destruct (opt_get (opt_get (get_prop data (str "choices")) (str "0"))
                (str "message")) as [[]|]; try discriminate H; reflexivity.
Qed.

(** C9 on four bodies: no [choices], an empty [choices], a choice without
    [message], a message without [content]. *)
Lemma C9_missing_content_witness :
  let env := Env (Some (str "hf_token")) None None in
  let run txt :=
    result (evaluateInnovation env (str "An idea"))
      (mock_world (Normal (Response 200 (Normal txt)))) in
  run (quotes (str "{~id~: ~x~}")) = Normal (failure syntax_error)
  /\ run (quotes (str "{~choices~: []}")) = Normal (failure syntax_error)
  /\ run (quotes (str "{~choices~: [{~index~: 0}]}"))
     = Normal (failure syntax_error)
  /\ run (quotes (str "{~choices~: [{~message~: {~role~: ~assistant~}}]}"))
     = Normal (failure syntax_error).
Proof.
  cbv zeta.
  assert (H : forall txt data,
            JSON_parse txt = Normal data -> data <> JNull ->
            completion_content data = None ->
            result (evaluateInnovation (Env (Some (str "hf_token")) None None)
                      (str "An idea"))
              (mock_world (Normal (Response 200 (Normal txt))))
            = Normal (failure syntax_error)).
  { intros txt data Hj Hd Hc.
    apply (C9_missing_content (Env (Some (str "hf_token")) None None)
             (str "An idea") (mock_world (Normal (Response 200 (Normal txt))))
             _ _ 200%N txt data eq_refl eq_refl eq_refl Hj Hc).
    exact Hd. }
  split; [|split; [|split]].
  - eapply H; [vm_compute; reflexivity | discriminate | reflexivity].
  - eapply H; [vm_compute; reflexivity | discriminate | reflexivity].
  - eapply H; [vm_compute; reflexivity | discriminate | reflexivity].
  - eapply H; [vm_compute; reflexivity | discriminate | reflexivity].
Defined.

(** C9, as stated, fails on the body [null]: the response JSON lacks
    [choices], yet the content is not taken to be the empty string; reading
    [data.choices] throws the TypeError of a property access, and the
    EvaluationFailure the call resolves to carries that error's message,
    not the one of the parse step. *)
Lemma C9_counterexample :
  let env := Env (Some (str "hf_token")) None None in
  let w := mock_world (Normal (Response 200 (Normal (str "null")))) in
  JSON_parse (str "null") = Normal JNull
  /\ completion_content JNull = None
  /\ content_of JNull = Throw (property_error (str "choices"))
  /\ kind (property_error (str "choices")) = TypeError
  /\ result (evaluateInnovation env (str "An idea")) w
     = Normal (failure (property_error (str "choices")))
  /\ failure (property_error (str "choices")) <> failure syntax_error.
Proof.
  cbv zeta. split; [vm_compute; reflexivity|]. split; [reflexivity|].
  split; [reflexivity|]. split; [reflexivity|].
  split; [vm_compute; reflexivity|]. vm_compute. discriminate.
Qed.

(** ** The route *)

Lemma validate_string reqBody s :
  get_prop reqBody (str "ideaDescription") = Some (JString s) ->
  validate reqBody
  = Normal (match trim s with [] => None | _ :: _ => Some s end).
Proof.
  intros H. unfold validate, get.
  destruct reqBody; try discriminate H. rewrite H. cbn [truthy negb].
  destruct s as [|x s']; [reflexivity|]. cbn [negb].
  destruct (trim (x :: s')); reflexivity.
Qed.

(** A blank description is turned down with status 400 and the world is
    left as it was: nothing was sent, nothing was logged. *)
Lemma handle_blank env reqBody s w :
  get_prop reqBody (str "ideaDescription") = Some (JString s) ->
  trim s = [] ->
  handle_evaluate env reqBody w
  = (Normal (Reply 400
       (JObject [(str "error", JString (str "Idea description is required"))])),
     w).
Proof.
  intros Hg Ht. run_handler. rewrite (validate_string _ _ Hg), Ht.
  reflexivity.
Qed.

(** *** Serializing the reply *)

Lemma res_json_ok code v w :
  (depth v <= max_depth w)%nat ->
  res_json code v w = (Normal (Reply code v), w).
Proof.
  intros H. unfold res_json. apply Nat.leb_le in H. rewrite H. reflexivity.
Qed.

Lemma res_json_deep code v w :
  (max_depth w < depth v)%nat -> res_json code v w = (Throw stack_error, w).
Proof.
  intros H. unfold res_json. apply Nat.leb_gt in H. rewrite H. reflexivity.
Qed.

Lemma shallow_fits v w : (depth v <= shallow)%nat -> (depth v <= max_depth w)%nat.
Proof. unfold max_depth. lia. Qed.

Lemma depth_failure e : depth (failure e) = 1%nat.
Proof. reflexivity. Qed.


(** The calls of [evaluateInnovation] leave the engine as it is. *)
Lemma evaluate_stack env idea w :
  stack_room (snd (evaluateInnovation env idea w)) = stack_room w.
Proof.
  run. destruct (HUGGINGFACE_API_KEY env) as [[|c s]|];
    [reflexivity | | reflexivity].
  cbn [provider sent console stack_room].
  destruct (provider w (sent w) _) as [r|e]; [|reflexivity].
  destruct (ok r); cbn [negb].
  - destruct (body r) as [t|e]; [|reflexivity].
    destruct (JSON_parse t) as [data|e]; [|reflexivity].
    destruct (content_of data) as [content|e]; [|reflexivity].
    destruct content; try reflexivity.
    destruct (JSON_parse (jsonContent s0)); reflexivity.
  - destruct (body r) as [t|e]; reflexivity.
Qed.

(** [evaluateInnovation] resolves, whatever happens. *)
Lemma evaluate_resolves env idea w :
  exists v w',
    evaluateInnovation env idea w = (Normal v, w')
    /\ max_depth w' = max_depth w.
Proof.
  pose proof (try_block_caught env idea w) as H.
  pose proof (evaluate_stack env idea w) as Hs.
  unfold result in H.
  destruct (evaluateInnovation env idea w) as [cv w'].
  cbn [fst snd] in *.
  assert (Hm : max_depth w' = max_depth w)
    by (unfold max_depth; rewrite Hs; reflexivity).
  destruct (evaluate_body env idea w) as [[v|e] w0]; subst cv;
    eexists; eexists; (split; [reflexivity | exact Hm]).
Qed.

(** For a description with something in it the route sends what
    [evaluateInnovation] resolves to with status 200, when [res.json] can
    serialize it; when the value is nested too deep, [res.json] throws in
    the try block and the route answers 500. *)
Lemma handle_string env reqBody s w :
  get_prop reqBody (str "ideaDescription") = Some (JString s) ->
  trim s <> [] ->
  exists v w',
    evaluateInnovation env s w = (Normal v, w')
    /\ ((depth v <= max_depth w)%nat ->
        handle_evaluate env reqBody w = (Normal (Reply 200 v), w'))
    /\ ((max_depth w < depth v)%nat ->
        fst (handle_evaluate env reqBody w) = Normal (reply_500 stack_error)
        /\ sent (snd (handle_evaluate env reqBody w)) = sent w').
Proof.
  intros Hg Ht.
  destruct (evaluate_resolves env s w) as (v & w' & E & Hm).
  exists v, w'. split; [exact E|].
  split; intros Hd; run_handler; rewrite (validate_string _ _ Hg);
    (destruct (trim s) as [|x t]; [congruence|]); rewrite E.
  - rewrite res_json_ok by (rewrite Hm; exact Hd). reflexivity.
  - rewrite res_json_deep by (rewrite Hm; exact Hd).
    split; reflexivity.
Qed.

(** Whatever [evaluateInnovation] resolves to is sent with status 200, when
    [res.json] can serialize it. *)
Lemma handle_passes_on env reqBody s w v :
  get_prop reqBody (str "ideaDescription") = Some (JString s) ->
  trim s <> [] ->
  result (evaluateInnovation env s) w = Normal v ->
  (depth v <= max_depth w)%nat ->
  fst (handle_evaluate env reqBody w) = Normal (Reply 200 v).
Proof.
  intros Hg Ht Hv Hd.
  destruct (handle_string env reqBody s w Hg Ht) as (v' & w' & E & H200 & _).
  unfold result in Hv. rewrite E in Hv. cbn [fst] in Hv.
  injection Hv as ->. rewrite (H200 Hd). reflexivity.
Qed.


(** The three ways through the validation. *)
Lemma validate_cases reqBody :
  (validate reqBody = Normal None
   /\ reqBody <> JNull
   /\ (truthy (get_prop reqBody (str "ideaDescription")) = false
       \/ exists s, get_prop reqBody (str "ideaDescription") = Some (JString s)
                    /\ trim s = []))
  \/ (exists s, validate reqBody = Normal (Some s)
                /\ get_prop reqBody (str "ideaDescription") = Some (JString s)
                /\ trim s <> [])
  \/ (exists e, validate reqBody = Throw e
                /\ (reqBody = JNull
                    \/ exists v, get_prop reqBody (str "ideaDescription") = Some v
                                 /\ truthy (Some v) = true
                                 /\ forall s, v <> JString s)).
Proof.
  destruct reqBody as [|b|x|s|l|o].
  1: { right; right. eexists. split; [reflexivity | left; reflexivity]. }
  all: match goal with
       | |- context [validate ?rb] =>
           destruct (get_prop rb (str "ideaDescription")) as [v|] eqn:Hg
       end.
  all: try (left; split; [unfold validate, get; rewrite Hg; reflexivity|];
            split; [discriminate | left; reflexivity]).
  all: destruct (truthy (Some v)) eqn:Ht.
  all: try (left; split; [unfold validate, get; rewrite Hg, Ht; reflexivity|];
            split; [discriminate | left; reflexivity]).
  all: destruct v as [|b'|x'|s'|l'|o']; try discriminate Ht.
  all: try (right; right; exists trim_error;
            split; [unfold validate, get; rewrite Hg, Ht; reflexivity|];
            right; eexists; split; [reflexivity|]; split; [exact Ht|];
            discriminate).
  all: match goal with
       | |- context [validate ?rb] =>
           rewrite (validate_string rb s' Hg)
       end;
    destruct (trim s') as [|c t] eqn:E;
    [ left; split; [reflexivity|]; split; [discriminate|];
      right; exists s'; split; [reflexivity | exact E]
    | right; left; exists s'; split; [reflexivity|];
      split; [reflexivity | rewrite E; discriminate] ].
Qed.

(** Every reply of the route: what the status is and when. *)
Lemma handle_cases env reqBody w :
  (handle_evaluate env reqBody w = (Normal reply_400, w)
   /\ validate reqBody = Normal None)
  \/ (exists s v w',
        validate reqBody = Normal (Some s)
        /\ evaluateInnovation env s w = (Normal v, w')
        /\ (depth v <= max_depth w)%nat
        /\ handle_evaluate env reqBody w = (Normal (Reply 200 v), w'))
  \/ (exists s v w',
        validate reqBody = Normal (Some s)
        /\ evaluateInnovation env s w = (Normal v, w')
        /\ (max_depth w < depth v)%nat
        /\ fst (handle_evaluate env reqBody w) = Normal (reply_500 stack_error)
        /\ sent (snd (handle_evaluate env reqBody w)) = sent w')
  \/ (exists e,
        validate reqBody = Throw e
        /\ fst (handle_evaluate env reqBody w) = Normal (reply_500 e)
        /\ sent (snd (handle_evaluate env reqBody w)) = sent w).
Proof.
  destruct (validate_cases reqBody)
    as [(Hv & _ & _) | [(s & Hv & Hg & Ht) | (e & Hv & _)]].
  - left. split; [|exact Hv]. run_handler. rewrite Hv. reflexivity.
  - destruct (handle_string env reqBody s w Hg Ht)
      as (v & w' & E & H200 & H500).
    destruct (Nat.leb_spec (depth v) (max_depth w)) as [Hd|Hd].
    + right; left. exists s, v, w'. auto.
    + right; right; left. exists s, v, w'.
      destruct (H500 Hd) as [Hr Hs]. auto 6.
  - right; right; right. exists e. split; [exact Hv|].
    run_handler. rewrite Hv. split; reflexivity.
Qed.




(** ** Decimal numerals *)

Lemma digits_val_snoc ds d : digits_val (ds ++ [d]) = (10 * digits_val ds + d)%N.
Proof. unfold digits_val. rewrite fold_left_app. reflexivity. Qed.

Lemma to_digits_aux_spec fuel n acc :
  (n < 2 ^ N.of_nat fuel)%N -> (0 < fuel)%nat ->
  exists ds,
    to_digits_aux fuel n acc = ds ++ acc
    /\ digits_val ds = n
    /\ Forall (fun d => (d < 10)%N) ds
    /\ (exists i, ds = i ++ [(n mod 10)%N])
    /\ (n <> 0%N -> exists d t, ds = d :: t /\ d <> 0%N).
Proof.
  revert n acc. induction fuel as [|f IH]; intros n acc Hn Hf; [lia|].
  cbn [to_digits_aux]. destruct (N.ltb_spec n 10) as [Hlt|Hge].
  - exists [n]. split; [reflexivity|]. split; [reflexivity|].
    split; [constructor; [exact Hlt | constructor]|].
    split; [exists []; rewrite N.mod_small by exact Hlt; reflexivity|].
    intros Hz. exists n, []. auto.
  - assert (Hf' : (0 < f)%nat).
    { destruct f; [|lia]. change (2 ^ N.of_nat 1)%N with 2%N in Hn. lia. }
    assert (Hq : (n / 10 < 2 ^ N.of_nat f)%N).
    { apply N.Div0.div_lt_upper_bound.
      rewrite Nnat.Nat2N.inj_succ, N.pow_succ_r' in Hn. lia. }
    destruct (IH (n / 10)%N ((n mod 10)%N :: acc) Hq Hf')
      as (ds & E & V & A & _ & H0).
    exists (ds ++ [(n mod 10)%N]). split.
    { rewrite E, <- app_assoc. reflexivity. }
    split.
    { rewrite digits_val_snoc, V. symmetry. apply N.div_mod'. }
    split.
    { apply Forall_app. split; [exact A|]. constructor; [|constructor].
      apply N.mod_lt. discriminate. }
    split; [exists ds; reflexivity|].
    intros _. destruct H0 as (d & t & -> & Hd).
    { intros Hz. apply N.div_small_iff in Hz; [lia | discriminate]. }
    exists d, (t ++ [(n mod 10)%N]). auto.
Qed.

Lemma to_digits_spec n :
  digits_val (to_digits n) = n
  /\ Forall (fun d => (d < 10)%N) (to_digits n)
  /\ (exists i, to_digits n = i ++ [(n mod 10)%N])
  /\ (n <> 0%N -> exists d t, to_digits n = d :: t /\ d <> 0%N).
Proof.
  unfold to_digits.
  destruct (to_digits_aux_spec (S (N.to_nat (N.log2 n))) n [])
    as (ds & E & H).
  - rewrite Nnat.Nat2N.inj_succ, Nnat.N2Nat.id.
    destruct (N.eq_dec n 0) as [->|Hn]; [reflexivity|].
    apply N.log2_spec. lia.
  - lia.
  - rewrite E, app_nil_r. exact H.
Qed.

Lemma isDigit_char d : (d < 10)%N -> isDigit (digit_char d) = true.
Proof.
  intros H. unfold isDigit, digit_char.
  apply andb_true_iff. split; apply N.leb_le; lia.
Qed.

Lemma digit_char_val d : (digit_char d - 48)%N = d.
Proof. unfold digit_char. lia. Qed.

Lemma span_digits_chars ds rest :
  Forall (fun d => (d < 10)%N) ds -> nondigit rest ->
  span_digits (map digit_char ds ++ rest) = (ds, rest).
Proof.
  intros H Hr. induction H as [|d ds Hd _ IH]; cbn [map app].
  - destruct rest as [|c rest]; [reflexivity|]. cbn [span_digits].
    cbn [nondigit] in Hr. rewrite Hr. reflexivity.
  - cbn [span_digits]. rewrite (isDigit_char _ Hd), IH, digit_char_val.
    reflexivity.
Qed.

(** ** Number literals read back *)

Lemma delimited_cases rest :
  delimited rest = true ->
  rest = [] \/ exists c t, rest = c :: t /\ (c = 44 \/ c = 93 \/ c = 125)%N.
Proof.
  destruct rest as [|c t]; [auto|]. cbn [delimited]. intros H. right.
  exists c, t. split; [reflexivity|].
  apply orb_true_iff in H as [H|H]; [apply orb_true_iff in H as [H|H]|];
    apply N.eqb_eq in H; auto.
Qed.

Lemma delimited_nondigit rest : delimited rest = true -> nondigit rest.
Proof.
  intros H. destruct (delimited_cases _ H) as [-> | (c & t & -> & [-> | [-> | ->] ])];
    reflexivity.
Qed.

Lemma lex_frac_none rest :
  delimited rest = true -> lex_frac rest = Some ([], rest).
Proof.
  intros H. destruct (delimited_cases _ H) as [-> | (c & t & -> & [-> | [-> | ->] ])];
    reflexivity.
Qed.

Lemma lex_exp_none rest :
  delimited rest = true -> lex_exp rest = Some (0%Z, rest).
Proof.
  intros H. destruct (delimited_cases _ H) as [-> | (c & t & -> & [-> | [-> | ->] ])];
    reflexivity.
Qed.

Lemma lex_int_chars d t rest :
  d <> 0%N -> Forall (fun d => (d < 10)%N) (d :: t) -> nondigit rest ->
  lex_int (map digit_char (d :: t) ++ rest) = Some (d :: t, rest).
Proof.
  intros Hd H Hr. inversion H as [|? ? Hd10 Ht]; subst.
  cbn [map app lex_int].
  destruct (N.eqb_spec (digit_char d) 48) as [E|_];
    [unfold digit_char in E; lia|].
  rewrite (isDigit_char _ Hd10), (span_digits_chars _ _ Ht Hr), digit_char_val.
  reflexivity.
Qed.

Lemma lex_frac_chars fs rest :
  fs <> [] -> Forall (fun d => (d < 10)%N) fs -> nondigit rest ->
  lex_frac (46%N :: map digit_char fs ++ rest) = Some (fs, rest).
Proof.
  intros Hne H Hr. cbn [lex_frac N.eqb Pos.eqb].
  rewrite (span_digits_chars _ _ H Hr).
  destruct fs; [congruence | reflexivity].
Qed.

Lemma lex_exp_chars (minus : bool) es rest :
  es <> [] -> Forall (fun d => (d < 10)%N) es -> nondigit rest ->
  lex_exp (101%N :: (if minus then 45%N else 43%N) :: map digit_char es ++ rest)
  = Some (if minus then (- Z.of_N (digits_val es))%Z
          else Z.of_N (digits_val es), rest).
Proof.
  intros Hne H Hr. cbn [lex_exp N.eqb Pos.eqb orb].
  destruct minus; cbn [N.eqb Pos.eqb];
    rewrite (span_digits_chars _ _ H Hr); destruct es; congruence.
Qed.

Lemma rev_repeat (x : N) n : rev (repeat x n) = repeat x n.
Proof.
  induction n as [|n IH]; [reflexivity|].
  cbn [repeat rev]. rewrite IH. symmetry. apply repeat_cons.
Qed.

Lemma drop_zeros_repeat j d t :
  d <> 0%N -> drop_zeros (repeat 0%N j ++ d :: t) = d :: t.
Proof.
  intros Hd. induction j as [|j IH]; cbn [repeat app drop_zeros].
  - destruct (N.eqb_spec d 0); [congruence | reflexivity].
  - exact IH.
Qed.

Lemma digits_val_zeros j ds : digits_val (repeat 0%N j ++ ds) = digits_val ds.
Proof.
  unfold digits_val. rewrite fold_left_app. f_equal.
  induction j as [|j IH]; [reflexivity | exact IH].
Qed.

(** Zeros before the digits and after them do not change the mantissa;
    those after them go into the exponent. *)
Lemma mk_number_normal sign lead i d j e :
  d <> 0%N ->
  mk_number sign (repeat 0%N lead ++ (i ++ [d]) ++ repeat 0%N j) e
  = Num sign (digits_val (i ++ [d])) (e + Z.of_nat j).
Proof.
  intros Hd. unfold mk_number.
  assert (S : rev (drop_zeros (rev (repeat 0%N lead ++ (i ++ [d])
                                       ++ repeat 0%N j)))
              = repeat 0%N lead ++ i ++ [d]).
  { rewrite !rev_app_distr, rev_repeat. cbn [rev app].
    rewrite <- !app_assoc. cbn [app].
    rewrite (drop_zeros_repeat _ _ _ Hd).
    change (d :: rev i ++ rev (repeat 0%N lead))
      with ((d :: rev i) ++ rev (repeat 0%N lead)).
    rewrite rev_app_distr, rev_involutive. cbn [rev].
    rewrite rev_involutive. reflexivity. }
  rewrite S, digits_val_zeros.
  assert (V : digits_val (i ++ [d]) <> 0%N) by (rewrite digits_val_snoc; lia).
  destruct (N.eqb_spec (digits_val (i ++ [d])) 0) as [E|_]; [congruence|].
  f_equal. f_equal. rewrite !length_app, !repeat_length. cbn [List.length].
  lia.
Qed.

Lemma mk_number_digits sign i d e :
  d <> 0%N -> mk_number sign (i ++ [d]) e = Num sign (digits_val (i ++ [d])) e.
Proof.
  intros Hd.
  pose proof (mk_number_normal sign 0 i d 0 e Hd) as H.
  cbn [repeat app] in H. rewrite app_nil_r in H. rewrite H.
  f_equal. cbn. lia.
Qed.

Lemma firstn_cons_pos (m : nat) (d : N) t :
  (0 < m)%nat -> firstn m (d :: t) = d :: firstn (m - 1) t.
Proof.
  destruct m as [|p]; [lia|]. intros _. cbn [firstn].
  replace (S p - 1)%nat with p by lia. reflexivity.
Qed.

Lemma Forall_repeat_zero j : Forall (fun d => (d < 10)%N) (repeat 0%N j).
Proof. induction j; constructor; [reflexivity | assumption]. Qed.

Lemma zeros_chars j : zeros j = map digit_char (repeat 0%N j).
Proof. unfold zeros. rewrite map_repeat. reflexivity. Qed.

Lemma lex_number_sign (sgn : bool) c body :
  c <> 45%N ->
  lex_number ((if sgn then [45%N] else []) ++ c :: body)
  = lex_unsigned sgn (c :: body).
Proof.
  intros Hc. unfold lex_number. destruct sgn; cbn [app lex_sign].
  - reflexivity.
  - destruct (N.eqb_spec c 45); [congruence | reflexivity].
Qed.

(** A number in normal form, written by [Number::toString], is read back
    by the lexer as the same number. *)
Lemma lex_unsigned_toString sgn mnt ex rest :
  mnt <> 0%N -> (mnt mod 10 <> 0)%N -> delimited rest = true ->
  exists c body,
    Number_toString (Num sgn mnt ex)
    = (if sgn then [45%N] else []) ++ c :: body
    /\ isDigit c = true
    /\ lex_unsigned sgn ((c :: body) ++ rest) = Some (Num sgn mnt ex, rest).
Proof.
  intros Hm Hm10 Hrest.
  destruct (to_digits_spec mnt) as (HV & HF & (i & Hi) & H0).
  destruct (H0 Hm) as (d0 & t & Hd & Hd0).
  pose proof (delimited_nondigit _ Hrest) as Hnd.
  assert (Hd10 : (d0 < 10)%N /\ Forall (fun d => (d < 10)%N) t).
  { rewrite Hd in HF. inversion HF; auto. }
  destruct Hd10 as [Hd10 HFt].
  assert (Hc0 : isDigit (digit_char d0) = true) by (apply isDigit_char, Hd10).
  unfold Number_toString. cbn [mant neg exp10].
  destruct (N.eqb_spec mnt 0) as [|_]; [congruence|].
  set (k := Z.of_nat (List.length (map digit_char (to_digits mnt)))).
  assert (Hk : k = Z.of_nat (List.length (to_digits mnt)))
    by (subst k; rewrite length_map; reflexivity).
  set (n := (k + ex)%Z).
  destruct ((k <=? n) && (n <=? 21))%Z eqn:CA.
  { (* digits and zeros *)
    apply andb_true_iff in CA as [C1 C2].
    apply Z.leb_le in C1. apply Z.leb_le in C2.
    exists (digit_char d0),
      (map digit_char t ++ zeros (Z.to_nat (n - k))).
    split; [rewrite Hd; reflexivity|]. split; [exact Hc0|].
    unfold lex_unsigned.
    replace ((digit_char d0 :: map digit_char t ++ zeros (Z.to_nat (n - k)))
               ++ rest)
      with (map digit_char (d0 :: t ++ repeat 0%N (Z.to_nat (n - k))) ++ rest)
      by (cbn [map app]; rewrite map_app, zeros_chars; reflexivity).
    rewrite lex_int_chars; [|exact Hd0| |exact Hnd].
    2:{ constructor; [exact Hd10|]. apply Forall_app. split;
          [exact HFt | apply Forall_repeat_zero]. }
    rewrite (lex_frac_none _ Hrest), (lex_exp_none _ Hrest), app_nil_r.
    change (d0 :: t ++ repeat 0%N (Z.to_nat (n - k)))
      with ((d0 :: t) ++ repeat 0%N (Z.to_nat (n - k))).
    rewrite <- Hd, Hi.
    pose proof (mk_number_normal sgn 0 i (mnt mod 10)%N (Z.to_nat (n - k))
                  (0 - Z.of_nat (@List.length N []))%Z Hm10) as M.
    cbn [repeat app] in M. rewrite M, <- Hi, HV.
    do 3 f_equal. cbn [List.length]. subst n. lia. }
  destruct ((0 <? n) && (n <=? 21))%Z eqn:CB.
  { (* a point inside the digits *)
    apply andb_true_iff in CB as [C1 C2].
    apply Z.ltb_lt in C1. apply Z.leb_le in C2.
    assert (Hnk : (n < k)%Z).
    { apply andb_false_iff in CA as [C|C];
        [apply Z.leb_gt in C; exact C | apply Z.leb_gt in C; lia]. }
    set (n' := Z.to_nat n).
    assert (Hn' : (0 < n' < List.length (to_digits mnt))%nat) by lia.
    assert (Hfirst : firstn n' (to_digits mnt) = d0 :: firstn (n' - 1) t).
    { rewrite Hd. apply firstn_cons_pos. lia. }
    assert (HFs : Forall (fun d => (d < 10)%N) (firstn n' (to_digits mnt))
                  /\ Forall (fun d => (d < 10)%N) (skipn n' (to_digits mnt))).
    { apply Forall_app. rewrite firstn_skipn. exact HF. }
    destruct HFs as [HF1 HF2].
    assert (Hskip : skipn n' (to_digits mnt) <> []).
    { intros E. apply (f_equal (@List.length N)) in E.
      rewrite length_skipn in E. cbn [List.length] in E. lia. }
    exists (digit_char d0),
      (map digit_char (firstn (n' - 1) t) ++ [46%N]
         ++ map digit_char (skipn n' (to_digits mnt))).
    split.
    { rewrite firstn_map, skipn_map. fold n'. rewrite Hfirst.
      destruct sgn; reflexivity. }
    split; [exact Hc0|]. unfold lex_unsigned.
    replace ((digit_char d0 :: map digit_char (firstn (n' - 1) t) ++ [46%N]
                ++ map digit_char (skipn n' (to_digits mnt))) ++ rest)
      with (map digit_char (d0 :: firstn (n' - 1) t)
              ++ 46%N :: map digit_char (skipn n' (to_digits mnt)) ++ rest)
      by (cbn [map app]; rewrite <- ?app_assoc; reflexivity).
    rewrite lex_int_chars; [|exact Hd0|rewrite <- Hfirst; exact HF1|reflexivity].
    rewrite (lex_frac_chars _ _ Hskip HF2 Hnd), (lex_exp_none _ Hrest).
    rewrite <- Hfirst, firstn_skipn, Hi, (mk_number_digits _ _ _ _ Hm10).
    rewrite <- Hi, HV. do 3 f_equal. rewrite length_skipn. subst n' n. lia. }
  destruct ((-6 <? n) && (n <=? 0))%Z eqn:CC.
  { (* zero, a point, zeros and the digits *)
    apply andb_true_iff in CC as [C1 C2].
    apply Z.ltb_lt in C1. apply Z.leb_le in C2.
    exists 48%N,
      (46%N :: zeros (Z.to_nat (- n)) ++ map digit_char (to_digits mnt)).
    split; [destruct sgn; reflexivity|]. split; [reflexivity|].
    unfold lex_unsigned.
    replace ((48%N :: 46%N :: zeros (Z.to_nat (- n))
                ++ map digit_char (to_digits mnt)) ++ rest)
      with (48%N :: 46%N :: map digit_char
              (repeat 0%N (Z.to_nat (- n)) ++ to_digits mnt) ++ rest)
      by (cbn [app]; rewrite map_app, zeros_chars, <- app_assoc; reflexivity).
    cbn [lex_int N.eqb Pos.eqb].
    rewrite lex_frac_chars; [| |apply Forall_app; split;
                                 [apply Forall_repeat_zero | exact HF]|exact Hnd].
    2:{ rewrite Hd. intros E. apply app_eq_nil in E as [_ E]. discriminate E. }
    rewrite (lex_exp_none _ Hrest).
    change ([0%N] ++ repeat 0%N (Z.to_nat (- n)) ++ to_digits mnt)
      with (repeat 0%N (S (Z.to_nat (- n))) ++ to_digits mnt).
    rewrite Hi.
    pose proof (mk_number_normal sgn (S (Z.to_nat (- n))) i (mnt mod 10)%N 0
                  (0 - Z.of_nat (List.length
                     (repeat 0%N (Z.to_nat (- n)) ++ i ++ [(mnt mod 10)%N])))%Z
                  Hm10) as M.
    cbn [repeat] in M. rewrite app_nil_r in M. cbn [repeat]. rewrite M.
    rewrite <- Hi, HV. do 3 f_equal.
    rewrite length_app, repeat_length. subst n. lia. }
  (* exponential notation *)
  set (e := (n - 1)%Z).
  assert (He : (21 <= e \/ e <= -7)%Z).
  { apply andb_false_iff in CA. apply andb_false_iff in CB.
    apply andb_false_iff in CC.
    assert (1 <= k)%Z by (rewrite Hk, Hd; cbn [List.length]; lia).
    subst e n.
    destruct CA as [C|C]; apply Z.leb_gt in C;
      destruct CB as [C'|C']; [apply Z.ltb_ge in C'|apply Z.leb_gt in C'
                              |apply Z.ltb_ge in C'|apply Z.leb_gt in C'];
      destruct CC as [C''|C'']; [apply Z.ltb_ge in C''|apply Z.leb_gt in C''
                                |apply Z.ltb_ge in C''|apply Z.leb_gt in C''
                                |apply Z.ltb_ge in C''|apply Z.leb_gt in C''
                                |apply Z.ltb_ge in C''|apply Z.leb_gt in C''];
      lia. }
  destruct (to_digits_spec (Z.to_N (Z.abs e))) as (EV & EF & (ei & Hei) & _).
  assert (Hene : to_digits (Z.to_N (Z.abs e)) <> []).
  { rewrite Hei. intros E. apply app_eq_nil in E as [_ E]. discriminate E. }
  set (minus := (e <? 0)%Z).
  assert (Hsign : (if minus then [45%N] else [43%N])
                  = [if minus then 45%N else 43%N]) by (destruct minus; reflexivity).
  assert (Hexp : (if minus then (- Z.of_N (digits_val (to_digits (Z.to_N (Z.abs e)))))%Z
                  else Z.of_N (digits_val (to_digits (Z.to_N (Z.abs e))))) = e).
  { rewrite EV. subst minus. destruct (Z.ltb_spec e 0); lia. }
  rewrite Hd. cbn [map]. unfold decimal. rewrite Hsign.
  destruct t as [|d1 t'].
  - exists (digit_char d0),
      ([101%N] ++ [if minus then 45%N else 43%N]
         ++ map digit_char (to_digits (Z.to_N (Z.abs e)))).
    split; [destruct sgn; reflexivity|]. split; [exact Hc0|].
    unfold lex_unsigned.
    replace ((digit_char d0 :: [101%N] ++ [if minus then 45%N else 43%N]
                ++ map digit_char (to_digits (Z.to_N (Z.abs e)))) ++ rest)
      with (map digit_char [d0]
              ++ 101%N :: (if minus then 45%N else 43%N)
                   :: map digit_char (to_digits (Z.to_N (Z.abs e))) ++ rest)
      by (cbn [map app]; rewrite <- ?app_assoc; reflexivity).
    rewrite lex_int_chars; [|exact Hd0|constructor; [exact Hd10|constructor]
                            |reflexivity].
    cbn [lex_frac N.eqb Pos.eqb].
    rewrite (lex_exp_chars minus _ _ Hene EF Hnd), Hexp.
    cbn [app List.length]. rewrite Hd in Hi.
    assert (Hi' : [d0] = [] ++ [(mnt mod 10)%N]).
    { destruct i as [|a [|b i']]; cbn [app] in Hi.
      - exact Hi.
      - discriminate Hi.
      - discriminate Hi. }
    rewrite Hi', (mk_number_digits _ _ _ _ Hm10), <- Hi'.
    rewrite Hd in HV. rewrite HV. do 3 f_equal.
    subst e n. rewrite Hk, Hd. cbn [List.length]. lia.
  - exists (digit_char d0),
      ([46%N] ++ map digit_char (d1 :: t') ++ [101%N]
         ++ [if minus then 45%N else 43%N]
         ++ map digit_char (to_digits (Z.to_N (Z.abs e)))).
    split; [destruct sgn; reflexivity|]. split; [exact Hc0|].
    unfold lex_unsigned.
    replace ((digit_char d0 :: [46%N] ++ map digit_char (d1 :: t') ++ [101%N]
                ++ [if minus then 45%N else 43%N]
                ++ map digit_char (to_digits (Z.to_N (Z.abs e)))) ++ rest)
      with (map digit_char [d0]
              ++ 46%N :: map digit_char (d1 :: t')
                   ++ 101%N :: (if minus then 45%N else 43%N)
                        :: map digit_char (to_digits (Z.to_N (Z.abs e)))
                        ++ rest)
      by (cbn [map app]; rewrite <- ?app_assoc; reflexivity).
    rewrite lex_int_chars; [|exact Hd0|constructor; [exact Hd10|constructor]
                            |reflexivity].
    rewrite lex_frac_chars; [|discriminate|exact HFt|reflexivity].
    rewrite (lex_exp_chars minus _ _ Hene EF Hnd), Hexp.
    change ([d0] ++ d1 :: t') with (d0 :: d1 :: t').
    rewrite <- Hd, Hi, (mk_number_digits _ _ _ _ Hm10), <- Hi, HV.
    do 3 f_equal. subst e n. rewrite Hk, Hd. cbn [List.length]. lia.
Qed.

(** ** String literals read back *)

Lemma hexval_hexdigit n : (n < 16)%N -> hexval (hexdigit n) = Some n.
Proof.
  intros H. unfold hexdigit, hexval.
  destruct (N.ltb_spec n 10) as [L|L].
  - replace ((48 <=? 48 + n) && (48 + n <=? 57))%N with true
      by (symmetry; apply andb_true_iff; split; apply N.leb_le; lia).
    f_equal. lia.
  - replace ((48 <=? 87 + n) && (87 + n <=? 57))%N with false
      by (symmetry; apply andb_false_iff; right; apply N.leb_gt; lia).
    replace ((65 <=? 87 + n) && (87 + n <=? 70))%N with false
      by (symmetry; apply andb_false_iff; right; apply N.leb_gt; lia).
    replace ((97 <=? 87 + n) && (87 + n <=? 102))%N with true
      by (symmetry; apply andb_true_iff; split; apply N.leb_le; lia).
    f_equal. lia.
Qed.

Lemma hex_digits c :
  (c < 65536)%N ->
  (c / 4096 < 16
   /\ 4096 * (c / 4096) + 256 * ((c / 256) mod 16) + 16 * ((c / 16) mod 16)
      + c mod 16 = c)%N.
Proof.
  intros H. split; zify; Z.to_euclidean_division_equations; lia.
Qed.

Lemma lex_string_escape c tl :
  (c < 65536)%N ->
  lex_string (UnicodeEscape c ++ tl) = cons_fst c (lex_string tl).
Proof.
  intros H. destruct (hex_digits c H) as [H1 H2].
  unfold UnicodeEscape. cbn [app lex_string N.eqb Pos.eqb].
  rewrite (hexval_hexdigit _ H1).
  rewrite !hexval_hexdigit by (apply N.mod_lt; discriminate).
  rewrite H2. reflexivity.
Qed.

Lemma lex_string_literal c tl :
  c <> 34%N -> c <> 92%N -> (32 <= c)%N ->
  lex_string (c :: tl) = cons_fst c (lex_string tl).
Proof.
  intros H1 H2 H3. cbn [lex_string].
  destruct (N.eqb_spec c 34); [congruence|].
  destruct (N.eqb_spec c 92); [congruence|].
  destruct (N.ltb_spec c 32); [lia | reflexivity].
Qed.

Lemma lex_string_quote s rest :
  lex_string (quote_chars s ++ 34%N :: rest) = Some (s, rest).
Proof.
  assert (G : forall n s, (List.length s <= n)%nat ->
            lex_string (quote_chars s ++ 34%N :: rest) = Some (s, rest)).
  { clear s. induction n as [|n IH]; intros s Hn.
    - destruct s; [reflexivity | simpl in Hn; lia].
    - destruct s as [|c s']; [reflexivity|]. cbn [List.length] in Hn.
      assert (IH' : lex_string (quote_chars s' ++ 34%N :: rest)
                    = Some (s', rest)) by (apply IH; lia).
      cbn [quote_chars].
      destruct (N.eqb_spec c 8) as [->|N8].
      { cbn [app lex_string N.eqb Pos.eqb unescape]. rewrite IH'. reflexivity. }
      destruct (N.eqb_spec c 9) as [->|N9].
      { cbn [app lex_string N.eqb Pos.eqb unescape]. rewrite IH'. reflexivity. }
      destruct (N.eqb_spec c 10) as [->|N10].
      { cbn [app lex_string N.eqb Pos.eqb unescape]. rewrite IH'. reflexivity. }
      destruct (N.eqb_spec c 12) as [->|N12].
      { cbn [app lex_string N.eqb Pos.eqb unescape]. rewrite IH'. reflexivity. }
      destruct (N.eqb_spec c 13) as [->|N13].
      { cbn [app lex_string N.eqb Pos.eqb unescape]. rewrite IH'. reflexivity. }
      destruct (N.eqb_spec c 34) as [->|N34].
      { cbn [app lex_string N.eqb Pos.eqb unescape]. rewrite IH'. reflexivity. }
      destruct (N.eqb_spec c 92) as [->|N92].
      { cbn [app lex_string N.eqb Pos.eqb unescape]. rewrite IH'. reflexivity. }
      destruct (N.ltb_spec c 32) as [L32|G32].
      { rewrite <- app_assoc, lex_string_escape by lia.
        rewrite IH'. reflexivity. }
      unfold isLeadingSurrogate, isTrailingSurrogate.
      destruct ((55296 <=? c) && (c <=? 56319))%N eqn:Lead.
      { apply andb_true_iff in Lead as [L1 L2].
        apply N.leb_le in L1. apply N.leb_le in L2.
        destruct s' as [|d s2].
        - rewrite lex_string_escape by lia. reflexivity.
        - destruct ((56320 <=? d) && (d <=? 57343))%N eqn:Trail.
          + apply andb_true_iff in Trail as [T1 T2].
            apply N.leb_le in T1. apply N.leb_le in T2.
            cbn [app]. rewrite lex_string_literal by lia.
            rewrite lex_string_literal by lia.
            rewrite IH by (cbn [List.length] in Hn; lia). reflexivity.
          + rewrite <- app_assoc, lex_string_escape by lia.
            rewrite IH'. reflexivity. }
      destruct ((56320 <=? c) && (c <=? 57343))%N eqn:Trail.
      { apply andb_true_iff in Trail as [T1 T2].
        apply N.leb_le in T1. apply N.leb_le in T2.
        rewrite <- app_assoc, lex_string_escape by lia.
        rewrite IH'. reflexivity. }
      cbn [app]. rewrite lex_string_literal by assumption.
      rewrite IH'. reflexivity. }
  exact (G (List.length s) s (Nat.le_refl _)).
Qed.

(** ** The JSON parser: more fuel changes nothing *)

Lemma parse_more_fuel f :
  (forall s, parse_value f s <> OutOfFuel ->
     parse_value (S f) s = parse_value f s)
  /\ (forall acc s, parse_elements f acc s <> OutOfFuel ->
        parse_elements (S f) acc s = parse_elements f acc s)
  /\ (forall acc s, parse_members f acc s <> OutOfFuel ->
        parse_members (S f) acc s = parse_members f acc s).
Proof.
  induction f as [|f (IHv & IHe & IHm)];
    [repeat split; intros; cbn in *; congruence|].
  split; [|split].
  - intros s. cbn [parse_value].
    destruct s as [|c s']; [reflexivity|].
    destruct (c =? 123)%N.
    { destruct (skip_ws s') as [|c' r0]; [apply IHm|].
      destruct (c' =? 125)%N; [reflexivity | apply IHm]. }
    destruct (c =? 91)%N.
    { destruct (skip_ws s') as [|c' r0]; [apply IHe|].
      destruct (c' =? 93)%N; [reflexivity | apply IHe]. }
    reflexivity.
  - intros acc s. cbn [parse_elements].
    destruct (parse_value f (skip_ws s)) as [v r| |] eqn:V.
    + rewrite (IHv (skip_ws s)), V by (rewrite V; discriminate).
      destruct (skip_ws r) as [|c r']; [reflexivity|].
      destruct (c =? 44)%N; [apply IHe | reflexivity].
    + rewrite (IHv (skip_ws s)), V by (rewrite V; discriminate). reflexivity.
    + congruence.
  - intros acc s. cbn [parse_members].
    destruct (skip_ws s) as [|c s1]; [reflexivity|].
    destruct (c =? 34)%N; [|reflexivity].
    destruct (lex_string s1) as [[key s2]|]; [|reflexivity].
    destruct (skip_ws s2) as [|c2 s3]; [reflexivity|].
    destruct (c2 =? 58)%N; [|reflexivity].
    destruct (parse_value f (skip_ws s3)) as [v r| |] eqn:V.
    + rewrite (IHv (skip_ws s3)), V by (rewrite V; discriminate).
      destruct (skip_ws r) as [|c3 r']; [reflexivity|].
      destruct (c3 =? 44)%N; [apply IHm | reflexivity].
    + rewrite (IHv (skip_ws s3)), V by (rewrite V; discriminate). reflexivity.
    + congruence.
Qed.

Lemma parse_value_more_fuel f f' s :
  parse_value f s <> OutOfFuel -> (f <= f')%nat ->
  parse_value f' s = parse_value f s.
Proof.
  intros H Hle. induction Hle as [|g _ IH]; [reflexivity|].
  rewrite <- IH. apply (proj1 (parse_more_fuel g)). rewrite IH. exact H.
Qed.

(** ** Values read back *)

Lemma stringify_array l :
  JSON_stringify (JArray l) = 91%N :: elements_text l ++ [93%N].
Proof.
  reflexivity.
Qed.

Lemma stringify_object o :
  JSON_stringify (JObject o) = 123%N :: members_text o ++ [125%N].
Proof.
  reflexivity.
Qed.

Lemma isDigit_range c : isDigit c = true -> (48 <= c <= 57)%N.
Proof.
  unfold isDigit. intros H. apply andb_true_iff in H as [H1 H2].
  apply N.leb_le in H1. apply N.leb_le in H2. lia.
Qed.

(** The text of a number in normal form, and how it is read. *)
Lemma number_text x rest :
  wf_number x = true -> delimited rest = true ->
  exists c t,
    Number_toString x = c :: t
    /\ (c = 45%N \/ isDigit c = true)
    /\ lex_number (Number_toString x ++ rest) = Some (x, rest).
Proof.
  intros Hwf Hrest. destruct x as [sgn mnt ex].
  unfold wf_number in Hwf. cbn [mant neg exp10] in Hwf.
  destruct (N.eqb_spec mnt 0) as [->|Hm].
  - apply andb_true_iff in Hwf as [Hs He]. apply Z.eqb_eq in He. subst ex.
    destruct sgn; [discriminate Hs|].
    exists 48%N, []. split; [reflexivity|]. split; [right; reflexivity|].
    change (Number_toString (Num false 0 0) ++ rest) with (48%N :: rest).
    unfold lex_number, lex_unsigned. cbn [lex_sign lex_int N.eqb Pos.eqb].
    rewrite (lex_frac_none _ Hrest), (lex_exp_none _ Hrest). reflexivity.
  - assert (Hm10 : (mnt mod 10 <> 0)%N).
    { destruct (N.eqb_spec (mnt mod 10) 0); [discriminate Hwf | assumption]. }
    destruct (lex_unsigned_toString sgn mnt ex rest Hm Hm10 Hrest)
      as (c & body & Htext & Hc & Hlex).
    assert (Hc45 : c <> 45%N) by (apply isDigit_range in Hc; lia).
    rewrite Htext. cbn [app] in Hlex. destruct sgn.
    + exists 45%N, (c :: body). split; [reflexivity|]. split; [auto|].
      cbn [app].
      rewrite <- (lex_number_sign true c (body ++ rest) Hc45) in Hlex.
      exact Hlex.
    + exists c, body. split; [reflexivity|]. split; [auto|].
      cbn [app].
      rewrite <- (lex_number_sign false c (body ++ rest) Hc45) in Hlex.
      exact Hlex.
Qed.

Lemma parse_value_number f c t :
  c = 45%N \/ isDigit c = true ->
  parse_value (S f) (c :: t) =
  match lex_number (c :: t) with
  | Some (n, r) => Parsed (JNumber n) r
  | None => SyntaxErr
  end.
Proof.
  intros [->|H]; [reflexivity|].
  apply isDigit_range in H. cbn [parse_value].
  destruct (N.eqb_spec c 123); [lia|]. destruct (N.eqb_spec c 91); [lia|].
  destruct (N.eqb_spec c 34); [lia|].
  cbn [str starts_with code].
  destruct (N.eqb_spec (code "t"%char) c) as [E|_];
    [vm_compute in E; lia|].
  destruct (N.eqb_spec (code "f"%char) c) as [E|_];
    [vm_compute in E; lia|].
  destruct (N.eqb_spec (code "n"%char) c) as [E|_];
    [vm_compute in E; lia|].
  reflexivity.
Qed.

Lemma stringify_starts v : wf_json v = true -> starts_value (JSON_stringify v).
Proof.
  intros Hwf. destruct v as [|[|]|x|s|l|o].
  - exists (code "n"), (str "ull"). repeat split; discriminate.
  - exists (code "t"), (str "rue"). repeat split; discriminate.
  - exists (code "f"), (str "alse"). repeat split; discriminate.
  - destruct (number_text x [] Hwf eq_refl) as (c & t & E & Hc & _).
    exists c, t. split; [exact E|].
    destruct Hc as [->|Hc]; [repeat split; discriminate|].
    apply isDigit_range in Hc. unfold isJSONSpace.
    repeat split; try lia.
    destruct (N.eqb_spec c 9); [lia|]. destruct (N.eqb_spec c 10); [lia|].
    destruct (N.eqb_spec c 13); [lia|]. destruct (N.eqb_spec c 32); [lia|].
    reflexivity.
  - exists 34%N, (quote_chars s ++ [34%N]). repeat split; discriminate.
  - rewrite stringify_array. exists 91%N, (elements_text l ++ [93%N]).
    repeat split; discriminate.
  - rewrite stringify_object. exists 123%N, (members_text o ++ [125%N]).
    repeat split; discriminate.
Qed.

Lemma skip_ws_value text rest :
  starts_value text -> skip_ws (text ++ rest) = text ++ rest.
Proof.
  intros (c & t & -> & Hc & _). cbn [app skip_ws]. rewrite Hc. reflexivity.
Qed.

Lemma reads_back_scalar_null : reads_back JNull.
Proof. intros _. exists 1%nat. intros [|f] rest Hf _; [lia | reflexivity]. Qed.

Lemma reads_back_bool b : reads_back (JBool b).
Proof.
  intros _. exists 1%nat. intros [|f] rest Hf _; [lia|].
  destruct b; reflexivity.
Qed.

Lemma reads_back_number x : reads_back (JNumber x).
Proof.
  intros Hwf. exists 1%nat. intros [|f] rest Hf Hrest; [lia|].
  cbn [wf_json] in Hwf. cbn [JSON_stringify].
  destruct (number_text x rest Hwf Hrest) as (c & t & E & Hc & Hlex).
  rewrite E in *. cbn [app] in *.
  rewrite (parse_value_number f c (t ++ rest) Hc), Hlex. reflexivity.
Qed.

Lemma reads_back_string s : reads_back (JString s).
Proof.
  intros _. exists 1%nat. intros [|f] rest Hf _; [lia|].
  cbn [JSON_stringify QuoteJSONString app parse_value N.eqb Pos.eqb].
  rewrite <- app_assoc. cbn [app]. rewrite lex_string_quote. reflexivity.
Qed.

(** The elements of an array, after the bracket or a comma. *)
Lemma reads_back_elements l :
  Forall reads_back l -> forallb wf_json l = true -> l <> [] ->
  exists f0, forall f acc rest,
    (f0 <= f)%nat ->
    parse_elements f acc (elements_text l ++ 93%N :: rest)
    = Parsed (JArray (acc ++ l)) rest.
Proof.
  intros HP. induction HP as [|x l Hx Hl IH]; intros Hwf Hne; [congruence|].
  cbn [forallb] in Hwf. apply andb_true_iff in Hwf as [Hwx Hwl].
  destruct (Hx Hwx) as [fx Hfx].
  pose proof (stringify_starts x Hwx) as Hsx.
  destruct l as [|y l'].
  - exists (S fx). intros [|f] acc rest Hf; [lia|].
    cbn [elements_text parse_elements]. rewrite app_nil_r.
    rewrite (skip_ws_value _ _ Hsx), (Hfx f (93%N :: rest)) by (lia || reflexivity).
    reflexivity.
  - destruct (IH Hwl ltac:(discriminate)) as [fl Hfl].
    exists (S (Nat.max fx fl)). intros [|f] acc rest Hf; [lia|].
    cbn [elements_text parse_elements]. cbn [elements_text] in Hfl.
    rewrite <- app_assoc. cbn [app].
    rewrite (skip_ws_value _ _ Hsx).
    rewrite (Hfx f (44%N :: (JSON_stringify y ++
               match l' with
               | [] => []
               | _ :: _ => 44%N :: elements_text l'
               end) ++ 93%N :: rest)) by (lia || reflexivity).
    cbn [skip_ws isJSONSpace N.eqb Pos.eqb orb].
    rewrite (Hfl f (acc ++ [x]) rest) by lia.
    rewrite <- app_assoc. reflexivity.
Qed.

Lemma parse_value_bracket f text tail :
  starts_value text ->
  parse_value (S f) (91%N :: text ++ tail) = parse_elements f [] (text ++ tail).
Proof.
  intros (c & t & -> & Hc & H93 & _).
  cbn [parse_value N.eqb Pos.eqb app skip_ws]. rewrite Hc.
  destruct (N.eqb_spec c 93); [congruence | reflexivity].
Qed.

Lemma parse_value_brace f text tail :
  starts_value text ->
  parse_value (S f) (123%N :: text ++ tail) = parse_members f [] (text ++ tail).
Proof.
  intros (c & t & -> & Hc & _ & H125).
  cbn [parse_value N.eqb Pos.eqb app skip_ws]. rewrite Hc.
  destruct (N.eqb_spec c 125); [congruence | reflexivity].
Qed.

Lemma starts_value_app text more : starts_value text -> starts_value (text ++ more).
Proof.
  intros (c & t & -> & H). exists c, (t ++ more). split; [reflexivity | exact H].
Qed.

Lemma reads_back_array l : Forall reads_back l -> reads_back (JArray l).
Proof.
  intros HP Hwf. cbn [wf_json] in Hwf. destruct l as [|x l'].
  - exists 1%nat. intros [|f] rest Hf _; [lia | reflexivity].
  - destruct (reads_back_elements (x :: l') HP Hwf ltac:(discriminate))
      as [fl Hfl].
    exists (S fl). intros [|f] rest Hf _; [lia|].
    rewrite stringify_array. cbn [app]. rewrite <- app_assoc. cbn [app].
    rewrite parse_value_bracket.
    + apply Hfl. lia.
    + cbn [forallb] in Hwf. apply andb_true_iff in Hwf as [Hwx _].
      cbn [elements_text]. apply starts_value_app, stringify_starts, Hwx.
Qed.

Lemma define_fresh k x acc :
  has_key k acc = false -> plain_key k = true ->
  define k x acc = acc ++ [(k, x)].
Proof.
  intros H Hp. unfold define, plain_key in *. rewrite H.
  destruct (array_index k); [discriminate Hp | reflexivity].
Qed.

Lemma has_key_snoc k acc k0 (x : json) :
  has_key k (acc ++ [(k0, x)]) = has_key k acc || eqs k k0.
Proof.
  induction acc as [|[k1 x1] acc IH]; cbn [app has_key].
  - apply orb_false_r.
  - rewrite IH, orb_assoc. reflexivity.
Qed.

Lemma eqs_sym a b : eqs a b = eqs b a.
Proof.
  destruct (eqs a b) eqn:E1, (eqs b a) eqn:E2; try reflexivity.
  - apply eqs_spec in E1. subst. rewrite eqs_refl in E2. discriminate.
  - apply eqs_spec in E2. subst. rewrite eqs_refl in E1. discriminate.
Qed.

(** One member of an object, up to the comma or the brace after it. *)
Lemma parse_member f acc k x c3 r' :
  starts_value (JSON_stringify x) ->
  parse_value f (JSON_stringify x ++ c3 :: r') = Parsed x (c3 :: r') ->
  c3 = 44%N \/ c3 = 125%N ->
  parse_members (S f) acc
    (QuoteJSONString k ++ 58%N :: JSON_stringify x ++ c3 :: r')
  = if (c3 =? 44)%N then parse_members f (define k x acc) r'
    else Parsed (JObject (define k x acc)) r'.
Proof.
  intros Hs Hv Hc3. unfold QuoteJSONString.
  cbn [parse_members app skip_ws isJSONSpace N.eqb Pos.eqb orb].
  rewrite <- app_assoc. cbn [app]. rewrite lex_string_quote.
  cbn [skip_ws isJSONSpace N.eqb Pos.eqb orb].
  rewrite (skip_ws_value _ _ Hs), Hv.
  destruct Hc3 as [-> | ->]; reflexivity.
Qed.

Lemma members_text_cons k x kv o :
  members_text ((k, x) :: kv :: o)
  = QuoteJSONString k ++ 58%N :: JSON_stringify x
      ++ 44%N :: members_text (kv :: o).
Proof. reflexivity. Qed.

(** The members of an object, after the brace or a comma. *)
Lemma reads_back_members o :
  Forall (fun kv => reads_back (snd kv)) o ->
  forallb (fun kv => wf_json (snd kv)) o = true ->
  forallb plain_key (map fst o) = true ->
  distinct (map fst o) = true ->
  o <> [] ->
  exists f0, forall f acc rest,
    (f0 <= f)%nat ->
    forallb (fun k => negb (has_key k acc)) (map fst o) = true ->
    parse_members f acc (members_text o ++ 125%N :: rest)
    = Parsed (JObject (acc ++ o)) rest.
Proof.
  intros HP. induction HP as [|[k x] o Hx Ho IH];
    intros Hwf Hplain Hdist Hne; [congruence|].
  cbn [forallb map fst snd distinct] in Hwf, Hplain, Hdist, Hx.
  apply andb_true_iff in Hwf as [Hwx Hwo].
  apply andb_true_iff in Hplain as [Hpk Hpo].
  apply andb_true_iff in Hdist as [Hk Hdo].
  apply negb_true_iff in Hk.
  destruct (Hx Hwx) as [fx Hfx].
  pose proof (stringify_starts x Hwx) as Hsx.
  destruct o as [|[k' y] o'].
  - exists (S fx). intros [|f] acc rest Hf Hacc; [lia|].
    cbn [forallb map fst] in Hacc. apply andb_true_iff in Hacc as [Hka _].
    apply negb_true_iff in Hka.
    cbn [members_text]. rewrite app_nil_r.
    repeat (rewrite <- app_assoc; cbn [app]).
    rewrite (parse_member f acc k x 125%N rest Hsx);
      [|apply Hfx; [lia | reflexivity]|auto].
    cbn [N.eqb Pos.eqb]. rewrite (define_fresh _ _ _ Hka Hpk). reflexivity.
  - destruct (IH Hwo Hpo Hdo ltac:(discriminate)) as [fo Hfo].
    exists (S (Nat.max fx fo)). intros [|f] acc rest Hf Hacc; [lia|].
    pose proof (proj1 (forallb_forall _ _) Hacc) as Hall.
    assert (Hka : has_key k acc = false).
    { apply negb_true_iff, (Hall k). left; reflexivity. }
    assert (Hacc2 : forallb (fun q => negb (has_key q (acc ++ [(k, x)])))
                      (map fst ((k', y) :: o')) = true).
    { apply forallb_forall. intros q Hq. rewrite has_key_snoc.
      rewrite (proj1 (negb_true_iff _) (Hall q (or_intror Hq))). cbn [orb].
      apply negb_true_iff. destruct (eqs q k) eqn:E; [|reflexivity].
      apply eqs_spec in E. subst q. exfalso.
      assert (X : existsb (eqs k) (map fst ((k', y) :: o')) = true).
      { apply existsb_exists. exists k. split; [exact Hq | apply eqs_refl]. }
      congruence. }
    rewrite members_text_cons.
    set (rest_text := members_text ((k', y) :: o')) in *.
    repeat (rewrite <- app_assoc; cbn [app]).
    rewrite (parse_member f acc k x 44%N (rest_text ++ 125%N :: rest) Hsx);
      [|apply Hfx; [lia | reflexivity]|auto].
    cbn [N.eqb Pos.eqb]. rewrite (define_fresh _ _ _ Hka Hpk).
    rewrite (Hfo f (acc ++ [(k, x)]) rest) by (lia || exact Hacc2).
    rewrite <- app_assoc. reflexivity.
Qed.

Lemma reads_back_object o :
  Forall (fun kv => reads_back (snd kv)) o -> reads_back (JObject o).
Proof.
  intros HP Hwf. cbn [wf_json] in Hwf.
  apply andb_true_iff in Hwf as [Hwf Hdist].
  apply andb_true_iff in Hwf as [Hwf Hplain].
  destruct o as [|[k x] o'].
  - exists 1%nat. intros [|f] rest Hf _; [lia | reflexivity].
  - destruct (reads_back_members ((k, x) :: o') HP Hwf Hplain Hdist
                ltac:(discriminate)) as [fo Hfo].
    exists (S fo). intros [|f] rest Hf _; [lia|].
    rewrite stringify_object. cbn [app]. rewrite <- app_assoc. cbn [app].
    rewrite parse_value_brace.
    + apply Hfo; [lia|]. apply forallb_forall. intros q _. reflexivity.
    + cbn [members_text]. apply starts_value_app.
      exists 34%N, (quote_chars k ++ [34%N]). repeat split; discriminate.
Qed.

(** Every well-formed value is read back from its text. *)
Lemma parse_stringify v : reads_back v.
Proof.
  induction v using json_induction.
  - apply reads_back_scalar_null.
  - apply reads_back_bool.
  - apply reads_back_number.
  - apply reads_back_string.
  - apply reads_back_array; assumption.
  - apply reads_back_object; assumption.
Qed.

(** [JSON.parse(JSON.stringify(v))] is [v]. *)
Lemma JSON_parse_stringify v :
  wf_json v = true -> JSON_parse (JSON_stringify v) = Normal v.
Proof.
  intros Hwf. destruct (parse_stringify v Hwf) as [f0 Hf0].
  pose proof (stringify_starts v Hwf) as Hs.
  unfold JSON_parse. set (text := JSON_stringify v) in *.
  pose proof (skip_ws_value text [] Hs) as Hsk. rewrite app_nil_r in Hsk.
  rewrite Hsk.
  pose proof (parse_value_fuel text) as Hfuel. rewrite Hsk in Hfuel.
  pose proof (parse_value_more_fuel (fuel_for text)
                (Nat.max f0 (fuel_for text)) text Hfuel
                (Nat.le_max_r _ _)) as Hmono.
  pose proof (Hf0 (Nat.max f0 (fuel_for text)) [] (Nat.le_max_l _ _) eq_refl)
    as Hbig.
  rewrite app_nil_r in Hbig. rewrite <- Hmono, Hbig. reflexivity.
Qed.

(** ** The round trip of an evaluation result *)

Lemma strings_wf l : wf_json (strings l) = true.
Proof.
  unfold strings. cbn [wf_json]. induction l as [|s l IH]; [reflexivity|].
  exact IH.
Qed.

Lemma to_json_wf r : valid_result r -> wf_json (to_json r) = true.
Proof.
  intros (Hd & _ & Hf & _ & Hv & _ & Ho).
  unfold to_json. cbn [wf_json forallb snd].
  rewrite Hd, Hf, Hv, Ho, !strings_wf. reflexivity.
Qed.

(** Any well-formed object, serialized and put between fences, comes back
    from the extractor as it was. *)
Lemma extract_fenced_object o tag ws1 ws2 :
  wf_json (JObject o) = true ->
  tag = [] \/ tag = str "json" ->
  forallb isSpace ws1 = true -> forallb isSpace ws2 = true ->
  extract (fenced tag ws1 (JSON_stringify (JObject o)) ws2)
  = Normal (JObject o).
Proof.
  intros Hwf Htag Hws1 Hws2. unfold extract, fenced.
  pose proof (jsonContent_fenced_block [] tag ws1 (members_text o) ws2 []
                eq_refl eq_refl Htag Hws1 Hws2) as H.
  rewrite app_nil_r in H. cbn [app] in H.
  rewrite stringify_object. cbn [app]. rewrite <- app_assoc. cbn [app].
  rewrite H. rewrite <- stringify_object. apply JSON_parse_stringify, Hwf.
Qed.

(** C5. A valid evaluation result, serialized with [JSON.stringify] and
    wrapped in triple-backtick fences (with the tag [json] or without a
    tag, with any white space around the text), comes back from the
    extractor as the same object, field for field. *)
Theorem C5_round_trip r tag ws1 ws2 :
  valid_result r ->
  tag = [] \/ tag = str "json" ->
  forallb isSpace ws1 = true -> forallb isSpace ws2 = true ->
  extract (fenced tag ws1 (JSON_stringify (to_json r)) ws2)
  = Normal (to_json r).
Proof.
  intros Hr Htag Hws1 Hws2.
  apply extract_fenced_object; try assumption.
  apply to_json_wf, Hr.
Qed.

(** C5 on the result of scenario 1, tagged and with a line break on each
    side of the text. *)
Lemma C5_round_trip_witness :
  extract (fenced (str "json") [10%N]
             (JSON_stringify (to_json sample_result)) [10%N])
  = Normal (to_json sample_result).
Proof.
  apply C5_round_trip.
  - unfold valid_result. vm_compute. repeat split; reflexivity.
  - right; reflexivity.
  - reflexivity.
  - reflexivity.
Defined.

(** * Further properties of the code *)

(** ** White space around a text *)

Lemma trimStart_by_nil p s : trimStart_by p s = [] <-> forallb p s = true.
Proof.
  induction s as [|c s IH]; cbn [trimStart_by forallb].
  - tauto.
  - destruct (p c); cbn [andb]; [exact IH | split; discriminate].
Qed.

Lemma trimStart_by_edge p s :
  match trimStart_by p s with c :: _ => p c = false | [] => True end.
Proof.
  induction s as [|c s IH]; cbn [trimStart_by]; [exact I|].
  destruct (p c) eqn:E; [exact IH | exact E].
Qed.

Lemma trimStart_by_fixed p s :
  match s with c :: _ => p c = false | [] => True end ->
  trimStart_by p s = s.
Proof.
  destruct s as [|c s]; cbn [trimStart_by]; [reflexivity|].
  intros ->. reflexivity.
Qed.

Lemma forallb_rev_eq (p : N -> bool) l : forallb p (rev l) = forallb p l.
Proof.
  induction l as [|x l IH]; [reflexivity|].
  cbn [rev forallb]. rewrite forallb_app, IH. cbn [forallb].
  rewrite andb_true_r. apply andb_comm.
Qed.

(** [trim] leaves nothing exactly of the texts of white space. *)
Lemma trim_blank s : trim s = [] <-> forallb isSpace s = true.
Proof.
  unfold trim, trimStart. split.
  - intros H. apply (f_equal (@rev N)) in H.
    rewrite rev_involutive in H. cbn [rev] in H.
    apply trimStart_by_nil in H. rewrite forallb_rev_eq in H.
    pose proof (trimStart_by_edge isSpace s) as He.
    destruct (trimStart_by isSpace s) as [|c t] eqn:E.
    + apply trimStart_by_nil. exact E.
    + cbn [forallb] in H. rewrite He in H. discriminate H.
  - intros H. apply trimStart_by_nil in H. rewrite H. reflexivity.
Qed.

(** [trim] takes white space off both ends, and nothing else. *)
Lemma trim_inside s :
  exists a b, s = a ++ trim s ++ b
              /\ forallb isSpace a = true /\ forallb isSpace b = true.
Proof.
  unfold trim, trimStart.
  destruct (trimStart_by_split isSpace s) as (a & Ea & Ha).
  destruct (trimStart_by_split isSpace (rev (trimStart_by isSpace s)))
    as (b & Eb & Hb).
  exists a, (rev b). split; [|split].
  - rewrite <- rev_app_distr, <- Eb, rev_involutive. exact Ea.
  - exact Ha.
  - rewrite forallb_rev_eq. exact Hb.
Qed.

Lemma trim_edges s : edge (trim s) /\ edge (rev (trim s)).
Proof.
  unfold trim, trimStart.
  pose proof (trimStart_by_edge isSpace s) as Hu.
  pose proof (trimStart_by_edge isSpace (rev (trimStart_by isSpace s))) as Hv.
  destruct (trimStart_by_split isSpace (rev (trimStart_by isSpace s)))
    as (b & Eb & Hb).
  set (u := trimStart_by isSpace s) in *.
  set (v := trimStart_by isSpace (rev u)) in *.
  split.
  - assert (Eu : u = rev v ++ rev b).
    { rewrite <- rev_app_distr, <- Eb, rev_involutive. reflexivity. }
    unfold edge. destruct (rev v) as [|c t]; [exact I|].
    rewrite Eu in Hu. exact Hu.
  - rewrite rev_involutive. exact Hv.
Qed.

Lemma trim_fixed x : edge x -> edge (rev x) -> trim x = x.
Proof.
  intros H1 H2. unfold trim, trimStart.
  rewrite (trimStart_by_fixed isSpace x H1),
    (trimStart_by_fixed isSpace (rev x) H2).
  apply rev_involutive.
Qed.

Lemma trim_idempotent s : trim (trim s) = trim s.
Proof.
  destruct (trim_edges s). apply trim_fixed; assumption.
Qed.

(** ** The extractor: what it hands on *)

Lemma firstn_exact n (x y : jsstring) :
  n = List.length x -> firstn n (x ++ y) = x.
Proof.
  intros ->. rewrite firstn_app, Nat.sub_diag, firstn_all. cbn [firstn].
  apply app_nil_r.
Qed.

(** What the object pattern matches is a span of the text that starts
    with a left brace and ends with a right brace. *)
Lemma exec_object_sound s whole cp :
  exec object_re s = Some (whole, cp) ->
  exists pre mid post,
    s = pre ++ 123%N :: mid ++ 125%N :: post
    /\ whole = 123%N :: mid ++ [125%N].
Proof.
  induction s as [|x tl IH]; cbn [exec]; rewrite m_object_re.
  - discriminate.
  - destruct (N.eqb_spec x 123%N) as [->|Hx].
    + destruct (after_last 125%N tl) as [r|] eqn:E.
      * destruct (after_last_some _ _ _ E) as (a & -> & _).
        cbn [rest cap]. intros H. injection H as <- _.
        exists [], a, r. split; [reflexivity|].
        replace (123%N :: a ++ 125%N :: r)
          with ((123%N :: a ++ [125%N]) ++ r)
          by (cbn [app]; rewrite <- app_assoc; reflexivity).
        apply firstn_exact.
        rewrite !length_app. cbn [List.length]. rewrite length_app.
        cbn [List.length]. destruct (List.length r); lia.
      * intros H. destruct (IH H) as (pre & mid & post & -> & ->).
        exists (123%N :: pre), mid, post. split; reflexivity.
    + intros H. destruct (IH H) as (pre & mid & post & -> & ->).
      exists (x :: pre), mid, post. split; reflexivity.
Qed.

(** X1. The text handed to [JSON.parse] is never made up: it is one
    contiguous part of the completion text, and it is either the whole text
    or a span from a left brace to a right brace. *)
Theorem jsonContent_is_part_of_content content :
  (exists a b, content = a ++ jsonContent content ++ b)
  /\ (jsonContent content = content
      \/ exists mid, jsonContent content = 123%N :: mid ++ [125%N]).
Proof.
  unfold jsonContent.
  destruct (exec fenced_re content) as [[whole cp]|] eqn:Ef.
  - destruct (exec_fenced_sound _ _ _ Ef)
      as (pre & tag & ws1 & mid & ws2 & post & E & _ & _ & _ & ->).
    split.
    + exists (pre ++ fence ++ tag ++ ws1), (ws2 ++ fence ++ post).
      rewrite E. rewrite <- !app_assoc. cbn [app].
      rewrite <- !app_assoc. reflexivity.
    + right. exists mid. reflexivity.
  - destruct (exec object_re content) as [[whole cp]|] eqn:Eo.
    + destruct (exec_object_sound _ _ _ Eo) as (pre & mid & post & E & ->).
      split.
      * exists pre, post. rewrite E. cbn [app]. rewrite <- app_assoc.
        reflexivity.
      * right. exists mid. reflexivity.
    + split.
      * exists [], []. rewrite app_nil_r. reflexivity.
      * left. reflexivity.
Qed.

(** A text without three backticks in a row has no fenced block. *)
Lemma exec_fenced_no_fence content :
  includes fence content = false -> exec fenced_re content = None.
Proof.
  intros H. destruct (exec fenced_re content) as [[whole cp]|] eqn:E;
    [|reflexivity].
  destruct (exec_fenced_sound _ _ _ E)
    as (pre & tag & ws1 & mid & ws2 & post & Ec & _).
  exfalso. exact (includes_false _ _ H pre _ Ec).
Qed.

(** X2. A serialized object with prose around it, and no fence: when the
    prose before has no left brace and the prose after no right brace, the
    extractor gives the object back. *)
Theorem extract_object_in_prose o pre post :
  wf_json (JObject o) = true ->
  ~ In 123%N pre -> ~ In 125%N post ->
  includes fence (pre ++ JSON_stringify (JObject o) ++ post) = false ->
  extract (pre ++ JSON_stringify (JObject o) ++ post) = Normal (JObject o).
Proof.
  intros Hwf Hpre Hpost Hf. unfold extract.
  pose proof (exec_fenced_no_fence _ Hf) as He.
  rewrite stringify_object in He |- *.
  replace (pre ++ (123%N :: members_text o ++ [125%N]) ++ post)
    with (pre ++ 123%N :: members_text o ++ 125%N :: post) in He |- *
    by (cbn [app]; rewrite <- app_assoc; reflexivity).
  rewrite (jsonContent_braces _ _ _ He Hpre Hpost).
  rewrite <- stringify_object. apply JSON_parse_stringify. exact Hwf.
Qed.

Lemma extract_object_in_prose_witness :
  extract (str "Here is my evaluation: "
             ++ JSON_stringify (JObject [(str "improvements", JArray [])])
             ++ str " Hope this helps!")
  = Normal (JObject [(str "improvements", JArray [])]).
Proof.
  apply (extract_object_in_prose [(str "improvements", JArray [])]
           (str "Here is my evaluation: ") (str " Hope this helps!")).
  - reflexivity.
  - vm_compute. intuition discriminate.
  - vm_compute. intuition discriminate.
  - vm_compute. reflexivity.
Defined.

(** ** The request *)

Lemma requests_accounting env idea w :
  requests (evaluateInnovation env idea) w
  = match api_key env with
    | Some token => sent w ++ [request_for env token idea]
    | None => sent w
    end.
Proof.
  unfold api_key.
  destruct (HUGGINGFACE_API_KEY env) as [[|c s]|] eqn:Hk.
  - apply (evaluate_no_key env idea w). right; exact Hk.
  - destruct (provider w (sent w) (request_for env (c :: s) idea))
      as [r|e] eqn:Hp.
    + destruct (ok r) eqn:Hok.
      * apply (evaluate_ok env idea w c s r Hk Hp Hok).
      * apply (evaluate_status env idea w c s r Hk Hp Hok).
    + apply (evaluate_network env idea w c s e Hk Hp).
  - apply (evaluate_no_key env idea w). left; exact Hk.
Qed.

(** X3. [evaluateInnovation] calls the provider at most once: not at all
    without an API key, and otherwise once, with the request built from
    the environment and the description, whatever the provider answers. *)
Theorem one_request_at_most env idea w :
  requests (evaluateInnovation env idea) w
  = match api_key env with
    | Some token => sent w ++ [request_for env token idea]
    | None => sent w
    end.
Proof.
  exact (requests_accounting env idea w).
Qed.

(** X4. The body of the request is JSON for every description, token and
    model: parsed, it is the object with the model, which is never empty,
    the two messages, the temperature 0.8, 2500 tokens at most and no
    streaming; the user message holds the prompt. *)
Theorem payload_reads_back env token idea :
  let model := or_default (HUGGINGFACE_MODEL env) default_model in
  JSON_parse (payload (request_for env token idea))
  = Normal (payload_object model (messages idea))
  /\ model <> []
  /\ opt_get (opt_get (get_prop (payload_object model (messages idea))
                         (str "messages")) (str "1")) (str "content")
     = Some (JString (user_content idea)).
Proof.
  cbv zeta. split; [|split].
  - change (payload (request_for env token idea))
      with (JSON_stringify
              (payload_object (or_default (HUGGINGFACE_MODEL env) default_model)
                 (messages idea))).
    apply JSON_parse_stringify. reflexivity.
  - unfold or_default. destruct (HUGGINGFACE_MODEL env) as [[|c s]|];
      discriminate.
  - reflexivity.
Qed.

(** X5. A description without a dollar sign is in the prompt as it is: the
    user message is the template with the description in the place of the
    placeholder, so the description occurs in it and the rest of the
    template is unchanged. *)
Theorem prompt_holds_description idea :
  ~ In 36%N idea ->
  exists before after,
    EVALUATION_PROMPT = before ++ placeholder ++ after
    /\ user_content idea = before ++ idea ++ after
    /\ includes idea (user_content idea) = true
    /\ List.length (user_content idea) + List.length placeholder
       = List.length EVALUATION_PROMPT + List.length idea.
Proof.
  intros H.
  destruct (user_content_verbatim idea H) as (before & after & E & _ & _ & U).
  exists before, after. split; [exact E|]. split; [exact U|]. split.
  - rewrite U. apply includes_middle.
  - rewrite U, E, !length_app. lia.
Qed.

Lemma prompt_holds_description_witness :
  exists before after,
    EVALUATION_PROMPT = before ++ placeholder ++ after
    /\ user_content (str "A foldable e-bike") = before ++ str "A foldable e-bike" ++ after
    /\ includes (str "A foldable e-bike") (user_content (str "A foldable e-bike")) = true
    /\ List.length (user_content (str "A foldable e-bike")) + List.length placeholder
       = List.length EVALUATION_PROMPT + List.length (str "A foldable e-bike").
Proof.
  apply (prompt_holds_description (str "A foldable e-bike")).
  vm_compute. intuition discriminate.
Defined.

(** ** The completion *)

Lemma completion_body_parses content :
  exists data,
    JSON_parse (completion_body content) = Normal data
    /\ content_of data = Normal (JString content)
    /\ completion_content data = Some (JString content).
Proof.
  eexists. split; [|split].
  - apply JSON_parse_stringify. reflexivity.
  - destruct content; reflexivity.
  - reflexivity.
Qed.

(** A text at the end of the chain is the content, the empty one
    included. *)
Lemma content_of_text data content :
  completion_content data = Some (JString content) ->
  content_of data = Normal (JString content).
Proof.
  intros Hc. unfold content_of, get. unfold completion_content in Hc.
  destruct data; try discriminate Hc; rewrite Hc; destruct content;
    reflexivity.
Qed.

(** X6. For a successful response whose JSON, whatever else it holds and
    however the body writes it, has the text [content] as the message
    content of its first choice, the call resolves to what the extractor
    makes of [content], or to the failure with the parse error's message.
    The body that [JSON.stringify] writes for a completion with a content
    is such a response, for every content. *)
Theorem completion_text_is_extracted env idea w c s st txt data content :
  HUGGINGFACE_API_KEY env = Some (c :: s) ->
  provider w (sent w) (request_for env (c :: s) idea)
  = Normal (Response st (Normal txt)) ->
  ok (Response st (Normal txt)) = true ->
  JSON_parse txt = Normal data ->
  completion_content data = Some (JString content) ->
  result (evaluateInnovation env idea) w
  = Normal (match extract content with
            | Normal v => v
            | Throw e => failure e
            end)
  /\ (forall text, exists d,
        JSON_parse (completion_body text) = Normal d
        /\ completion_content d = Some (JString text)).
Proof.
  intros Hk Hp Hok Hj Hc. split.
  - exact (evaluate_content env idea w c s st txt data content Hk Hp Hok Hj
             (content_of_text data content Hc)).
  - intros text. destruct (completion_body_parses text) as (d & H1 & _ & H2).
    exists d. split; assumption.
Qed.

(** X6 on a body with other fields, in which the content is written with
    escapes. *)
Lemma completion_text_is_extracted_witness :
  let txt := quotes (str
    "{~id~:~chatcmpl-1~,~choices~:[{~index~:0,~message~:{~role~:~assistant~,~content~:~Sure!\n{\~improvements\~:[]} Done.~},~finish_reason~:~stop~}],~usage~:{~total_tokens~:42}}") in
  let content :=
    str "Sure!" ++ [10%N] ++ quotes (str "{~improvements~:[]} Done.") in
  result (evaluateInnovation (Env (Some (str "hf_token")) None None)
            (str "A foldable e-bike"))
    (mock_world (Normal (Response 200 (Normal txt))))
  = Normal (match extract content with
            | Normal v => v
            | Throw e => failure e
            end)
  /\ (forall text, exists d,
        JSON_parse (completion_body text) = Normal d
        /\ completion_content d = Some (JString text)).
Proof.
  cbv zeta.
  eapply (completion_text_is_extracted (Env (Some (str "hf_token")) None None)
            (str "A foldable e-bike") _ (code "h") (str "f_token") 200%N).
  - reflexivity.
  - reflexivity.
  - reflexivity.
  - vm_compute. reflexivity.
  - reflexivity.
Defined.

(** X7. A message content that is there but is no text with something in
    it: a falsy one (null, false, a number that is zero or rounds to zero,
    the empty text) gives way to the empty text, which [JSON.parse]
    refuses; a truthy one that is no string (another number, an array of
    parts, an object) has no [match] method. Either way the call resolves
    to the failure object, with the SyntaxError's message in the first case
    and the TypeError's in the second. *)
Theorem content_that_is_no_text env idea w c s st txt data v :
  HUGGINGFACE_API_KEY env = Some (c :: s) ->
  provider w (sent w) (request_for env (c :: s) idea)
  = Normal (Response st (Normal txt)) ->
  ok (Response st (Normal txt)) = true ->
  JSON_parse txt = Normal data ->
  data <> JNull ->
  completion_content data = Some v ->
  truthy (Some v) = false \/ is_string v = false ->
  result (evaluateInnovation env idea) w
  = Normal (failure (if truthy (Some v) then match_error else syntax_error)).
Proof.
  intros Hk Hp Hok Hj Hd Hc Hv.
  assert (Hcontent : content_of data
                     = Normal (if truthy (Some v) then v else JString [])).
  { unfold content_of, get. unfold completion_content in Hc.
    destruct data; try congruence; rewrite Hc;
      destruct (truthy (Some v)); reflexivity. }
  destruct (evaluate_ok env idea w c s _ Hk Hp Hok) as [Hr _].
  rewrite Hr. cbn [body outcome_of_body]. rewrite Hj, Hcontent.
  destruct (truthy (Some v)) eqn:Ht.
  - destruct Hv as [Hv|Hv]; [discriminate Hv|].
    destruct v; try discriminate Hv; reflexivity.
  - reflexivity.
Qed.

(** X7 on a content that is an array of parts, and on a content that is a
    number too small for a double, which reads as zero. *)
Lemma content_that_is_no_text_witness :
  let run txt :=
    result (evaluateInnovation (Env (Some (str "hf_token")) None None)
              (str "A foldable e-bike"))
      (mock_world (Normal (Response 200 (Normal txt)))) in
  run (quotes (str "{~choices~:[{~message~:{~content~:[~part~]}}]}"))
  = Normal (failure match_error)
  /\ run (quotes (str "{~choices~:[{~message~:{~content~:1e-400}}]}"))
     = Normal (failure syntax_error).
Proof.
  cbv zeta. split.
  - change match_error
      with (if truthy (Some (JArray [JString (str "part")]))
            then match_error else syntax_error).
    apply (content_that_is_no_text (Env (Some (str "hf_token")) None None)
             (str "A foldable e-bike") _ (code "h") (str "f_token") 200%N
             (quotes (str "{~choices~:[{~message~:{~content~:[~part~]}}]}"))
             (JObject [(str "choices",
                JArray [JObject [(str "message",
                   JObject [(str "content", JArray [JString (str "part")])])]])])
             (JArray [JString (str "part")])).
    + reflexivity.
    + reflexivity.
    + reflexivity.
    + vm_compute. reflexivity.
    + discriminate.
    + reflexivity.
    + right. reflexivity.
  - replace syntax_error
      with (if truthy (Some (JNumber (Num false 1 (-400))))
            then match_error else syntax_error)
      by (vm_compute; reflexivity).
    apply (content_that_is_no_text (Env (Some (str "hf_token")) None None)
             (str "A foldable e-bike") _ (code "h") (str "f_token") 200%N
             (quotes (str "{~choices~:[{~message~:{~content~:1e-400}}]}"))
             (JObject [(str "choices",
                JArray [JObject [(str "message",
                   JObject [(str "content", JNumber (Num false 1 (-400)))])]])])
             (JNumber (Num false 1 (-400)))).
    + reflexivity.
    + reflexivity.
    + reflexivity.
    + vm_compute. reflexivity.
    + discriminate.
    + reflexivity.
    + left. vm_compute. reflexivity.
Defined.

(** ** The route, case by case *)

Lemma evaluate_returns env idea w :
  exists v w',
    evaluateInnovation env idea w = (Normal v, w')
    /\ sent w' = match api_key env with
                 | Some token => sent w ++ [request_for env token idea]
                 | None => sent w
                 end.
Proof.
  pose proof (try_block_caught env idea w) as H.
  pose proof (requests_accounting env idea w) as Hs.
  unfold result, requests in *.
  destruct (evaluateInnovation env idea w) as [cv w'].
  cbn [fst snd] in *.
  destruct (evaluate_body env idea w) as [[v|e] w0]; subst cv;
    eexists; eexists; (split; [reflexivity | exact Hs]).
Qed.

Lemma validate_none reqBody :
  validate reqBody = Normal None
  <-> reqBody <> JNull
      /\ (truthy (get_prop reqBody (str "ideaDescription")) = false
          \/ exists s, get_prop reqBody (str "ideaDescription")
                       = Some (JString s) /\ trim s = []).
Proof.
  destruct (validate_cases reqBody)
    as [(Hv & Hn & Hc) | [(s & Hv & Hg & Ht) | (e & Hv & Hc)]].
  - tauto.
  - split; [congruence|]. intros (_ & [Hf | (s' & Hg' & Ht')]).
    + rewrite Hg in Hf. cbn [truthy] in Hf.
      destruct s; [elim Ht; reflexivity | discriminate Hf].
    + congruence.
  - split; [congruence|]. intros (Hn & [Hf | (s' & Hg' & Ht')]).
    + destruct Hc as [Hc | (v & Hg & Ht & _)]; [contradiction|].
      rewrite Hg in Hf. congruence.
    + destruct Hc as [Hc | (v & Hg & _ & Hs)]; [contradiction|].
      rewrite Hg in Hg'. injection Hg' as ->. elim (Hs s' eq_refl).
Qed.

Lemma validate_some reqBody s :
  validate reqBody = Normal (Some s)
  <-> get_prop reqBody (str "ideaDescription") = Some (JString s)
      /\ trim s <> [].
Proof.
  split.
  - intros Hv'.
    destruct (validate_cases reqBody)
      as [(Hv & _) | [(s0 & Hv & Hg & Ht) | (e & Hv & _)]]; try congruence.
    rewrite Hv in Hv'. injection Hv' as ->. split; assumption.
  - intros (Hg & Ht). rewrite (validate_string _ _ Hg).
    destruct (trim s); [congruence | reflexivity].
Qed.

(** X8. A request without a description is turned down: when
    [ideaDescription] is missing or falsy (null, false, 0, the empty text),
    or is a text of white space only, the route answers 400 with its one
    error message, and the world is as it was: nothing sent, nothing
    logged. *)
Theorem route_turns_down_missing_description env reqBody w :
  reqBody <> JNull ->
  truthy (get_prop reqBody (str "ideaDescription")) = false
  \/ (exists s, get_prop reqBody (str "ideaDescription") = Some (JString s)
                /\ forallb isSpace s = true) ->
  handle_evaluate env reqBody w = (Normal reply_400, w).
Proof.
  intros Hn [H|(s & Hg & Hs)].
  - run_handler. unfold validate, get.
    destruct reqBody; try congruence; rewrite H; reflexivity.
  - apply (handle_blank env reqBody s w Hg). apply trim_blank. exact Hs.
Qed.

Lemma route_turns_down_missing_description_witness :
  handle_evaluate (Env (Some (str "hf_token")) None None)
    (JObject [(str "idea", JString (str "misspelt key"))])
    (mock_world (Throw (MkError Error (str "unreachable"))))
  = (Normal reply_400, mock_world (Throw (MkError Error (str "unreachable")))).
Proof.
  apply (route_turns_down_missing_description
           (Env (Some (str "hf_token")) None None)
           (JObject [(str "idea", JString (str "misspelt key"))])).
  - discriminate.
  - left. reflexivity.
Defined.

(** X9. A description that is truthy but no string (a number that does not
    read as zero, an array, an object, true): trimming it throws inside the
    try block, and the route answers 500 with the TypeError's message as
    details; the provider is not called. *)
Theorem route_description_not_a_string env reqBody v w :
  get_prop reqBody (str "ideaDescription") = Some v ->
  truthy (Some v) = true -> is_string v = false ->
  fst (handle_evaluate env reqBody w) = Normal (reply_500 trim_error)
  /\ sent (snd (handle_evaluate env reqBody w)) = sent w.
Proof.
  intros Hg Ht Hs.
  assert (Hv : validate reqBody = Throw trim_error).
  { unfold validate, get. destruct reqBody; try discriminate Hg;
      rewrite Hg, Ht; destruct v; try discriminate Hs; reflexivity. }
  run_handler. rewrite Hv. split; reflexivity.
Qed.

Lemma route_description_not_a_string_witness :
  fst (handle_evaluate (Env (Some (str "hf_token")) None None)
         (JObject [(str "ideaDescription", JNumber (Num false 42 0))])
         (mock_world (Throw (MkError Error (str "unreachable")))))
  = Normal (reply_500 trim_error)
  /\ sent (snd (handle_evaluate (Env (Some (str "hf_token")) None None)
                  (JObject [(str "ideaDescription", JNumber (Num false 42 0))])
                  (mock_world (Throw (MkError Error (str "unreachable"))))))
     = sent (mock_world (Throw (MkError Error (str "unreachable")))).
Proof.
  apply (route_description_not_a_string
           (Env (Some (str "hf_token")) None None)
           (JObject [(str "ideaDescription", JNumber (Num false 42 0))])
           (JNumber (Num false 42 0))).
  - reflexivity.
  - vm_compute. reflexivity.
  - reflexivity.
Defined.

(** X10. The route always answers, and with one of three statuses. It is
    200 exactly when the description is a string with something other than
    white space in it and [res.json] can serialize what
    [evaluateInnovation] resolved to; it is 400 exactly when the
    description is missing, falsy or blank; else it is 500. The provider is
    called once at most, and only for a description with something in it:
    never before a 400, while a 500 may follow a call. *)
Theorem route_always_replies env reqBody w :
  exists rep w',
    handle_evaluate env reqBody w = (Normal rep, w')
    /\ (status_code rep = 200%N \/ status_code rep = 400%N
        \/ status_code rep = 500%N)
    /\ (status_code rep = 200%N
        <-> exists s v,
              get_prop reqBody (str "ideaDescription") = Some (JString s)
              /\ trim s <> []
              /\ result (evaluateInnovation env s) w = Normal v
              /\ (depth v <= max_depth w)%nat)
    /\ (status_code rep = 400%N
        <-> reqBody <> JNull
            /\ (truthy (get_prop reqBody (str "ideaDescription")) = false
                \/ exists s, get_prop reqBody (str "ideaDescription")
                             = Some (JString s) /\ trim s = []))
    /\ (sent w' = sent w \/ exists rq, sent w' = sent w ++ [rq])
    /\ ((forall s, get_prop reqBody (str "ideaDescription") = Some (JString s)
                   -> trim s = []) ->
        sent w' = sent w).
Proof.
  assert (Hpair : forall rep,
            fst (handle_evaluate env reqBody w) = Normal rep ->
            handle_evaluate env reqBody w
            = (Normal rep, snd (handle_evaluate env reqBody w))).
  { intros rep H. destruct (handle_evaluate env reqBody w) as [cr w0].
    cbn [fst snd] in *. rewrite H. reflexivity. }
  assert (Hone : forall s w1,
            snd (evaluateInnovation env s w) = w1 ->
            sent w1 = sent w \/ exists rq, sent w1 = sent w ++ [rq]).
  { intros s w1 <-. destruct (evaluate_returns env s w) as (v & w2 & E & Hs).
    rewrite E. cbn [snd]. rewrite Hs.
    destruct (api_key env); [right; eexists; reflexivity | left; reflexivity]. }
  destruct (handle_cases env reqBody w)
    as [(H & Hv) | [(s & v & w' & Hv & E & Hd & H)
        | [(s & v & w' & Hv & E & Hd & H & Hs) | (e & Hv & H & Hs)]]].
  - exists reply_400, w. split; [exact H|].
    split; [right; left; reflexivity|]. split; [|split; [|split; [|reflexivity]]].
    + split; [discriminate|]. intros (s & v & Hg & Ht & _).
      assert (Hv' : validate reqBody = Normal (Some s))
        by (apply validate_some; split; assumption).
      congruence.
    + split; [intros _; apply validate_none; exact Hv | reflexivity].
    + left; reflexivity.
  - apply validate_some in Hv as [Hg Ht].
    exists (Reply 200 v), w'. split; [exact H|].
    split; [left; reflexivity|]. split; [|split; [|split]].
    + split; [|reflexivity]. intros _. exists s, v.
      split; [exact Hg|]. split; [exact Ht|]. split; [|exact Hd].
      unfold result. rewrite E. reflexivity.
    + split; [discriminate|]. intros Hn.
      assert (Hv' : validate reqBody = Normal None) by (apply validate_none; exact Hn).
      assert (Hv'' : validate reqBody = Normal (Some s))
        by (apply validate_some; split; assumption).
      congruence.
    + apply (Hone s). rewrite E. reflexivity.
    + intros Hb. elim Ht. exact (Hb s Hg).
  - apply validate_some in Hv as [Hg Ht].
    exists (reply_500 stack_error), (snd (handle_evaluate env reqBody w)).
    split; [exact (Hpair _ H)|].
    split; [right; right; reflexivity|]. split; [|split; [|split]].
    + split; [discriminate|]. intros (s1 & v1 & Hg1 & _ & Hr1 & Hd1).
      rewrite Hg in Hg1. injection Hg1 as <-.
      unfold result in Hr1. rewrite E in Hr1. cbn [fst] in Hr1.
      injection Hr1 as <-. lia.
    + split; [discriminate|]. intros Hn.
      assert (Hv' : validate reqBody = Normal None) by (apply validate_none; exact Hn).
      assert (Hv'' : validate reqBody = Normal (Some s))
        by (apply validate_some; split; assumption).
      congruence.
    + rewrite Hs. apply (Hone s). rewrite E. reflexivity.
    + intros Hb. elim Ht. exact (Hb s Hg).
  - exists (reply_500 e), (snd (handle_evaluate env reqBody w)).
    split; [exact (Hpair _ H)|].
    split; [right; right; reflexivity|]. split; [|split; [|split]].
    + split; [discriminate|]. intros (s & v & Hg & Ht & _).
      assert (Hv' : validate reqBody = Normal (Some s))
        by (apply validate_some; split; assumption).
      congruence.
    + split; [discriminate|]. intros Hn.
      assert (Hv' : validate reqBody = Normal None) by (apply validate_none; exact Hn).
      congruence.
    + left. exact Hs.
    + intros _. exact Hs.
Qed.

(** X11. A server that runs without an API key still answers 200 to every
    description with something in it: the body is the failure object with
    the message about the missing key, and the provider is not called. *)
Theorem route_without_api_key env reqBody s w :
  api_key env = None ->
  get_prop reqBody (str "ideaDescription") = Some (JString s) ->
  trim s <> [] ->
  fst (handle_evaluate env reqBody w) = Normal (Reply 200 (failure key_error))
  /\ sent (snd (handle_evaluate env reqBody w)) = sent w.
Proof.
  intros Hk Hg Ht.
  assert (Hkey : HUGGINGFACE_API_KEY env = None
                 \/ HUGGINGFACE_API_KEY env = Some []).
  { unfold api_key in Hk. destruct (HUGGINGFACE_API_KEY env) as [[|c t]|];
      [right; reflexivity | discriminate Hk | left; reflexivity]. }
  destruct (evaluate_no_key env s w Hkey) as [Hr _].
  destruct (handle_string env reqBody s w Hg Ht) as (v & w' & E & H200 & _).
  destruct (evaluate_returns env s w) as (v' & w'' & E' & Hs).
  rewrite Hk in Hs. rewrite E in E'. injection E' as <- <-.
  unfold result in Hr. rewrite E in Hr. cbn [fst] in Hr. injection Hr as ->.
  rewrite (H200 (shallow_fits _ w ltac:(rewrite depth_failure; unfold shallow; lia))).
  split; [reflexivity | exact Hs].
Qed.

Lemma route_without_api_key_witness :
  fst (handle_evaluate (Env None None None)
         (body_with (str "A foldable e-bike"))
         (mock_world (Throw (MkError Error (str "unreachable")))))
  = Normal (Reply 200 (failure key_error))
  /\ sent (snd (handle_evaluate (Env None None None)
                  (body_with (str "A foldable e-bike"))
                  (mock_world (Throw (MkError Error (str "unreachable"))))))
     = sent (mock_world (Throw (MkError Error (str "unreachable")))).
Proof.
  apply (route_without_api_key (Env None None None)
           (body_with (str "A foldable e-bike")) (str "A foldable e-bike")).
  - reflexivity.
  - reflexivity.
  - vm_compute. discriminate.
Defined.






(** ** The client *)

Lemma request_body_parses s :
  JSON_parse (request_body s) = Normal (body_with s).
Proof.
  apply (JSON_parse_stringify (body_with s)). reflexivity.
Qed.

Lemma express_json_request s :
  (utf8_length (request_body s) <=? json_limit)%N = true ->
  express_json (request_body s) = inr (body_with s).
Proof.
  intros H. unfold express_json. rewrite H, request_body_parses.
  reflexivity.
Qed.

(** X13. What the form submits, the route accepts. Whatever was typed,
    the form either submits nothing, when the text is white space only, or
    submits the text without the white space around it; that text is not
    empty, the request body made of it, when it is within the limit of the
    JSON middleware, is read as the object with that description, and the
    route's validation passes the description on unchanged. *)
Theorem form_submits_what_the_route_accepts typed :
  match handleSubmit typed with
  | None => forallb isSpace typed = true
  | Some s =>
      (exists a b, typed = a ++ s ++ b
                   /\ forallb isSpace a = true /\ forallb isSpace b = true)
      /\ s <> [] /\ edge s /\ edge (rev s)
      /\ ((utf8_length (request_body s) <=? json_limit)%N = true ->
          express_json (request_body s) = inr (body_with s))
      /\ validate (body_with s) = Normal (Some s)
  end.
Proof.
  unfold handleSubmit.
  pose proof (trim_inside typed) as Hin.
  pose proof (trim_edges typed) as [He1 He2].
  pose proof (trim_idempotent typed) as Hid.
  destruct (trim typed) as [|c t] eqn:E.
  - apply trim_blank. exact E.
  - split; [exact Hin|]. split; [discriminate|].
    split; [exact He1|]. split; [exact He2|].
    split; [apply express_json_request|].
    rewrite (validate_string (body_with (c :: t)) (c :: t) eq_refl).
    rewrite Hid. reflexivity.
Qed.


(** What the client reads is what the call resolved to on the server. *)
Lemma client_receives page env w idea v :
  (utf8_length (request_body idea) <=? json_limit)%N = true ->
  trim idea <> [] ->
  result (evaluateInnovation env idea) w = Normal v ->
  wf_json v = true ->
  (depth v <= shallow)%nat ->
  fetch_evaluation (server page env w) idea = Normal v.
Proof.
  intros Hl Ht Hr Hwf Hd. unfold fetch_evaluation, server.
  rewrite (express_json_request idea Hl).
  rewrite (handle_passes_on env (body_with idea) idea w v eq_refl Ht Hr
             (shallow_fits v w Hd)).
  cbn [response_of ok status status_code reply_body body negb].
  change ((200 <=? 200)%N && (200 <=? 299)%N) with true. cbn [negb].
  apply JSON_parse_stringify. exact Hwf.
Qed.

(** X15. A failure on the server is shown by the results view, not by the
    form: when the call resolves to the failure object for an error, the
    route sends it with status 200, the client takes it for the evaluation
    and sets no error message, and [EvaluationResults] shows its error
    state with the error's message, or with the general text when that
    message is empty. Resetting leads back to the empty form. *)
Theorem failure_reaches_the_results_view page env w idea e st :
  (utf8_length (request_body idea) <=? json_limit)%N = true ->
  trim idea <> [] ->
  result (evaluateInnovation env idea) w = Normal (failure e) ->
  let st' := handleEvaluate (server page env w) idea st in
  st' = AppState (failure e) false None
  /\ App st' = Results (failure e)
  /\ error_state (failure e)
     = Some (JString match message e with
                     | [] => str "Failed to generate evaluation"
                     | c :: m => c :: m
                     end)
  /\ App (handleReset st') = Form false None.
Proof.
  intros Hl Ht Hr. cbv zeta. unfold handleEvaluate.
  rewrite (client_receives page env w idea (failure e) Hl Ht Hr eq_refl
             ltac:(rewrite depth_failure; unfold shallow; lia)).
  split; [reflexivity|]. split; [reflexivity|]. split; [|reflexivity].
  destruct (message e) eqn:E; unfold error_state, failure; rewrite E;
    reflexivity.
Qed.

Lemma failure_reaches_the_results_view_witness :
  let st' := handleEvaluate
               (server (fun _ => []) (Env None None None)
                  (mock_world (Throw (MkError Error (str "unreachable")))))
               (str "A foldable e-bike") initial in
  st' = AppState (failure key_error) false None
  /\ App st' = Results (failure key_error)
  /\ error_state (failure key_error)
     = Some (JString match message key_error with
                     | [] => str "Failed to generate evaluation"
                     | c :: m => c :: m
                     end)
  /\ App (handleReset st') = Form false None.
Proof.
  apply (failure_reaches_the_results_view (fun _ => []) (Env None None None)
           (mock_world (Throw (MkError Error (str "unreachable"))))
           (str "A foldable e-bike") key_error initial).
  - reflexivity.
  - vm_compute. discriminate.
  - reflexivity.
Defined.



(** X17. The route's 400 as the client shows it: for a description of
    white space only, sent without the form's check, the provider is not
    called, and the client ends with no evaluation and the message with the
    status; the route's own error text is not shown. *)
Theorem blank_description_from_the_client page env w idea st :
  (utf8_length (request_body idea) <=? json_limit)%N = true ->
  forallb isSpace idea = true ->
  let st' := handleEvaluate (server page env w) idea st in
  st' = AppState JNull false (Some (str "HTTP error! status: 400"))
  /\ App st' = Form false (Some (str "HTTP error! status: 400"))
  /\ sent (snd (handle_evaluate env (body_with idea) w)) = sent w.
Proof.
  intros Hl Hs. cbv zeta.
  assert (Hh : handle_evaluate env (body_with idea) w = (Normal reply_400, w)).
  { apply (handle_blank env (body_with idea) idea w eq_refl).
    apply trim_blank. exact Hs. }
  unfold handleEvaluate, fetch_evaluation, server.
  rewrite (express_json_request idea Hl), Hh.
  split; [reflexivity|]. split; reflexivity.
Qed.

Lemma blank_description_from_the_client_witness :
  let st' := handleEvaluate
               (server (fun _ => []) (Env (Some (str "hf_token")) None None)
                  (mock_world (Throw (MkError Error (str "unreachable")))))
               [32%N; 10%N; 9%N] initial in
  st' = AppState JNull false (Some (str "HTTP error! status: 400"))
  /\ App st' = Form false (Some (str "HTTP error! status: 400"))
  /\ sent (snd (handle_evaluate (Env (Some (str "hf_token")) None None)
                  (body_with [32%N; 10%N; 9%N])
                  (mock_world (Throw (MkError Error (str "unreachable"))))))
     = sent (mock_world (Throw (MkError Error (str "unreachable")))).
Proof.
  apply (blank_description_from_the_client (fun _ => [])
           (Env (Some (str "hf_token")) None None)
           (mock_world (Throw (MkError Error (str "unreachable"))))
           [32%N; 10%N; 9%N] initial).
  - reflexivity.
  - reflexivity.
Defined.

(** X18. A description too long for the JSON middleware: when the request
    body is over 100kb the route is not reached, the answer is 413, and the
    client ends with no evaluation and the message with that status. *)
Theorem long_description_is_refused page env w idea st :
  (utf8_length (request_body idea) <=? json_limit)%N = false ->
  let st' := handleEvaluate (server page env w) idea st in
  st' = AppState JNull false (Some (str "HTTP error! status: 413"))
  /\ App st' = Form false (Some (str "HTTP error! status: 413")).
Proof.
  intros Hl. cbv zeta.
  unfold handleEvaluate, fetch_evaluation, server, express_json.
  rewrite Hl. split; reflexivity.
Qed.

Lemma long_description_is_refused_witness :
  let st' := handleEvaluate
               (server (fun _ => []) (Env (Some (str "hf_token")) None None)
                  (mock_world (Throw (MkError Error (str "unreachable")))))
               (repeat 97%N (N.to_nat 102400)) initial in
  st' = AppState JNull false (Some (str "HTTP error! status: 413"))
  /\ App st' = Form false (Some (str "HTTP error! status: 413")).
Proof.
  apply (long_description_is_refused (fun _ => [])
           (Env (Some (str "hf_token")) None None)
           (mock_world (Throw (MkError Error (str "unreachable"))))
           (repeat 97%N (N.to_nat 102400)) initial).
  vm_compute. reflexivity.
Defined.
